(** * P2P file sharing: a shallow embedding of the peer and of the tracker

    The development follows [hybrid_peer.py] (chunk codec, chunk server,
    chunk downloader, availability map, download plan, download
    orchestration) and [server.py] (the tracker's registry).

    Python values are modelled as follows: [int] as [Z], [bytes] as
    [list byte], [str] as [string] (text over the code points below
    256), [dict] as [gmap], [list] as [list], [None]-or-value as
    [option].  The file system, the network and the random number
    generator are explicit arguments; writes to a socket and to the
    output file are taken to succeed.

    [str.encode] and [bytes.decode] are UTF-8 in the program, which is
    one byte per character on ASCII text; they are modelled by [b_lit]
    and [string_of_list_byte], and the properties that depend on the
    bytes of a request line are stated for ASCII hashes or for the hex
    digests the sharing side computes.  A path is a key of the file
    system, one key per file; a property about what [open] does to the
    output path is stated for a hash that is a plain file name, as a
    hex digest is. *)

From Stdlib Require Import ZArith Lia List.
From Stdlib Require Import Strings.Byte Strings.Ascii Strings.String.
From stdpp Require Import base option list strings pretty gmap.

Open Scope Z_scope.

(** ** Python built-ins used by the program *)

Abbreviation bytes := (list byte).

(** [len(b)] *)
Definition len {A} (l : list A) : Z := Z.of_nat (length l).

(** A bytes literal such as [b"ERROR: File not found"]. *)
Definition b_lit (s : string) : bytes := list_byte_of_string s.

Definition byte_of_Z (z : Z) : byte :=
  match Byte.of_N (Z.to_N (z mod 256)) with
  | Some b => b
  | None => x00
  end.

Definition Z_of_byte (b : byte) : Z := Z.of_N (Byte.to_N b).

(** [n.to_bytes(4, byteorder='big')]; raises [OverflowError] when [n] does
    not fit in four unsigned bytes. *)
Definition to_bytes4 (n : Z) : option bytes :=
  if (0 <=? n) && (n <? 2 ^ 32) then
    Some [byte_of_Z (n / 2 ^ 24); byte_of_Z (n / 2 ^ 16);
          byte_of_Z (n / 2 ^ 8); byte_of_Z n]
  else None.

(** [int.from_bytes(b, byteorder='big')] *)
Definition from_bytes (b : bytes) : Z :=
  fold_left (fun acc x => acc * 256 + Z_of_byte x) b 0.

(** [range(n)] *)
Definition py_range (n : Z) : list Z := map Z.of_nat (seq 0 (Z.to_nat n)).

(** Text is modelled over the code points below 256.  The whitespace of
    [str.strip] and [str.split] there: TAB, LF, VT, FF, CR, FS, GS, RS,
    US, space, NEL (0x85) and NBSP (0xA0). *)
Definition is_space (c : ascii) : bool :=
  let n := N_of_ascii c in
  ((9 <=? n) && (n <=? 13) || (28 <=? n) && (n <=? 32)
   || (n =? 133) || (n =? 160))%N.

Definition is_digit (c : ascii) : bool :=
  let n := N_of_ascii c in ((48 <=? n) && (n <=? 57))%N.

Definition digit_val (c : ascii) : Z := Z.of_N (N_of_ascii c) - 48.

Fixpoint lstrip (s : string) : string :=
  match s with
  | String c s' => if is_space c then lstrip s' else s
  | EmptyString => EmptyString
  end.

Definition rev_string (s : string) : string :=
  string_of_list_ascii (rev (list_ascii_of_string s)).

(** [s.strip()] *)
Definition py_strip (s : string) : string :=
  rev_string (lstrip (rev_string (lstrip s))).

Definition flush (cur : list ascii) (rest : list string) : list string :=
  match cur with
  | [] => rest
  | _ :: _ => string_of_list_ascii (rev cur) :: rest
  end.

Fixpoint split_go (cur : list ascii) (s : string) : list string :=
  match s with
  | EmptyString => flush cur []
  | String c s' =>
      if is_space c then flush cur (split_go [] s')
      else split_go (c :: cur) s'
  end.

(** [s.split()]: the maximal runs of non-whitespace characters. *)
Definition py_split (s : string) : list string := split_go [] s.

Fixpoint digits_go (acc : Z) (after_digit : bool) (l : list ascii) : option Z :=
  match l with
  | [] => if after_digit then Some acc else None
  | c :: l' =>
      if is_digit c then digits_go (acc * 10 + digit_val c) true l'
      else if Ascii.eqb c "_" then
        (if after_digit then digits_go acc false l' else None)
      else None
  end.

(** [int(s)] for a decimal string: surrounding whitespace, an optional
    sign, digits with single underscores between them.  [None] stands
    for [ValueError]. *)
Definition py_int (s : string) : option Z :=
  match list_ascii_of_string (py_strip s) with
  | "-"%char :: l => Z.opp <$> digits_go 0 false l
  | "+"%char :: l => digits_go 0 false l
  | l => digits_go 0 false l
  end.

(** [os.path.join(a, b)] on POSIX for a directory [a] that does not end
    with a slash. *)
Definition os_path_join (a b : string) : string :=
  match b with
  | String "/" _ => b
  | _ => (a ++ "/" ++ b)%string
  end.

(** ** Chunk codec *)

Definition CHUNK_SIZE : Z := 1024 * 1024.

(** [get_file_info], line 38:
    [num_chunks = (file_size + CHUNK_SIZE - 1) // CHUNK_SIZE] *)
Definition get_file_info_num_chunks (file_size : Z) : Z :=
  (file_size + CHUNK_SIZE - 1) / CHUNK_SIZE.

(** [handle_peer_connection], line 121. *)
Definition server_num_chunks (file_size : Z) : Z :=
  (file_size + CHUNK_SIZE - 1) / CHUNK_SIZE.

(** [main], download mode, line 385. *)
Definition main_num_chunks (file_size : Z) : Z :=
  (file_size + CHUNK_SIZE - 1) / CHUNK_SIZE.

(** The byte range of a chunk, as the server reads it: [f.seek(offset)]
    with [offset = chunk_id * CHUNK_SIZE], then [f.read(CHUNK_SIZE)],
    which stops at the end of the file. *)
Definition chunk_lo (chunk_id : Z) : Z := chunk_id * CHUNK_SIZE.
Definition chunk_hi (chunk_id file_size : Z) : Z :=
  Z.min ((chunk_id + 1) * CHUNK_SIZE) file_size.

(** ** Chunk server *)

(** What a connection handler does to the outside world, in order.
    Log lines ([print]) are not recorded. *)
Inductive event :=
| Sendall (data : bytes)                         (* conn.sendall(data) *)
| DiskRead (path : string) (offset : Z) (data : bytes)
                                       (* f.seek(offset); f.read(CHUNK_SIZE) *)
| Close.                                         (* conn.close() *)

(** The body of a [try] block: it runs to its end, leaves through
    [return], or raises. *)
Inductive outcome (A : Type) :=
| Next (a : A)
| Return
| Raise.
Arguments Next {A} a.
Arguments Return {A}.
Arguments Raise {A}.

Definition Handler (A : Type) : Type := list event -> outcome A * list event.

Definition h_ret {A} (a : A) : Handler A := fun tr => (Next a, tr).

Definition h_bind {A B} (m : Handler A) (f : A -> Handler B) : Handler B :=
  fun tr =>
    match m tr with
    | (Next a, tr') => f a tr'
    | (Return, tr') => (Return, tr')
    | (Raise, tr') => (Raise, tr')
    end.

Definition emit (e : event) : Handler unit := fun tr => (Next tt, tr ++ [e]).
Definition py_return {A} : Handler A := fun tr => (Return, tr).
Definition py_raise {A} : Handler A := fun tr => (Raise, tr).

(** A library call that may raise. *)
Definition or_raise {A} (o : option A) : Handler A :=
  match o with
  | Some a => h_ret a
  | None => py_raise
  end.

#[global] Instance handler_ret : MRet Handler := @h_ret.
#[global] Instance handler_bind : MBind Handler :=
  fun A B f m => h_bind m f.

(** The file system: the content of every regular file, by path. *)
Abbreviation filesystem := (gmap string (list byte)).

(** [os.path.getsize(path)]; raises [OSError] when the file is missing. *)
Definition os_path_getsize (fs : filesystem) (path : string) : option Z :=
  len <$> fs !! path.

(** What [f.seek(offset); f.read(CHUNK_SIZE)] returns for a file of the
    given content and an offset that is not negative. *)
Definition read_at (content : bytes) (offset : Z) : bytes :=
  take (Z.to_nat CHUNK_SIZE) (drop (Z.to_nat offset) content).

(** [with open(path, "rb") as f: f.seek(offset); chunk_data = f.read(CHUNK_SIZE)].
    [open] raises when the file is missing, [seek] raises on a negative
    offset, [read] returns at most [CHUNK_SIZE] bytes and fewer at the
    end of the file. *)
Definition read_chunk (fs : filesystem) (path : string) (offset : Z)
  : Handler bytes :=
  content ← or_raise (fs !! path);
  if offset <? 0 then py_raise
  else
    let chunk_data := read_at content offset in
    emit (DiskRead path offset chunk_data);;
    mret chunk_data.

Definition ERROR_File_not_found : bytes := b_lit "ERROR: File not found".
Definition ERROR_Chunk_out_of_range : bytes := b_lit "ERROR: Chunk out of range".
Definition ERROR_Server_error : bytes := b_lit "ERROR: Server error".

(** The [try] block of [handle_peer_connection], lines 104-140.  [data]
    is the text [conn.recv(1024).decode()] returned. *)
Definition handle_peer_connection_try (data : string)
    (hosted_files : gmap string string) (fs : filesystem) : Handler unit :=
  let req := py_split (py_strip data) in
  match req with
  | [command; file_hash; chunk_str] =>
      if negb (String.eqb command "GET_CHUNK") then py_return
      else
        chunk_id ← or_raise (py_int chunk_str);
        match hosted_files !! file_hash with
        | None => emit (Sendall ERROR_File_not_found);; py_return
        | Some file_path =>
            file_size ← or_raise (os_path_getsize fs file_path);
            let num_chunks := server_num_chunks file_size in
            if chunk_id >=? num_chunks then
              emit (Sendall ERROR_Chunk_out_of_range);; py_return
            else
              let offset := chunk_id * CHUNK_SIZE in
              chunk_data ← read_chunk fs file_path offset;
              chunk_size_bytes ← or_raise (to_bytes4 (len chunk_data));
              emit (Sendall chunk_size_bytes);;
              emit (Sendall chunk_data)
        end
  | _ => py_return   (* len(req) != 3 *)
  end.

(** [handle_peer_connection]: the [try] block, the [except Exception]
    clause and the [finally] clause.  The result is the trace of the
    handler's effects. *)
Definition handle_peer_connection (data : string)
    (hosted_files : gmap string string) (fs : filesystem) : list event :=
  let '(o, tr) := handle_peer_connection_try data hosted_files fs [] in
  let tr' :=
    match o with
    | Raise => tr ++ [Sendall ERROR_Server_error]
    | _ => tr
    end in
  tr' ++ [Close].

(** The byte stream the peer at the other end receives. *)
Fixpoint sent (tr : list event) : bytes :=
  match tr with
  | [] => []
  | Sendall d :: tr' => d ++ sent tr'
  | _ :: tr' => sent tr'
  end.

(** The disk reads of a trace. *)
Fixpoint disk_reads (tr : list event) : list (string * Z * bytes) :=
  match tr with
  | [] => []
  | DiskRead p o d :: tr' => (p, o, d) :: disk_reads tr'
  | _ :: tr' => disk_reads tr'
  end.

(** ** Chunk downloader *)

(** The downloader's end of an established connection: the bytes the
    server wrote and that are still to be read, followed by end of
    stream, and how the transport cuts them up: the k-th [recv] returns
    at most [1 + frag_k] bytes (once [frag] is used up, as many as asked
    for). *)
Record conn := Conn { pending : bytes; frag : list nat }.

(** [s.recv(bufsize)]: at least one byte while some are pending, never
    more than [bufsize]; no byte at the end of the stream. *)
Definition recv (bufsize : Z) (c : conn) : bytes * conn :=
  let k :=
    match frag c with
    | [] => Z.to_nat bufsize
    | k :: _ => Nat.min (S k) (Z.to_nat bufsize)
    end in
  (take k (pending c), Conn (drop k (pending c)) (tail (frag c))).

(** The [while remaining > 0] loop of [download_chunk], lines 208-213.
    [None] when [fuel] iterations were not enough. *)
Fixpoint recv_loop (fuel : nat) (remaining : Z) (data : bytes) (c : conn)
  : option bytes :=
  match fuel with
  | O => None
  | S fuel' =>
      if remaining >? 0 then
        let '(chunk, c') := recv (Z.min remaining 65536) c in
        match chunk with
        | [] => Some data                       (* if not chunk: break *)
        | _ :: _ => recv_loop fuel' (remaining - len chunk) (data ++ chunk) c'
        end
      else Some data
  end.

(** [download_chunk] from the first [recv] on, lines 198-221.  The outer
    [option] is [None] only when the loop ran out of fuel (it never
    does, see [download_recv_total]); the inner one is Python's
    [None]-or-bytes. *)
Definition download_recv (c : conn) : option (option bytes) :=
  let '(size_bytes, c1) := recv 4 c in
  if len size_bytes <? 4 then Some None
  else
    let chunk_size := from_bytes size_bytes in
    match recv_loop (S (length (pending c1))) chunk_size [] c1 with
    | None => None
    | Some data =>
        if negb (len data =? chunk_size) then Some None else Some (Some data)
    end.

(** What happens to one connection attempt: [connect], [sendall] or a
    [recv] raises (refused, reset, timeout), which [download_chunk]
    turns into [None]; or the server's reply arrives and the stream
    ends. *)
Inductive exchange_result :=
| Failed
| Replied (c : conn).

(** [f"GET_CHUNK {file_hash} {chunk_id}".encode()] *)
Definition request_line (file_hash : string) (chunk_id : Z) : string :=
  ("GET_CHUNK " ++ file_hash ++ " " ++ pretty chunk_id)%string.

Record peer_info := PeerInfo { pi_ip : string; pi_port : Z }.

Record peer := Peer { ip : string; port : Z; chunks : list Z }.

(** Python truthiness of a [None]-or-bytes value: [None] and the empty
    bytes are false. *)
Definition truthy (data : option bytes) : bool :=
  match data with
  | Some (_ :: _) => true
  | _ => false
  end.

(** ** Load balancing *)

(** [chunk_availability[chunk_id].append(peer_info)] on a
    [defaultdict(list)]: a missing key starts from the empty list. *)
Definition defaultdict_append (chunk_availability : gmap Z (list peer_info))
    (chunk_id : Z) (p : peer_info) : gmap Z (list peer_info) :=
  <[chunk_id := default [] (chunk_availability !! chunk_id) ++ [p]]>
    chunk_availability.

(** [chunk_availability.get(chunk_id, [])] *)
Definition get_peers (chunk_availability : gmap Z (list peer_info))
    (chunk_id : Z) : list peer_info :=
  default [] (chunk_availability !! chunk_id).

(** [build_chunk_availability_map], lines 241-257. *)
Definition build_chunk_availability_map (peers : list peer) (num_chunks : Z)
  : gmap Z (list peer_info) :=
  fold_left
    (fun chunk_availability p =>
       let peer_info := PeerInfo (ip p) (port p) in
       fold_left
         (fun chunk_availability chunk_id =>
            if chunk_id <? num_chunks then
              defaultdict_append chunk_availability chunk_id peer_info
            else chunk_availability)
         (chunks p) chunk_availability)
    peers ∅.

(** The random number generator: an endless supply of draws. *)
Definition rng := nat -> nat.

(** [random.choice(seq)] on a non-empty sequence (its first element is
    passed as [d]): some element of [seq], and the generator moves on. *)
Definition random_choice {A} (d : A) (seq : list A) (g : rng) : A * rng :=
  (nth (g O mod length seq)%nat seq d, fun n => g (S n)).

(** A download task: [(peer_ip, peer_port, chunk_id)]. *)
Definition task : Type := string * Z * Z.
Definition task_chunk (t : task) : Z := snd t.
Definition task_peer (t : task) : peer_info := PeerInfo (fst (fst t)) (snd (fst t)).

(** The [for chunk_id in range(num_chunks)] loop of
    [create_download_plan], over the chunk ids still to visit. *)
Fixpoint plan_loop (chunk_availability : gmap Z (list peer_info))
    (ids : list Z) (g : rng) (download_tasks : list task) : list task * rng :=
  match ids with
  | [] => (download_tasks, g)
  | chunk_id :: ids' =>
      let available_peers := get_peers chunk_availability chunk_id in
      match available_peers with
      | [] => plan_loop chunk_availability ids' g download_tasks (* continue *)
      | p0 :: _ =>
          let '(selected_peer, g') := random_choice p0 available_peers g in
          plan_loop chunk_availability ids' g'
            (download_tasks
               ++ [(pi_ip selected_peer, pi_port selected_peer, chunk_id)])
      end
  end.

(** [create_download_plan], lines 260-280. *)
Definition create_download_plan (chunk_availability : gmap Z (list peer_info))
    (num_chunks : Z) (g : rng) : list task * rng :=
  plan_loop chunk_availability (py_range num_chunks) g [].

(** ** Hashing a file by streaming reads *)

(** The loop [while True: chunk = f.read(CHUNK_SIZE); if not chunk: break;
    sha1.update(chunk)] over the unread rest of a file.  The state of the
    hasher is the bytes it was fed.  [None] when [fuel] iterations were
    not enough. *)
Fixpoint hash_loop (fuel : nat) (rest fed : bytes) : option bytes :=
  match fuel with
  | O => None
  | S fuel' =>
      match take (Z.to_nat CHUNK_SIZE) rest with
      | [] => Some fed
      | chunk => hash_loop fuel' (drop (Z.to_nat CHUNK_SIZE) rest) (fed ++ chunk)
      end
  end.

(** ** The tracker's registry ([server.py]) *)

Record file_entry := FileEntry {
  file_name : string;
  file_size : Z;
  peers : list peer
}.

(** The JSON body of [POST /register]; a field is [None] when the key
    is absent. *)
Record register_data := RegisterData {
  d_file_name : option string;
  d_file_hash : option string;
  d_file_size : option Z;
  d_chunks : option (list Z);
  d_ip : option string;
  d_port : option Z
}.

Inductive response :=
| Error400 (error : string)
| Ok200 (message : string) (file_hash : string) (peers_count : Z).

Definition same_peer (ip0 : string) (port0 : Z) (p : peer) : bool :=
  String.eqb (ip p) ip0 && (port p =? port0).

(** [existing_peer["chunks"] = peer_info["chunks"]] where [existing_peer]
    is the first entry of the list with the given ip and port: the entry
    is updated where it stands. *)
Fixpoint set_existing_chunks (ip0 : string) (port0 : Z) (cs : list Z)
    (ps : list peer) : list peer :=
  match ps with
  | [] => []
  | p :: ps' =>
      if same_peer ip0 port0 p then Peer (ip p) (port p) cs :: ps'
      else p :: set_existing_chunks ip0 port0 cs ps'
  end.

(** [register], lines 29-74, on the registry [files].  The required
    fields are checked in the order of the list [required]. *)
Definition register (data : register_data) (files : gmap string file_entry)
  : response * gmap string file_entry :=
  match d_file_name data with
  | None => (Error400 "Missing field: file_name", files)
  | Some name =>
  match d_file_hash data with
  | None => (Error400 "Missing field: file_hash", files)
  | Some file_hash =>
  match d_file_size data with
  | None => (Error400 "Missing field: file_size", files)
  | Some size =>
  match d_chunks data with
  | None => (Error400 "Missing field: chunks", files)
  | Some cs =>
  match d_ip data with
  | None => (Error400 "Missing field: ip", files)
  | Some ip0 =>
  match d_port data with
  | None => (Error400 "Missing field: port", files)
  | Some port0 =>
      (* if file_hash not in files: create the entry *)
      let entry :=
        match files !! file_hash with
        | None => FileEntry name size []
        | Some e => e
        end in
      let peer_info := Peer ip0 port0 cs in
      let existing_peer := find (same_peer ip0 port0) (peers entry) in
      let '(message, peers') :=
        match existing_peer with
        | Some _ =>
            ("Peer updated successfully"%string,
             set_existing_chunks ip0 port0 cs (peers entry))
        | None =>
            ("Peer registered successfully"%string,
             peers entry ++ [peer_info])
        end in
      (Ok200 message file_hash (len peers'),
       <[file_hash := FileEntry (file_name entry) (file_size entry) peers']>
         files)
  end end end end end end.

(** ** Download orchestration ([main], download mode) *)

Inductive report :=
| NoPeersFound                               (* line 378 *)
| NoFileHash                                 (* line 382 *)
| DownloadIncomplete (missing : list Z)      (* line 433 *)
| HashMismatch (expected got : string)       (* lines 460-462 *)
| DownloadComplete (output_file : string).   (* lines 464-466 *)

(** The tracker's answer after the defaults of [meta.get]. *)
Record meta := Meta {
  m_peers : list peer;
  m_file_size : Z;
  m_file_hash : string
}.

Section Download.

(** The network: a state, and what one connection attempt to a peer with
    a given request line yields. *)
Context {Net : Type}.
Variable exchange : Net -> string -> Z -> bytes -> exchange_result * Net.

(** [hashlib.sha1(data).hexdigest()] *)
Variable sha1_hex : bytes -> string.

(** [get_file_info], lines 24-40: [(file_hash, file_size, num_chunks)].
    [None] stands for the [OSError] of a missing file (the hashing loop
    never runs out of fuel, see [get_file_info_spec]). *)
Definition get_file_info (fs : filesystem) (file_path : string)
  : option (string * Z * Z) :=
  match fs !! file_path with
  | None => None
  | Some content =>
      let file_size := len content in
      match hash_loop (S (length content)) content [] with
      | None => None
      | Some fed =>
          let file_hash := sha1_hex fed in
          let num_chunks := get_file_info_num_chunks file_size in
          Some (file_hash, file_size, num_chunks)
      end
  end.

(** [download_chunk], lines 186-228. *)
Definition download_chunk (net : Net) (ip0 : string) (port0 : Z)
    (file_hash : string) (chunk_id : Z) : option bytes * Net :=
  let req := b_lit (request_line file_hash chunk_id) in
  match exchange net ip0 port0 req with
  | (Failed, net') => (None, net')
  | (Replied c, net') =>
      (match download_recv c with
       | Some r => r
       | None => None
       end, net')
  end.

(** [download_chunk_wrapper], lines 231-234. *)
Definition download_chunk_wrapper (net : Net) (peer_ip : string) (peer_port : Z)
    (file_hash : string) (chunk_id : Z) : (Z * option bytes) * Net :=
  let '(data, net') := download_chunk net peer_ip peer_port file_hash chunk_id in
  ((chunk_id, data), net').

Record dl_state := DlState {
  output_chunks : list (option bytes);
  successful_downloads : Z;
  failed_chunks : list Z;
  net_state : Net
}.

(** [output_chunks[chunk_id] is None]; chunk ids of tasks come from
    [range(num_chunks)] and index the list directly. *)
Definition slot_is_None (output : list (option bytes)) (chunk_id : Z) : bool :=
  match output !! Z.to_nat chunk_id with
  | Some None => true
  | _ => false
  end.

(** One turn of the [for future in as_completed(...)] loop, lines
    408-415.  The pool runs the tasks side by side; here each task's
    exchange with the network is taken at the moment its result is
    drained, so the order of the list is the order of completion. *)
Definition primary_step (file_hash : string) (st : dl_state) (t : task)
  : dl_state :=
  let '(ip0, port0, cid) := t in
  let '((chunk_id, data), net') :=
    download_chunk_wrapper (net_state st) ip0 port0 file_hash cid in
  if truthy data && slot_is_None (output_chunks st) chunk_id then
    DlState (<[Z.to_nat chunk_id := data]> (output_chunks st))
            (successful_downloads st + 1) (failed_chunks st) net'
  else
    DlState (output_chunks st) (successful_downloads st)
            (failed_chunks st ++ [chunk_id]) net'.

(** The primary pass over the tasks in their order of completion. *)
Definition primary_pass (file_hash : string) (completed : list task)
    (st : dl_state) : dl_state :=
  fold_left (primary_step file_hash) completed st.

(** The inner [for peer in available_peers] loop of the retry, lines
    422-428: the data of the first peer that yields some, if any. *)
Fixpoint retry_peers (net : Net) (available_peers : list peer_info)
    (file_hash : string) (chunk_id : Z) : option bytes * Net :=
  match available_peers with
  | [] => (None, net)
  | p :: rest =>
      let '(data, net') :=
        download_chunk net (pi_ip p) (pi_port p) file_hash chunk_id in
      if truthy data then (data, net')                       (* break *)
      else retry_peers net' rest file_hash chunk_id
  end.

(** One turn of the [for chunk_id in failed_chunks] loop, lines 420-428. *)
Definition retry_step (chunk_availability : gmap Z (list peer_info))
    (file_hash : string) (st : dl_state) (chunk_id : Z) : dl_state :=
  let available_peers := get_peers chunk_availability chunk_id in
  match retry_peers (net_state st) available_peers file_hash chunk_id with
  | (Some data, net') =>
      DlState (<[Z.to_nat chunk_id := Some data]> (output_chunks st))
              (successful_downloads st + 1) (failed_chunks st) net'
  | (None, net') =>
      DlState (output_chunks st) (successful_downloads st)
              (failed_chunks st) net'
  end.

(** The retry pass, lines 417-428. *)
Definition retry_pass (chunk_availability : gmap Z (list peer_info))
    (file_hash : string) (st : dl_state) : dl_state :=
  fold_left (retry_step chunk_availability file_hash) (failed_chunks st) st.

(** [[i for i, c in enumerate(output_chunks) if c is None]] *)
Definition missing_chunks (output : list (option bytes)) : list Z :=
  omap (fun '(i, c) => match c with None => Some (Z.of_nat i) | Some _ => None end)
       (imap pair output).

Definition is_None {A} (c : option A) : bool :=
  match c with
  | None => true
  | Some _ => false
  end.

Definition download_dir : string := "downloads/p2p_share".

(** Lines 430-466: the check for missing chunks, the write of the output
    file, the recomputation of its hash and the comparison.  [None] only
    if the hashing loop ran out of fuel (it never does, see
    [assemble_and_verify_total]).  The output path is taken to name a
    file of the download directory, which [open] creates or truncates;
    it does for a hash that is a hex digest. *)
Definition assemble_and_verify (file_hash : string)
    (output : list (option bytes)) (fs : filesystem)
  : option (report * filesystem) :=
  if existsb is_None output then                (* None in output_chunks *)
    Some (DownloadIncomplete (missing_chunks output), fs)
  else
    let output_file := os_path_join download_dir file_hash in
    (* with open(output_file, "wb") as f: for c in output_chunks: f.write(c) *)
    let fs1 := <[output_file := concat (omap id output)]> fs in
    (* with open(output_file, "rb") as f: ... *)
    let written := default [] (fs1 !! output_file) in
    match hash_loop (S (length written)) written [] with
    | None => None
    | Some fed =>
        let downloaded_hash := sha1_hex fed in
        if negb (String.eqb downloaded_hash file_hash) then
          Some (HashMismatch file_hash downloaded_hash,
                delete output_file fs1)                (* os.remove *)
        else Some (DownloadComplete output_file, fs1)
    end.

(** [main] in download mode from the tracker's answer on, lines 373-466.
    [as_completed] is the order in which the pool delivers the results
    of the planned tasks. *)
Definition main_download (m : meta) (g : rng)
    (as_completed : list task -> list task) (net : Net) (fs : filesystem)
  : option (report * filesystem * Net) :=
  let peers := m_peers m in
  let file_size := m_file_size m in
  let file_hash := m_file_hash m in
  match peers with
  | [] => Some (NoPeersFound, fs, net)
  | _ :: _ =>
      match file_hash with
      | EmptyString => Some (NoFileHash, fs, net)     (* if not file_hash *)
      | String _ _ =>
        let num_chunks := main_num_chunks file_size in
        let output := replicate (Z.to_nat num_chunks) (None : option bytes) in
        let chunk_availability := build_chunk_availability_map peers num_chunks in
        let '(download_tasks, _) :=
          create_download_plan chunk_availability num_chunks g in
        let st1 :=
          primary_pass file_hash (as_completed download_tasks)
                       (DlState output 0 [] net) in
        let st2 := retry_pass chunk_availability file_hash st1 in
        match assemble_and_verify file_hash (output_chunks st2) fs with
        | None => None
        | Some (r, fs') => Some (r, fs', net_state st2)
        end
      end
  end.

End Download.

(** ** Notions used to state the properties *)

(** The bytes of a file at the offsets of [lo, hi). *)
Definition file_range (content : bytes) (lo hi : Z) : bytes :=
  take (Z.to_nat (hi - lo)) (drop (Z.to_nat lo) content).

(** The tasks of a plan that fetch a given chunk. *)
Definition tasks_for (chunk_id : Z) (plan : list task) : list task :=
  List.filter (fun t => task_chunk t =? chunk_id) plan.

Definition has_peers (chunk_availability : gmap Z (list peer_info))
    (chunk_id : Z) : bool :=
  match get_peers chunk_availability chunk_id with
  | [] => false
  | _ :: _ => true
  end.

(** The peers that advertise a chunk id, in the order of the peer list,
    each once per occurrence of the id in its advertisement. *)
Definition advertisers (peers : list peer) (chunk_id : Z) : list peer_info :=
  flat_map
    (fun p =>
       map (fun _ => PeerInfo (ip p) (port p))
           (List.filter (Z.eqb chunk_id) (chunks p)))
    peers.

(** The error replies of the chunk server. *)
Definition error_replies : list bytes :=
  [ERROR_File_not_found; ERROR_Chunk_out_of_range; ERROR_Server_error].

Definition peer_info_eqb (p q : peer_info) : bool :=
  String.eqb (pi_ip p) (pi_ip q) && (pi_port p =? pi_port q).

(** In the words of the spec's retry pass: the remaining candidates of a
    chunk, those other than the peer already tried in the primary pass. *)
Definition remaining_candidates (chunk_availability : gmap Z (list peer_info))
    (chunk_id : Z) (tried : peer_info) : list peer_info :=
  List.filter (fun p => negb (peer_info_eqb p tried))
              (get_peers chunk_availability chunk_id).

(** [attempts_fail exchange h c net l net']: downloading chunk [c] of
    [h] from the peers of [l], one after the other and in their order,
    starting with the network in state [net], yields no data from any of
    them and leaves the network in state [net']. *)
Inductive attempts_fail {Net : Type}
    (exchange : Net -> string -> Z -> bytes -> exchange_result * Net)
    (file_hash : string) (chunk_id : Z)
  : Net -> list peer_info -> Net -> Prop :=
| attempts_fail_nil net : attempts_fail exchange file_hash chunk_id net [] net
| attempts_fail_cons net p l data net1 net2 :
    download_chunk exchange net (pi_ip p) (pi_port p) file_hash chunk_id
      = (data, net1) ->
    truthy data = false ->
    attempts_fail exchange file_hash chunk_id net1 l net2 ->
    attempts_fail exchange file_hash chunk_id net (p :: l) net2.

(** What holds between two turns of the primary pass, [rest] being the
    tasks whose results are still to come and [N] the chunk count. *)
Definition primary_inv {Net : Type} (N : Z) (st : @dl_state Net)
    (rest : list task) : Prop :=
  List.NoDup (map task_chunk rest) /\
  List.NoDup (failed_chunks st) /\
  (forall t, In t rest ->
     0 <= task_chunk t < N /\ ~ In (task_chunk t) (failed_chunks st) /\
     output_chunks st !! Z.to_nat (task_chunk t) = Some None) /\
  (forall c, In c (failed_chunks st) ->
     0 <= c /\ output_chunks st !! Z.to_nat c = Some None).

(** ** A small scenario: one five-byte file hosted under the hash [abc] *)

Definition demo_content : bytes := b_lit "hello".
Definition demo_hosted : gmap string string := {[ "abc"%string := "/srv/f"%string ]}.
Definition demo_fs : filesystem := {[ "/srv/f"%string := demo_content ]}.

(** A network for the scenario: the state counts the connection
    attempts; the first one is refused, every later one reaches a chunk
    server that hosts the five-byte file and answers as
    [handle_peer_connection] does. *)
Definition demo_exchange (attempts : nat) (ip0 : string) (port0 : Z)
    (req : bytes) : exchange_result * nat :=
  (match attempts with
   | O => Failed
   | S _ =>
       Replied
         (Conn (sent (handle_peer_connection
                        (string_of_list_byte (take 1024 req))
                        demo_hosted demo_fs)) [])
   end, S attempts).

(** The only peer of the scenario, and what it advertises. *)
Definition demo_peer : peer := Peer "10.0.0.1" 6000 [0].
Definition demo_peer_info : peer_info := PeerInfo "10.0.0.1" 6000.

Definition demo_availability1 : gmap Z (list peer_info) :=
  build_chunk_availability_map [demo_peer] 1.

(** The plan of the scenario: chunk 0 from the only peer. *)
Definition demo_plan : list task :=
  fst (create_download_plan demo_availability1 1 (fun _ => O)).

(** The state after the primary pass of the scenario. *)
Definition demo_after_primary : @dl_state nat :=
  primary_pass demo_exchange "abc" demo_plan
    (DlState (replicate (Z.to_nat 1) None) 0 [] O).

(** A stand-in for SHA-1 in the scenario: the decimal length of the data. *)
Definition demo_digest (data : bytes) : string := pretty (len data).

(** The spec's scenario: a four-chunk file, peer A advertises chunks
    0 and 1, peer B advertises chunks 1, 2 and 3. *)
Definition peer_A : peer := Peer "10.0.0.1" 6000 [0; 1].
Definition peer_B : peer := Peer "10.0.0.2" 6000 [1; 2; 3].
Definition demo_availability : gmap Z (list peer_info) :=
  build_chunk_availability_map [peer_A; peer_B] 4.

(** A registry for the two-peer scenario, and peer B's registration of
    all four chunks. *)
Definition demo_registry : gmap string file_entry :=
  {[ "abc"%string := FileEntry "f.bin" 3670016 [peer_A; peer_B] ]}.
Definition demo_register_data : register_data :=
  RegisterData (Some "f.bin"%string) (Some "abc"%string) (Some 3670016)
               (Some [0; 1; 2; 3]) (Some "10.0.0.2"%string) (Some 6000).

(** ** Notions for the wire protocol *)

(** A word: text without whitespace, as a hex digest is. *)
Definition no_space (s : string) : bool :=
  forallb (fun c => negb (is_space c)) (list_ascii_of_string s).

(** ASCII text: [encode] gives one byte per character, and [decode]
    gives the characters back. *)
Definition is_ascii (s : string) : bool :=
  forallb (fun c => (N_of_ascii c <? 128)%N) (list_ascii_of_string s).



(** The characters [str] writes for a decimal digit. *)
Definition is_digit_char (c : ascii) : Prop :=
  exists r, (r < 10)%N /\ c = pretty_N_char r.

(** [int] on the characters of a stripped string. *)
Definition py_int_list (l : list ascii) : option Z :=
  match l with
  | "-"%char :: l => Z.opp <$> digits_go 0 false l
  | "+"%char :: l => digits_go 0 false l
  | l => digits_go 0 false l
  end.



(** What a chunk server with the given table and files writes back when
    the bytes of a request reach it in one piece: [conn.recv(1024)],
    [decode], and the handler.  [decode] is taken on ASCII bytes, where
    it gives one character per byte; the requests of the properties
    below are ASCII. *)
Definition chunk_server_reply (hosted_files : gmap string string)
    (fs : filesystem) (req : bytes) : bytes :=
  sent (handle_peer_connection (string_of_list_byte (take 1024 req))
          hosted_files fs).

(** Every listed peer runs a chunk server that hosts the file with the
    given content under the given hash: whatever the state of the
    network, a request for a chunk id within [0, chunkCount) sent to a
    listed peer reaches the server whole and is answered as
    [handle_peer_connection] answers, the first four bytes of the reply
    arriving together. *)
Definition peers_serve {Net : Type}
    (exchange : Net -> string -> Z -> bytes -> exchange_result * Net)
    (peers : list peer) (file_hash : string) (content : bytes) : Prop :=
  forall net p chunk_id,
    In p peers -> 0 <= chunk_id < server_num_chunks (len content) ->
    exists hosted_files fs file_path fr net',
      hosted_files !! file_hash = Some file_path /\
      fs !! file_path = Some content /\
      (3 <= hd 3%nat fr)%nat /\
      exchange net (ip p) (port p) (b_lit (request_line file_hash chunk_id))
      = (Replied (Conn (chunk_server_reply hosted_files fs
                          (b_lit (request_line file_hash chunk_id))) fr), net').

(** A task whose download yields the data [chunk_of] gives for its
    chunk, whatever the state of the network. *)
Definition task_succeeds {Net : Type}
    (exchange : Net -> string -> Z -> bytes -> exchange_result * Net)
    (file_hash : string) (chunk_of : Z -> bytes) (t : task) : Prop :=
  0 <= task_chunk t /\ chunk_of (task_chunk t) <> [] /\
  forall net, exists net',
    download_chunk exchange net (fst (fst t)) (snd (fst t)) file_hash
                   (task_chunk t)
    = (Some (chunk_of (task_chunk t)), net').

(** ** Notions for the tracker *)

(** The first field of [required] that the body of a request lacks. *)
Definition first_missing (data : register_data) : option string :=
  match d_file_name data, d_file_hash data, d_file_size data,
        d_chunks data, d_ip data, d_port data with
  | None, _, _, _, _, _ => Some "file_name"%string
  | _, None, _, _, _, _ => Some "file_hash"%string
  | _, _, None, _, _, _ => Some "file_size"%string
  | _, _, _, None, _, _ => Some "chunks"%string
  | _, _, _, _, None, _ => Some "ip"%string
  | _, _, _, _, _, None => Some "port"%string
  | _, _, _, _, _, _ => None
  end.

(** The address of a peer entry. *)
Definition peer_addr (p : peer) : string * Z := (ip p, port p).

(** No file of the registry lists two entries with the same address. *)
Definition unique_peers (files : gmap string file_entry) : Prop :=
  forall h e, files !! h = Some e -> List.NoDup (map peer_addr (peers e)).

(** The registry after a sequence of registration requests. *)
Definition register_all (requests : list register_data)
    (files : gmap string file_entry) : gmap string file_entry :=
  fold_left (fun files data => snd (register data files)) requests files.

(** ** The tracker's endpoints over the registry in insertion order *)

(** A Python [dict] keeps its keys in the order of their first
    insertion, and [lookup], [get_file] and [list_files] walk the
    registry in that order.  Here the registry is the list of its items
    in that order. *)
Abbreviation registry := (list (string * file_entry)).

(** [files[k]], [None] when [k not in files]. *)
Definition dict_get (files : registry) (k : string) : option file_entry :=
  snd <$> find (fun kv => String.eqb (fst kv) k) files.

(** [files[k] = v]: a key already there keeps its place, a new key goes
    last. *)
Fixpoint dict_set (files : registry) (k : string) (v : file_entry) : registry :=
  match files with
  | [] => [(k, v)]
  | (k', v') :: files' =>
      if String.eqb k' k then (k, v) :: files'
      else (k', v') :: dict_set files' k v
  end.

(** [register], lines 29-74, on the registry in insertion order. *)
Definition register_ordered (data : register_data) (files : registry)
  : response * registry :=
  match d_file_name data with
  | None => (Error400 "Missing field: file_name", files)
  | Some name =>
  match d_file_hash data with
  | None => (Error400 "Missing field: file_hash", files)
  | Some file_hash =>
  match d_file_size data with
  | None => (Error400 "Missing field: file_size", files)
  | Some size =>
  match d_chunks data with
  | None => (Error400 "Missing field: chunks", files)
  | Some cs =>
  match d_ip data with
  | None => (Error400 "Missing field: ip", files)
  | Some ip0 =>
  match d_port data with
  | None => (Error400 "Missing field: port", files)
  | Some port0 =>
      let entry :=
        match dict_get files file_hash with
        | None => FileEntry name size []
        | Some e => e
        end in
      let peer_info := Peer ip0 port0 cs in
      let existing_peer := find (same_peer ip0 port0) (peers entry) in
      let '(message, peers') :=
        match existing_peer with
        | Some _ =>
            ("Peer updated successfully"%string,
             set_existing_chunks ip0 port0 cs (peers entry))
        | None =>
            ("Peer registered successfully"%string,
             peers entry ++ [peer_info])
        end in
      (Ok200 message file_hash (len peers'),
       dict_set files file_hash
                (FileEntry (file_name entry) (file_size entry) peers'))
  end end end end end end.

Inductive lookup_response :=
| Lookup400                       (* "Missing file_name parameter" *)
| Lookup200 (file_hash file_name : string) (file_size : Z) (peers : list peer)
| Lookup404.                      (* "File not found" *)

(** The loop of [lookup] and [get_file]: the first item, in insertion
    order, whose file name is the one asked for. *)
Definition find_by_name (filename : string) (files : registry)
  : lookup_response :=
  match find (fun kv => String.eqb (file_name (snd kv)) filename) files with
  | Some (file_hash, info) =>
      Lookup200 file_hash (file_name info) (file_size info) (peers info)
  | None => Lookup404
  end.

(** [lookup], lines 80-97; [filename] is [request.args.get("file_name")]. *)
Definition lookup (filename : option string) (files : registry)
  : lookup_response :=
  match filename with
  | None | Some EmptyString => Lookup400              (* if not filename *)
  | Some f => find_by_name f files
  end.

(** [get_file], lines 103-115. *)
Definition get_file (filename : string) (files : registry) : lookup_response :=
  find_by_name filename files.

(** [list_files], lines 121-131: hash, name, size and peer count of
    every file. *)
Definition list_files (files : registry) : list (string * string * Z * Z) :=
  map (fun kv =>
         (fst kv, file_name (snd kv), file_size (snd kv), len (peers (snd kv))))
      files.

(** ** The peer's side of the tracker *)

(** What [requests.post] and [requests.get] come back with: a response,
    whose status code is that of the tracker's answer [r], or a
    [RequestException] (no connection, a timeout). *)
Inductive http_result (A : Type) :=
| Response (r : A)
| RequestException.

Arguments Response {A} r.
Arguments RequestException {A}.

(** The payload of [register_with_tracker], lines 61-68. *)
Definition register_payload (file_name0 file_hash : string) (file_size0 : Z)
    (port0 : Z) (num_chunks : Z) (ip0 : string) : register_data :=
  RegisterData (Some file_name0) (Some file_hash) (Some file_size0)
               (Some (py_range num_chunks)) (Some ip0) (Some port0).

Section TrackerLink.

(** The tracker as the peer sees it: a state, and what a POST to
    [/register] and a GET of [/lookup] yield. *)
Context {Tracker : Type}.
Variable post_register :
  Tracker -> register_data -> http_result response * Tracker.
Variable get_lookup :
  Tracker -> string -> http_result lookup_response * Tracker.

(** [register_with_tracker], lines 60-79: the tracker's answer, or
    [None] for the exception raised on a status other than 200 and on a
    [RequestException]. *)
Definition register_with_tracker (file_name0 file_hash : string)
    (file_size0 port0 num_chunks : Z) (ip0 : string) (tr : Tracker)
  : option response * Tracker :=
  let payload :=
    register_payload file_name0 file_hash file_size0 port0 num_chunks ip0 in
  match post_register tr payload with
  | (Response (Ok200 message h n), tr') => (Some (Ok200 message h n), tr')
  | (Response (Error400 e), tr') => (None, tr')   (* status_code != 200 *)
  | (RequestException, tr') => (None, tr')
  end.

(** [lookup_peers], lines 82-91, followed by the defaults of [meta.get]
    in [main]; [None] stands for the empty dict returned on a status
    other than 200 and on a [RequestException]. *)
Definition lookup_peers (file_name0 : string) (tr : Tracker)
  : option meta * Tracker :=
  match get_lookup tr file_name0 with
  | (Response (Lookup200 file_hash _ file_size0 peers0), tr') =>
      (Some (Meta peers0 file_size0 file_hash), tr')
  | (Response _, tr') => (None, tr')              (* status_code != 200 *)
  | (RequestException, tr') => (None, tr')
  end.

End TrackerLink.

(** A link on which every request reaches the tracker of [server.py] and
    every answer comes back. *)
Definition tracker_post (files : registry) (data : register_data)
  : http_result response * registry :=
  let '(r, files') := register_ordered data files in (Response r, files').

Definition tracker_get (files : registry) (file_name0 : string)
  : http_result lookup_response * registry :=
  (Response (lookup (Some file_name0) files), files).

(** A link to the tracker of [server.py] that may fail: a registration
    that is answered was handled by [register], and its answer is the
    one that came back. *)
Definition link_to_tracker
    (post_register : registry -> register_data
                     -> http_result response * registry) : Prop :=
  forall files data r files',
    post_register files data = (Response r, files') ->
    register_ordered data files = (r, files').

(** ** Share mode ([main], lines 300-350) *)

Fixpoint basename_go (cur : list ascii) (s : string) : string :=
  match s with
  | EmptyString => string_of_list_ascii (rev cur)
  | String c s' =>
      if Ascii.eqb c "/" then basename_go [] s' else basename_go (c :: cur) s'
  end.

(** [os.path.basename(p)] on POSIX: what follows the last slash. *)
Definition os_path_basename (p : string) : string := basename_go [] p.

(** Lines 333-343: the copy under [downloads/p2p_share], made only when
    no file is there yet ([shutil.copy2] raises when the source is
    missing: [None]). *)
Definition save_copy (fs : filesystem) (src file_hash : string)
  : option filesystem :=
  let copy_path := os_path_join download_dir file_hash in
  match fs !! copy_path with
  | Some _ => Some fs                          (* os.path.exists(copy_path) *)
  | None =>
      match fs !! src with
      | Some content => Some (<[copy_path := content]> fs)
      | None => None
      end
  end.

Inductive share_report :=
| ShareFileNotFound                                       (* line 302 *)
| ShareRegistrationFailed                                 (* line 326 *)
| ShareOnline (file_hash : string) (file_size num_chunks : Z)
              (res : response).                           (* line 353 *)

Section Share.

Variable sha1_hex : bytes -> string.
Variable abspath : string -> string.
Context {Tracker : Type}.
Variable post_register :
  Tracker -> register_data -> http_result response * Tracker.

(** What share mode leaves behind when it returns or reaches the point
    where the chunk server is started: the report, the table of hosted
    files, the peer's file system and the state of the tracker.
    [abspath] is [os.path.abspath] for the peer's working directory,
    [local_ip] what [get_local_ip] returned.  [None] stands for an
    exception that share mode does not catch. *)
Definition main_share (share : string) (port0 : Z) (local_ip : string)
    (fs : filesystem) (tr : Tracker)
  : option (share_report * gmap string string * filesystem * Tracker) :=
  let hosted_files : gmap string string := ∅ in
  match fs !! share with
  | None => Some (ShareFileNotFound, hosted_files, fs, tr)
  | Some _ =>
      match get_file_info sha1_hex fs share with
      | None => None
      | Some (file_hash, file_size0, num_chunks) =>
          match register_with_tracker post_register (os_path_basename share)
                  file_hash file_size0 port0 num_chunks local_ip tr with
          | (None, tr') =>                        (* except Exception: return *)
              Some (ShareRegistrationFailed, hosted_files, fs, tr')
          | (Some res, tr') =>
              let hosted_files' := <[file_hash := abspath share]> hosted_files in
              match save_copy fs share file_hash with
              | None => None
              | Some fs' =>
                  Some (ShareOnline file_hash file_size0 num_chunks res,
                        hosted_files', fs', tr')
              end
          end
      end
  end.

End Share.

(** ** Scenarios for the whole system *)

(** A network in which every connection reaches a chunk server with the
    given table and files, and every reply arrives in one piece. *)
Definition serving_exchange (hosted_files : gmap string string)
    (fs : filesystem) (attempts : nat) (ip0 : string) (port0 : Z)
    (req : bytes) : exchange_result * nat :=
  (Replied (Conn (chunk_server_reply hosted_files fs req) []), S attempts).

(** The five-byte file under its stand-in digest, the decimal 5. *)
Definition demo_hosted5 : gmap string string := {[ "5"%string := "/srv/f"%string ]}.
Definition demo_meta : meta := Meta [demo_peer] 5 "5".



(** What share mode leaves behind for [/srv/f] on the scenario's peer
    with an empty tracker. *)
Definition demo_share_fs : filesystem :=
  <[ "downloads/p2p_share/5"%string := demo_content ]> demo_fs.
Definition demo_share_files : registry :=
  [("5"%string, FileEntry "f" 5 [Peer "10.0.0.1" 6000 [0]])].

(** A registry with one file and one peer. *)
Definition demo_files : registry :=
  [("abc"%string, FileEntry "f.bin" 5 [Peer "10.0.0.1" 6000 [0]])].

(** * Properties *)

(** ** Chunk codec *)

Lemma CHUNK_SIZE_val : CHUNK_SIZE = 1048576.
Proof. reflexivity. Qed.

Lemma num_chunks_bounds (S : Z) :
  let n := (S + CHUNK_SIZE - 1) / CHUNK_SIZE in
  (n - 1) * CHUNK_SIZE < S <= n * CHUNK_SIZE.
Proof.
  intros n. subst n. rewrite CHUNK_SIZE_val.
  pose proof (Z.mul_div_le (S + 1048576 - 1) 1048576 ltac:(lia)).
  pose proof (Z.mul_succ_div_gt (S + 1048576 - 1) 1048576 ltac:(lia)).
  lia.
Qed.

(** The arithmetic of the chunk count: for a size [S >= 0] the count [n]
    is the ceiling of [S / CHUNK_SIZE], and the ranges of the chunk ids
    of [0, n) partition [0, S). *)
Lemma num_chunks_ceil_and_partition (S : Z) :
  0 <= S ->
  let n := get_file_info_num_chunks S in
  ((n - 1) * CHUNK_SIZE < S <= n * CHUNK_SIZE) /\
  (forall b, 0 <= b < S ->
     exists id, (0 <= id < n /\ chunk_lo id <= b < chunk_hi id S) /\
       forall id', 0 <= id' < n -> chunk_lo id' <= b < chunk_hi id' S ->
                   id' = id) /\
  (forall id, 0 <= id < n ->
     0 <= chunk_lo id /\ chunk_lo id < chunk_hi id S <= S) /\
  (forall id, 0 <= id -> id + 1 < n -> chunk_hi id S = chunk_lo (id + 1)) /\
  (0 < n -> chunk_lo 0 = 0 /\ chunk_hi (n - 1) S = S).
Proof.
  intros HS n.
  pose proof (num_chunks_bounds S) as Hn. cbv zeta in Hn.
  fold (get_file_info_num_chunks S) in Hn. fold n in Hn.
  unfold chunk_lo, chunk_hi. rewrite CHUNK_SIZE_val in *.
  split; [exact Hn|]. split; [|split; [|split]].
  - intros b Hb. exists (b / 1048576).
    pose proof (Z.mul_div_le b 1048576 ltac:(lia)).
    pose proof (Z.mul_succ_div_gt b 1048576 ltac:(lia)).
    assert (0 <= b / 1048576) by (apply Z.div_pos; lia).
    split; [lia|]. intros id' Hid' Hr. lia.
  - intros id Hid. lia.
  - intros id Hid Hlt. lia.
  - intros Hpos. lia.
Qed.

(** The 3.5 MiB file of the spec's scenario: four chunks. *)
Example chunk_count_of_3_5_MiB : get_file_info_num_chunks 3670016 = 4.
Proof. reflexivity. Qed.

(** ** Four-byte big-endian lengths *)

Lemma Z_of_byte_of_Z (z : Z) : Z_of_byte (byte_of_Z z) = z mod 256.
Proof.
  unfold Z_of_byte, byte_of_Z.
  pose proof (Z.mod_pos_bound z 256 ltac:(lia)) as Hm.
  destruct (Byte.of_N (Z.to_N (z mod 256))) as [b|] eqn:E.
  - apply Byte.to_of_N in E. rewrite E. lia.
  - apply Byte.of_N_None_iff in E. lia.
Qed.

Lemma from_bytes_to_bytes4 (n : Z) (p : bytes) :
  to_bytes4 n = Some p -> length p = 4%nat /\ from_bytes p = n.
Proof.
  unfold to_bytes4. destruct (0 <=? n) eqn:H0; [|discriminate].
  destruct (n <? 2 ^ 32) eqn:H1; [|discriminate].
  simpl. intros [= <-]. split; [reflexivity|].
  apply Z.leb_le in H0. apply Z.ltb_lt in H1.
  unfold from_bytes. simpl. rewrite !Z_of_byte_of_Z.
  change (2 ^ 24) with (256 * (256 * 256)).
  change (2 ^ 16) with (256 * 256).
  change (2 ^ 8) with 256. change (2 ^ 32) with 4294967296 in H1.
  rewrite <- !Z.div_div by lia.
  set (a := n / 256). set (b := a / 256). set (c := b / 256).
  pose proof (Z.div_mod n 256 ltac:(lia)).
  pose proof (Z.div_mod a 256 ltac:(lia)).
  pose proof (Z.div_mod b 256 ltac:(lia)).
  assert (0 <= c < 256).
  { subst c b a. split.
    - repeat apply Z.div_pos; lia.
    - repeat (apply Z.div_lt_upper_bound; [lia|]). lia. }
  rewrite (Z.mod_small c) by lia.
  fold a in H. fold b in H2. fold c in H3. lia.
Qed.

Lemma to_bytes4_is_Some (n : Z) :
  0 <= n < 2 ^ 32 -> exists p, to_bytes4 n = Some p.
Proof.
  intros [H0 H1]. unfold to_bytes4.
  apply Z.leb_le in H0. apply Z.ltb_lt in H1. rewrite H0, H1. simpl. eauto.
Qed.

(** ** Chunk server *)

Lemma len_nonneg {A} (l : list A) : 0 <= len l.
Proof. unfold len. lia. Qed.

Lemma len_app {A} (l1 l2 : list A) : len (l1 ++ l2) = len l1 + len l2.
Proof. unfold len. rewrite length_app. lia. Qed.

Lemma len_read_at (content : bytes) (offset : Z) :
  0 <= offset ->
  len (read_at content offset) = Z.max 0 (Z.min CHUNK_SIZE (len content - offset)).
Proof.
  intros Ho. unfold read_at, len. rewrite length_take, length_drop.
  rewrite CHUNK_SIZE_val. lia.
Qed.

(** The handler, case by case. *)
Lemma handle_peer_connection_cases (data : string)
    (hosted_files : gmap string string) (fs : filesystem) :
  handle_peer_connection data hosted_files fs =
  match py_split (py_strip data) with
  | [command; file_hash; chunk_str] =>
      if String.eqb command "GET_CHUNK" then
        match py_int chunk_str with
        | None => [Sendall ERROR_Server_error; Close]
        | Some chunk_id =>
            match hosted_files !! file_hash with
            | None => [Sendall ERROR_File_not_found; Close]
            | Some file_path =>
                match fs !! file_path with
                | None => [Sendall ERROR_Server_error; Close]
                | Some content =>
                    if chunk_id >=? server_num_chunks (len content) then
                      [Sendall ERROR_Chunk_out_of_range; Close]
                    else if chunk_id <? 0 then
                      [Sendall ERROR_Server_error; Close]
                    else
                      let chunk_data := read_at content (chunk_id * CHUNK_SIZE) in
                      match to_bytes4 (len chunk_data) with
                      | Some prefix =>
                          [DiskRead file_path (chunk_id * CHUNK_SIZE) chunk_data;
                           Sendall prefix; Sendall chunk_data; Close]
                      | None =>
                          [DiskRead file_path (chunk_id * CHUNK_SIZE) chunk_data;
                           Sendall ERROR_Server_error; Close]
                      end
                end
            end
        end
      else [Close]
  | _ => [Close]
  end.
Proof.
  unfold handle_peer_connection, handle_peer_connection_try.
  destruct (py_split (py_strip data)) as [|command [|file_hash [|chunk_str [|]]]];
    try reflexivity.
  destruct (String.eqb command "GET_CHUNK"); [|reflexivity]. simpl.
  unfold mbind, handler_bind, h_bind, or_raise, py_raise, py_return, emit,
    mret, handler_ret, h_ret, os_path_getsize, read_chunk.
  destruct (py_int chunk_str) as [chunk_id|]; [|reflexivity].
  destruct (hosted_files !! file_hash) as [file_path|]; [|reflexivity].
  destruct (fs !! file_path) as [content|] eqn:Hfs; simpl; [|reflexivity].
  destruct (chunk_id >=? server_num_chunks (len content)); [reflexivity|].
  assert ((chunk_id * CHUNK_SIZE <? 0) = (chunk_id <? 0)) as ->.
  { rewrite CHUNK_SIZE_val.
    destruct (Z.ltb_spec (chunk_id * 1048576) 0), (Z.ltb_spec chunk_id 0);
      try reflexivity; lia. }
  destruct (chunk_id <? 0); [reflexivity|].
  unfold mbind, handler_bind, h_bind, emit, mret, handler_ret, h_ret. simpl.
  destruct (to_bytes4 (len (read_at content (chunk_id * CHUNK_SIZE))));
    reflexivity.
Qed.

Lemma sent_app (tr1 tr2 : list event) : sent (tr1 ++ tr2) = sent tr1 ++ sent tr2.
Proof.
  induction tr1 as [|e tr1 IH]; [reflexivity|].
  destruct e; simpl; rewrite IH; [apply app_assoc| |]; reflexivity.
Qed.

Lemma server_num_chunks_nonneg (S : Z) : 0 <= S -> 0 <= server_num_chunks S.
Proof.
  intros HS. unfold server_num_chunks. apply Z.div_pos; rewrite CHUNK_SIZE_val; lia.
Qed.

Lemma read_at_file_range (content : bytes) (id : Z) :
  0 <= id ->
  read_at content (chunk_lo id)
  = file_range content (chunk_lo id) (chunk_hi id (len content)).
Proof.
  intros Hid. unfold read_at, file_range, chunk_hi, chunk_lo.
  destruct (Z.le_gt_cases ((id + 1) * CHUNK_SIZE) (len content)) as [Hle|Hgt].
  - rewrite Z.min_l by lia. f_equal. f_equal. lia.
  - rewrite Z.min_r by lia.
    rewrite !take_ge; [reflexivity| |]; rewrite length_drop; unfold len in *;
      rewrite CHUNK_SIZE_val in *; lia.
Qed.

(** C4. A well-formed request for a hosted file that exists on disk and
    for a chunk id within [0, chunkCount) is answered by a four-byte
    prefix that decodes (big-endian) to [N], followed by exactly the [N]
    bytes of the file at [chunk_id*CHUNK_SIZE, min((chunk_id+1)*CHUNK_SIZE,
    size)); [N] is [CHUNK_SIZE] for every chunk but the last, and between
    1 and [CHUNK_SIZE] for the last. *)
Theorem valid_request_gets_framed_chunk (data : string)
    (hosted_files : gmap string string) (fs : filesystem)
    (file_hash chunk_str file_path : string) (chunk_id : Z) (content : bytes) :
  py_split (py_strip data) = ["GET_CHUNK"%string; file_hash; chunk_str] ->
  py_int chunk_str = Some chunk_id ->
  hosted_files !! file_hash = Some file_path ->
  fs !! file_path = Some content ->
  0 <= chunk_id < server_num_chunks (len content) ->
  let size := len content in
  let payload := file_range content (chunk_lo chunk_id) (chunk_hi chunk_id size) in
  exists prefix,
    sent (handle_peer_connection data hosted_files fs) = prefix ++ payload /\
    length prefix = 4%nat /\
    from_bytes prefix = len payload /\
    len payload = chunk_hi chunk_id size - chunk_lo chunk_id /\
    (chunk_id + 1 < server_num_chunks size -> len payload = CHUNK_SIZE) /\
    0 < len payload <= CHUNK_SIZE.
Proof.
  intros Hreq Hint Hh Hfs Hid size payload. subst size.
  rewrite handle_peer_connection_cases, Hreq. simpl String.eqb. cbv iota.
  rewrite Hint, Hh, Hfs.
  rewrite Z.geb_leb. destruct (Z.leb_spec (server_num_chunks (len content)) chunk_id);
    [lia|].
  destruct (Z.ltb_spec chunk_id 0); [lia|]. cbv zeta.
  fold (chunk_lo chunk_id). rewrite read_at_file_range by lia.
  fold payload.
  pose proof (num_chunks_bounds (len content)) as Hn. cbv zeta in Hn.
  fold (server_num_chunks (len content)) in Hn.
  pose proof (len_nonneg content) as Hc.
  assert (len payload = chunk_hi chunk_id (len content) - chunk_lo chunk_id)
    as Hlen.
  { subst payload. unfold file_range, len at 1.
    rewrite length_take, length_drop.
    unfold chunk_hi, chunk_lo. rewrite CHUNK_SIZE_val in *.
    unfold len in *. lia. }
  assert (0 < len payload <= CHUNK_SIZE) as Hb.
  { rewrite Hlen. unfold chunk_hi, chunk_lo. rewrite CHUNK_SIZE_val in *. lia. }
  destruct (to_bytes4_is_Some (len payload)) as [prefix Hp].
  { rewrite CHUNK_SIZE_val in Hb. lia. }
  rewrite Hp. exists prefix. simpl. rewrite app_nil_r.
  destruct (from_bytes_to_bytes4 _ _ Hp) as [Hl Hf].
  repeat split; try assumption; try lia.
  intros Hnext. rewrite Hlen. unfold chunk_hi, chunk_lo.
  rewrite CHUNK_SIZE_val in *. lia.
Qed.

(** The five-byte file: chunk 0 is the whole file behind its length. *)
Lemma valid_request_gets_framed_chunk_witness :
  exists prefix,
    sent (handle_peer_connection "GET_CHUNK abc 0" demo_hosted demo_fs)
      = prefix ++ file_range demo_content (chunk_lo 0) (chunk_hi 0 (len demo_content)) /\
    length prefix = 4%nat.
Proof.
  destruct (valid_request_gets_framed_chunk "GET_CHUNK abc 0" demo_hosted demo_fs
              "abc" "0" "/srv/f" 0 demo_content
              ltac:(reflexivity) ltac:(reflexivity) ltac:(reflexivity)
              ltac:(reflexivity) ltac:(vm_compute; split; congruence))
    as [prefix (Hs & Hl & _)].
  exists prefix. split; assumption.
Defined.

(** ** Download plan *)

Lemma in_py_range (n c : Z) : In c (py_range n) <-> 0 <= c < n.
Proof.
  unfold py_range. rewrite in_map_iff. split.
  - intros (k & <- & Hk). apply in_seq in Hk. lia.
  - intros Hc. exists (Z.to_nat c). split; [lia|]. apply in_seq. lia.
Qed.

Lemma NoDup_py_range (n : Z) : List.NoDup (py_range n).
Proof.
  unfold py_range. apply Finite.Injective_map_NoDup.
  - intros a b Hab. lia.
  - apply seq_NoDup.
Qed.

Lemma random_choice_In {A} (d : A) (seq : list A) (g : rng) :
  seq <> [] -> In (fst (random_choice d seq g)) seq.
Proof.
  intros Hne. unfold random_choice. simpl. apply nth_In.
  apply Nat.mod_upper_bound. destruct seq; [congruence|]. simpl. lia.
Qed.

(** The loop only appends: one task per visited chunk id that has
    candidates, in the order of the visit, each for a candidate of its
    chunk. *)
Lemma plan_loop_spec (m : gmap Z (list peer_info)) (ids : list Z) (g : rng)
    (acc : list task) :
  exists new,
    fst (plan_loop m ids g acc) = acc ++ new /\
    map task_chunk new = List.filter (has_peers m) ids /\
    Forall (fun t => In (task_peer t) (get_peers m (task_chunk t))) new.
Proof.
  revert g acc. induction ids as [|c ids IH]; intros g acc.
  - exists []. simpl. rewrite app_nil_r. auto.
  - cbn [plan_loop List.filter]. unfold has_peers at 1.
    destruct (get_peers m c) as [|p0 rest] eqn:Hc.
    + apply IH.
    + destruct (random_choice p0 (p0 :: rest) g) as [sel g'] eqn:Hsel.
      destruct (IH g' (acc ++ [(pi_ip sel, pi_port sel, c)])) as (new & H1 & H2 & H3).
      exists ((pi_ip sel, pi_port sel, c) :: new). split; [|split].
      * rewrite H1, <- app_assoc. reflexivity.
      * simpl. f_equal. exact H2.
      * constructor; [|exact H3].
        unfold task_peer, task_chunk. simpl. rewrite Hc.
        pose proof (random_choice_In p0 (p0 :: rest) g ltac:(discriminate)) as Hin.
        rewrite Hsel in Hin. simpl in Hin. destruct sel. exact Hin.
Qed.

Lemma create_download_plan_spec (m : gmap Z (list peer_info)) (n : Z) (g : rng) :
  let plan := fst (create_download_plan m n g) in
  map task_chunk plan = List.filter (has_peers m) (py_range n) /\
  Forall (fun t => In (task_peer t) (get_peers m (task_chunk t))) plan.
Proof.
  unfold create_download_plan.
  destruct (plan_loop_spec m (py_range n) g []) as (new & H1 & H2 & H3).
  simpl in H1. simpl. rewrite H1. auto.
Qed.

Lemma NoDup_filter_list {A} (f : A -> bool) (l : list A) :
  List.NoDup l -> List.NoDup (List.filter f l).
Proof.
  induction 1 as [|x l Hx Hl IH]; simpl; [constructor|].
  destruct (f x); [|exact IH]. constructor; [|exact IH].
  rewrite filter_In. tauto.
Qed.

Lemma tasks_for_absent (c : Z) (plan : list task) :
  ~ In c (map task_chunk plan) -> tasks_for c plan = [].
Proof.
  induction plan as [|t plan IH]; [reflexivity|].
  simpl. intros Hn. destruct (Z.eqb_spec (task_chunk t) c); [tauto|].
  apply IH. tauto.
Qed.

Lemma tasks_for_unique (t : task) (plan : list task) :
  List.NoDup (map task_chunk plan) -> In t plan ->
  tasks_for (task_chunk t) plan = [t].
Proof.
  induction plan as [|u plan IH]; [intros _ []|].
  simpl. intros Hnd Hin. inversion Hnd as [|? ? Hu Hnd']; subst.
  destruct Hin as [->|Hin].
  - rewrite Z.eqb_refl. f_equal. apply tasks_for_absent. exact Hu.
  - destruct (Z.eqb_spec (task_chunk u) (task_chunk t)) as [E|_].
    + exfalso. apply Hu. rewrite E. apply in_map. exact Hin.
    + apply IH; assumption.
Qed.

(** C1. For every availability map, chunk count and state of the random
    generator: a chunk id of [0, chunkCount) with a non-empty candidate
    list has exactly one task in the plan, and that task's peer is one of
    the chunk's candidates; a chunk id with an empty candidate list has
    no task; and no chunk id occurs in two tasks. *)
Theorem create_download_plan_one_task_per_chunk
    (chunk_availability : gmap Z (list peer_info)) (num_chunks : Z) (g : rng) :
  let plan := fst (create_download_plan chunk_availability num_chunks g) in
  (forall c, 0 <= c < num_chunks -> get_peers chunk_availability c <> [] ->
     exists t, tasks_for c plan = [t] /\ task_chunk t = c /\
               In (task_peer t) (get_peers chunk_availability c)) /\
  (forall c, get_peers chunk_availability c = [] -> tasks_for c plan = []) /\
  List.NoDup (map task_chunk plan).
Proof.
  intros plan.
  destruct (create_download_plan_spec chunk_availability num_chunks g)
    as [Hmap Hall]. fold plan in Hmap, Hall.
  assert (List.NoDup (map task_chunk plan)) as Hnd.
  { rewrite Hmap. apply NoDup_filter_list, NoDup_py_range. }
  split; [|split; [|exact Hnd]].
  - intros c Hc Hne.
    assert (In c (map task_chunk plan)) as Hin.
    { rewrite Hmap. apply filter_In. split; [apply in_py_range; exact Hc|].
      unfold has_peers. destruct (get_peers chunk_availability c); congruence. }
    apply in_map_iff in Hin. destruct Hin as (t & Ht & Hin).
    exists t. split; [|split].
    + rewrite <- Ht. apply tasks_for_unique; assumption.
    + exact Ht.
    + rewrite List.Forall_forall in Hall. rewrite <- Ht. apply Hall. exact Hin.
  - intros c Hc. apply tasks_for_absent. rewrite Hmap, filter_In.
    unfold has_peers. rewrite Hc. intros [_ ?]. discriminate.
Qed.

Lemma plan_chunk_ids_in_range (m : gmap Z (list peer_info)) (n : Z) (g : rng)
    (t : task) :
  In t (fst (create_download_plan m n g)) -> 0 <= task_chunk t < n.
Proof.
  intros Hin. destruct (create_download_plan_spec m n g) as [Hmap _].
  apply (in_map task_chunk) in Hin. cbv zeta in Hmap. rewrite Hmap in Hin.
  apply filter_In in Hin. apply in_py_range. tauto.
Qed.

(** In the two-peer scenario chunk 0 gets its one task, from a candidate
    of chunk 0, whatever the generator draws. *)
Lemma create_download_plan_one_task_per_chunk_witness :
  exists t,
    tasks_for 0 (fst (create_download_plan demo_availability 4 (fun _ => 7%nat)))
      = [t] /\
    task_chunk t = 0 /\ In (task_peer t) (get_peers demo_availability 0).
Proof.
  exact (proj1 (create_download_plan_one_task_per_chunk
                  demo_availability 4 (fun _ => 7%nat))
               0 ltac:(lia) ltac:(vm_compute; discriminate)).
Defined.

(** The spec's two-peer scenario, for every state of the generator:
    chunk 0 goes to A, chunks 2 and 3 go to B, chunk 1 to one of them. *)
Example plan_of_two_peers (g : rng) :
  exists p1,
    In p1 [PeerInfo "10.0.0.1" 6000; PeerInfo "10.0.0.2" 6000] /\
    fst (create_download_plan demo_availability 4 g)
    = [("10.0.0.1"%string, 6000, 0); (pi_ip p1, pi_port p1, 1);
       ("10.0.0.2"%string, 6000, 2); ("10.0.0.2"%string, 6000, 3)].
Proof.
  unfold create_download_plan.
  change (py_range 4) with [0; 1; 2; 3]. cbn [plan_loop].
  change (get_peers demo_availability 0) with [PeerInfo "10.0.0.1" 6000].
  change (get_peers demo_availability 1)
    with [PeerInfo "10.0.0.1" 6000; PeerInfo "10.0.0.2" 6000].
  change (get_peers demo_availability 2) with [PeerInfo "10.0.0.2" 6000].
  change (get_peers demo_availability 3) with [PeerInfo "10.0.0.2" 6000].
  unfold random_choice. cbn [length app fst snd pi_ip pi_port].
  rewrite !Nat.mod_1_r. cbn [nth].
  pose proof (Nat.mod_upper_bound (g 1%nat) 2 ltac:(lia)) as Hb.
  destruct (g 1%nat mod 2)%nat as [|[|k]] eqn:E; [| |lia].
  - exists (PeerInfo "10.0.0.1" 6000). split; [left; reflexivity|reflexivity].
  - exists (PeerInfo "10.0.0.2" 6000).
    split; [right; left; reflexivity|reflexivity].
Qed.

(** Whatever the order in which the pool completes the tasks of a plan,
    their chunk ids are pairwise distinct and within [0, chunkCount). *)
Lemma completed_plan_well_formed (m : gmap Z (list peer_info)) (n : Z)
    (g : rng) (completed : list task) :
  Permutation completed (fst (create_download_plan m n g)) ->
  List.NoDup (map task_chunk completed) /\
  Forall (fun t => 0 <= task_chunk t < n) completed.
Proof.
  intros Hperm. destruct (create_download_plan_spec m n g) as [Hmap _].
  cbv zeta in Hmap. split.
  - apply (Permutation_NoDup (l := map task_chunk (fst (create_download_plan m n g)))).
    + apply Permutation_map. symmetry. exact Hperm.
    + rewrite Hmap. apply NoDup_filter_list, NoDup_py_range.
  - apply List.Forall_forall. intros t Ht.
    apply (plan_chunk_ids_in_range m n g).
    apply (Permutation_in _ Hperm). exact Ht.
Qed.

(** ** Bounds on chunk ids *)

(** C8. Every task of a plan has a chunk id in [0, chunkCount).  Every
    disk read of the chunk server is made for a request whose chunk id is
    in [0, chunkCount) of the hosted file, at the offset of that chunk.
    A well-formed request for a hosted file whose chunk id is outside
    the bounds reads nothing from disk and is answered by an error
    message: [ERROR: Chunk out of range] at or above the chunk count,
    [ERROR: Server error] below zero. *)
Theorem chunk_id_within_bounds_or_rejected :
  (forall (m : gmap Z (list peer_info)) (n : Z) (g : rng) (t : task),
     In t (fst (create_download_plan m n g)) -> 0 <= task_chunk t < n) /\
  (forall data hosted_files fs path offset d,
     In (path, offset, d) (disk_reads (handle_peer_connection data hosted_files fs)) ->
     exists file_hash chunk_str chunk_id content,
       py_split (py_strip data) = ["GET_CHUNK"%string; file_hash; chunk_str] /\
       py_int chunk_str = Some chunk_id /\
       hosted_files !! file_hash = Some path /\
       fs !! path = Some content /\
       0 <= chunk_id < server_num_chunks (len content) /\
       offset = chunk_id * CHUNK_SIZE /\ d = read_at content offset) /\
  (forall data hosted_files (fs : filesystem) file_hash chunk_str chunk_id path content,
     py_split (py_strip data) = ["GET_CHUNK"%string; file_hash; chunk_str] ->
     py_int chunk_str = Some chunk_id ->
     hosted_files !! file_hash = Some path ->
     fs !! path = Some content ->
     let tr := handle_peer_connection data hosted_files fs in
     (server_num_chunks (len content) <= chunk_id ->
        disk_reads tr = [] /\ sent tr = ERROR_Chunk_out_of_range) /\
     (chunk_id < 0 ->
        disk_reads tr = [] /\ sent tr = ERROR_Server_error)).
Proof.
  split; [exact plan_chunk_ids_in_range|]. split.
  - intros data hosted_files fs path offset d.
    rewrite handle_peer_connection_cases.
    destruct (py_split (py_strip data))
      as [|command [|file_hash [|chunk_str [|]]]]; simpl; try tauto.
    destruct (String.eqb_spec command "GET_CHUNK") as [->|]; simpl; [|tauto].
    destruct (py_int chunk_str) as [chunk_id|] eqn:Hint; simpl; [|tauto].
    destruct (hosted_files !! file_hash) as [file_path|] eqn:Hh; simpl; [|tauto].
    destruct (fs !! file_path) as [content|] eqn:Hfs; simpl; [|tauto].
    rewrite Z.geb_leb.
    destruct (Z.leb_spec (server_num_chunks (len content)) chunk_id); simpl;
      [tauto|].
    destruct (Z.ltb_spec chunk_id 0); simpl; [tauto|].
    intros Hin.
    assert ((path, offset, d)
            = (file_path, chunk_id * CHUNK_SIZE,
               read_at content (chunk_id * CHUNK_SIZE))) as [= -> -> ->].
    { destruct (to_bytes4 (len (read_at content (chunk_id * CHUNK_SIZE))));
        simpl in Hin; destruct Hin as [E|[]]; symmetry; exact E. }
    exists file_hash, chunk_str, chunk_id, content.
    repeat split; try assumption; try reflexivity; lia.
  - intros data hosted_files fs file_hash chunk_str chunk_id path content
      Hreq Hint Hh Hfs tr. subst tr.
    rewrite handle_peer_connection_cases, Hreq. simpl String.eqb. cbv iota.
    rewrite Hint, Hh, Hfs. rewrite Z.geb_leb.
    pose proof (server_num_chunks_nonneg (len content) (len_nonneg content)).
    split; intros Hc.
    + destruct (Z.leb_spec (server_num_chunks (len content)) chunk_id); [|lia].
      split; reflexivity.
    + destruct (Z.leb_spec (server_num_chunks (len content)) chunk_id); [lia|].
      destruct (Z.ltb_spec chunk_id 0); [|lia]. split; reflexivity.
Qed.

(** A request for chunk -1 of the five-byte file. *)
Lemma chunk_id_within_bounds_or_rejected_witness :
  disk_reads (handle_peer_connection "GET_CHUNK abc -1" demo_hosted demo_fs) = [] /\
  sent (handle_peer_connection "GET_CHUNK abc -1" demo_hosted demo_fs)
    = ERROR_Server_error.
Proof.
  exact (proj2 (proj2 (proj2 chunk_id_within_bounds_or_rejected)
                  "GET_CHUNK abc -1" demo_hosted demo_fs "abc" "-1" (-1)
                  "/srv/f" demo_content
                  ltac:(reflexivity) ltac:(reflexivity) ltac:(reflexivity)
                  ltac:(reflexivity))
               ltac:(lia)).
Defined.

(** ** Rejected requests *)

(** The rejections that do answer: an unknown hash, and a chunk id at or
    above the chunk count of a hosted file.  The reply is the error
    text alone. *)
Lemma unknown_hash_rejected (data : string) (hosted_files : gmap string string)
    (fs : filesystem) (file_hash chunk_str : string) (chunk_id : Z) :
  py_split (py_strip data) = ["GET_CHUNK"%string; file_hash; chunk_str] ->
  py_int chunk_str = Some chunk_id ->
  hosted_files !! file_hash = None ->
  handle_peer_connection data hosted_files fs
  = [Sendall ERROR_File_not_found; Close].
Proof.
  intros Hreq Hint Hh. rewrite handle_peer_connection_cases, Hreq.
  simpl String.eqb. cbv iota. rewrite Hint, Hh. reflexivity.
Qed.

(** C2 (the case the code misses). A three-word request whose command is
    not [GET_CHUNK] is answered by nothing at all: the handler closes
    the connection without sending a byte, whatever is hosted. *)
Theorem wrong_command_gets_no_reply (hosted_files : gmap string string)
    (fs : filesystem) :
  handle_peer_connection "PUT_CHUNK abc 0" hosted_files fs = [Close] /\
  sent (handle_peer_connection "PUT_CHUNK abc 0" hosted_files fs) = [].
Proof.
  rewrite handle_peer_connection_cases.
  change (py_split (py_strip "PUT_CHUNK abc 0"))
    with ["PUT_CHUNK"%string; "abc"%string; "0"%string].
  split; reflexivity.
Qed.

(** ** Availability map *)

Lemma get_peers_append (m : gmap Z (list peer_info)) (k c : Z) (p : peer_info) :
  get_peers (defaultdict_append m k p) c
  = if Z.eqb c k then get_peers m c ++ [p] else get_peers m c.
Proof.
  unfold get_peers, defaultdict_append.
  destruct (Z.eqb_spec c k) as [->|Hne].
  - rewrite lookup_insert_eq. reflexivity.
  - rewrite lookup_insert_ne by congruence. reflexivity.
Qed.

Lemma advertise_chunks (n c : Z) (pi : peer_info) (cs : list Z)
    (m : gmap Z (list peer_info)) :
  get_peers
    (fold_left
       (fun m chunk_id =>
          if chunk_id <? n then defaultdict_append m chunk_id pi else m)
       cs m) c
  = get_peers m c
    ++ (if c <? n then map (fun _ => pi) (List.filter (Z.eqb c) cs) else []).
Proof.
  revert m. induction cs as [|k cs IH]; intros m; simpl.
  - destruct (c <? n); rewrite app_nil_r; reflexivity.
  - rewrite IH. destruct (Z.ltb_spec k n) as [Hk|Hk].
    + rewrite get_peers_append. destruct (Z.eqb_spec c k) as [->|Hne].
      * destruct (Z.ltb_spec k n); [|lia]. simpl. rewrite <- app_assoc. reflexivity.
      * reflexivity.
    + destruct (Z.eqb_spec c k) as [->|Hne]; [|reflexivity].
      destruct (Z.ltb_spec k n); [lia|]. reflexivity.
Qed.

Lemma advertise_chunks_keys (n : Z) (pi : peer_info) (cs : list Z)
    (m : gmap Z (list peer_info)) :
  (forall c, is_Some (m !! c) -> c < n) ->
  forall c,
    is_Some
      (fold_left
         (fun m chunk_id =>
            if chunk_id <? n then defaultdict_append m chunk_id pi else m)
         cs m !! c) -> c < n.
Proof.
  revert m. induction cs as [|k cs IH]; intros m Hm; simpl; [exact Hm|].
  apply IH. destruct (Z.ltb_spec k n) as [Hk|Hk]; [|exact Hm].
  intros c. unfold defaultdict_append. destruct (Z.eq_dec k c) as [->|Hne].
  - intros _. exact Hk.
  - rewrite lookup_insert_ne by exact Hne. apply Hm.
Qed.

Lemma build_from (n c : Z) (peers : list peer) (m : gmap Z (list peer_info)) :
  get_peers
    (fold_left
       (fun m p =>
          let peer_info := PeerInfo (ip p) (port p) in
          fold_left
            (fun m chunk_id =>
               if chunk_id <? n then defaultdict_append m chunk_id peer_info
               else m)
            (chunks p) m)
       peers m) c
  = get_peers m c ++ (if c <? n then advertisers peers c else []).
Proof.
  revert m. induction peers as [|p peers IH]; intros m; simpl.
  - destruct (c <? n); rewrite app_nil_r; reflexivity.
  - rewrite IH, advertise_chunks. destruct (c <? n).
    + rewrite <- app_assoc. reflexivity.
    + rewrite !app_nil_r. reflexivity.
Qed.

Lemma build_keys_from (n : Z) (peers : list peer) (m : gmap Z (list peer_info)) :
  (forall c, is_Some (m !! c) -> c < n) ->
  forall c,
    is_Some
      (fold_left
         (fun m p =>
            let peer_info := PeerInfo (ip p) (port p) in
            fold_left
              (fun m chunk_id =>
                 if chunk_id <? n then defaultdict_append m chunk_id peer_info
                 else m)
              (chunks p) m)
         peers m !! c) -> c < n.
Proof.
  revert m. induction peers as [|p peers IH]; intros m Hm; simpl; [exact Hm|].
  apply IH. apply advertise_chunks_keys. exact Hm.
Qed.

(** C5 (as the code has it). For every peer list, chunk count and chunk
    id [c]: the candidate list of [c] is, when [c < chunkCount], the
    peers that advertise [c], in the order of the peer list, and it is
    empty otherwise; so every advertised id at or above the chunk count
    is dropped and the map has no key at or above the chunk count. *)
Theorem build_chunk_availability_map_candidates (peers : list peer)
    (num_chunks c : Z) :
  get_peers (build_chunk_availability_map peers num_chunks) c
    = (if c <? num_chunks then advertisers peers c else []) /\
  (is_Some (build_chunk_availability_map peers num_chunks !! c) ->
   c < num_chunks).
Proof.
  unfold build_chunk_availability_map. split.
  - rewrite build_from. reflexivity.
  - apply build_keys_from. intros k Hk. rewrite lookup_empty in Hk.
    destruct Hk as [? Hk]. discriminate.
Qed.

(** The two-peer scenario: chunk 1 has both peers as candidates, A first. *)
Lemma build_chunk_availability_map_candidates_witness :
  get_peers demo_availability 1
    = (if 1 <? 4 then advertisers [peer_A; peer_B] 1 else []) /\
  1 < 4.
Proof.
  destruct (build_chunk_availability_map_candidates [peer_A; peer_B] 4 1)
    as [Hc Hk].
  split; [exact Hc|]. apply Hk. vm_compute. eauto.
Defined.

(** An advertised chunk id below zero is kept: the map of a one-chunk
    file gets the key -1, outside [0, 1). *)
Lemma build_chunk_availability_map_keeps_negative_id :
  build_chunk_availability_map [Peer "10.0.0.9" 6000 [-1]] 1 !! (-1)
    = Some [PeerInfo "10.0.0.9" 6000] /\
  ~ (0 <= -1 < 1).
Proof. split; [reflexivity|lia]. Qed.

(** ** Chunk downloader *)

Lemma recv_split (bufsize : Z) (c : conn) :
  exists k, (k <= Z.to_nat bufsize)%nat /\
    (0 < bufsize -> (0 < k)%nat) /\
    recv bufsize c = (take k (pending c), Conn (drop k (pending c)) (tail (frag c))).
Proof.
  unfold recv. destruct (frag c) as [|k0 fr].
  - exists (Z.to_nat bufsize). split; [lia|]. split; [lia|reflexivity].
  - exists (Nat.min (S k0) (Z.to_nat bufsize)). split; [lia|].
    split; [lia|reflexivity].
Qed.

(** The receive loop ends within [1 + length pending] turns, and cannot
    return more than what was pending. *)
Lemma recv_loop_total (fuel : nat) (remaining : Z) (data : bytes) (c : conn) :
  (length (pending c) < fuel)%nat ->
  exists d, recv_loop fuel remaining data c = Some d /\
            len d <= len data + len (pending c).
Proof.
  revert remaining data c.
  induction fuel as [|fuel IH]; intros remaining data c Hf; [lia|].
  cbn [recv_loop]. destruct (Z.gtb_spec remaining 0) as [Hr|Hr].
  - destruct (recv_split (Z.min remaining 65536) c) as (k & Hk & Hpos & ->).
    destruct (take k (pending c)) as [|b chunk] eqn:Ht.
    + exists data. split; [reflexivity|]. pose proof (len_nonneg (pending c)). lia.
    + assert (length (take k (pending c)) = S (length chunk)) as Hl
        by (rewrite Ht; reflexivity).
      rewrite length_take in Hl.
      destruct (IH (remaining - len (b :: chunk)) (data ++ b :: chunk)
                  (Conn (drop k (pending c)) (tail (frag c))))
        as (d & Hd & Hb).
      { simpl. rewrite length_drop. lia. }
      exists d. split; [exact Hd|].
      rewrite len_app in Hb. simpl in Hb. unfold len in *.
      rewrite length_drop in Hb. simpl in Hb. lia.
  - exists data. split; [reflexivity|]. pose proof (len_nonneg (pending c)). lia.
Qed.

Lemma download_recv_total (c : conn) : exists r, download_recv c = Some r.
Proof.
  unfold download_recv.
  destruct (recv 4 c) as [size_bytes c1].
  destruct (len size_bytes <? 4); [eauto|].
  destruct (recv_loop_total (S (length (pending c1))) (from_bytes size_bytes) [] c1)
    as (d & -> & _); [lia|].
  destruct (negb (len d =? from_bytes size_bytes)); eauto.
Qed.

(** A reply whose first four bytes announce more than what follows them
    is discarded. *)
Lemma download_recv_short (c : conn) :
  len (pending c) - 4 < from_bytes (take 4 (pending c)) ->
  download_recv c = Some None.
Proof.
  intros Hshort. unfold download_recv.
  destruct (recv_split 4 c) as (k & Hk & _ & ->).
  destruct (Z.ltb_spec (len (take k (pending c))) 4) as [|Hlen]; [reflexivity|].
  assert (k = 4%nat) as ->.
  { unfold len in Hlen. rewrite length_take in Hlen. lia. }
  cbn [pending].
  destruct (recv_loop_total (S (length (drop 4 (pending c))))
              (from_bytes (take 4 (pending c))) []
              (Conn (drop 4 (pending c)) (tail (frag c))))
    as (d & -> & Hd); [simpl; lia|].
  unfold len in Hd, Hshort, Hlen |- *. cbn [pending length] in Hd.
  rewrite length_drop in Hd. rewrite length_take in Hlen.
  destruct (Z.eqb_spec (Z.of_nat (length d)) (from_bytes (take 4 (pending c))));
    [lia|reflexivity].
Qed.

Section DownloadProofs.

Context {Net : Type}.
Variable exchange : Net -> string -> Z -> bytes -> exchange_result * Net.

(** C10 (as the code has it). When the server's answer to the request of
    [download_chunk] is one of its three error texts, however the
    transport cuts it up, [download_chunk] returns [None]: the first
    four bytes [ERRO] decode to the length 1163022927, more than the
    bytes that follow them, so the payload falls short and is
    discarded (or fewer than four bytes arrive at first, and the reply
    is given up at once). *)
Theorem download_chunk_error_reply_is_None (net net' : Net) (ip0 : string)
    (port0 : Z) (file_hash : string) (chunk_id : Z) (reply : bytes)
    (fr : list nat) :
  In reply error_replies ->
  exchange net ip0 port0 (b_lit (request_line file_hash chunk_id))
    = (Replied (Conn reply fr), net') ->
  download_chunk exchange net ip0 port0 file_hash chunk_id = (None, net') /\
  from_bytes (take 4 reply) = 1163022927 /\
  len reply - 4 < 1163022927.
Proof.
  intros Hin Hex. unfold download_chunk. rewrite Hex.
  assert (from_bytes (take 4 reply) = 1163022927 /\ len reply - 4 < 1163022927)
    as [Hd Hl].
  { simpl in Hin. destruct Hin as [<-|[<-|[<-|[]]]]; split; vm_compute; reflexivity. }
  rewrite (download_recv_short (Conn reply fr)); [auto|].
  simpl. rewrite Hd. exact Hl.
Qed.

End DownloadProofs.

(** The four bytes [ERRO] are 0x4552524F; 1163088463 is 0x4553524F. *)
Lemma ERRO_does_not_decode_to_1163088463 :
  from_bytes (b_lit "ERRO") = 1163022927 /\
  from_bytes (b_lit "ERRO") <> 1163088463.
Proof. split; [reflexivity|discriminate]. Qed.

(** A refused connection first, then the error text for an unknown hash. *)
Lemma download_chunk_error_reply_is_None_witness :
  download_chunk demo_exchange 1%nat "10.0.0.1" 6000 "zzz" 0 = (None, 2%nat) /\
  from_bytes (take 4 ERROR_File_not_found) = 1163022927 /\
  len ERROR_File_not_found - 4 < 1163022927.
Proof.
  apply (download_chunk_error_reply_is_None demo_exchange 1%nat 2%nat
           "10.0.0.1" 6000 "zzz" 0 ERROR_File_not_found []).
  - simpl. auto.
  - vm_compute. reflexivity.
Defined.

(** ** Retry pass *)

Section RetryProofs.

Context {Net : Type}.
Variable exchange : Net -> string -> Z -> bytes -> exchange_result * Net.
Variable chunk_availability : gmap Z (list peer_info).
Variable file_hash : string.

Lemma truthy_Some (data : option bytes) :
  truthy data = true -> exists d, data = Some d /\ d <> [].
Proof.
  destruct data as [[|b d]|]; try discriminate. intros _. eauto.
Qed.

(** The inner loop tries the candidates from the first one on, and stops
    at the first that yields data. *)
Lemma retry_peers_spec (net : Net) (l : list peer_info) (c : Z) :
  match retry_peers exchange net l file_hash c with
  | (Some data, net2) =>
      exists l1 p l2 net1,
        l = l1 ++ p :: l2 /\
        attempts_fail exchange file_hash c net l1 net1 /\
        download_chunk exchange net1 (pi_ip p) (pi_port p) file_hash c
          = (Some data, net2) /\
        data <> []
  | (None, net2) => attempts_fail exchange file_hash c net l net2
  end.
Proof.
  revert net. induction l as [|p l IH]; intros net; simpl.
  - constructor.
  - destruct (download_chunk exchange net (pi_ip p) (pi_port p) file_hash c)
      as [data net1] eqn:Hd.
    destruct (truthy data) eqn:Ht.
    + destruct (truthy_Some data Ht) as (d & -> & Hne).
      exists [], p, l, net. repeat split; [constructor|exact Hd|exact Hne].
    + specialize (IH net1).
      destruct (retry_peers exchange net1 l file_hash c) as [[d|] net2].
      * destruct IH as (l1 & q & l2 & net1' & -> & Hf & Hq & Hne).
        exists (p :: l1), q, l2, net1'. repeat split; try assumption.
        econstructor; eassumption.
      * econstructor; eassumption.
Qed.

Lemma retry_step_other (st : dl_state) (x c : Z) :
  0 <= x -> 0 <= c -> x <> c ->
  output_chunks (retry_step exchange chunk_availability file_hash st x)
    !! Z.to_nat c
  = output_chunks st !! Z.to_nat c.
Proof.
  intros Hx Hc Hne. unfold retry_step.
  destruct (retry_peers exchange (net_state st)
              (get_peers chunk_availability x) file_hash x) as [[d|] net2];
    simpl; [|reflexivity].
  apply list_lookup_insert_ne. lia.
Qed.

Lemma retry_fold_other (l : list Z) (st : dl_state) (c : Z) :
  Forall (fun x => 0 <= x) l -> 0 <= c -> ~ In c l ->
  output_chunks
    (fold_left (retry_step exchange chunk_availability file_hash) l st)
    !! Z.to_nat c
  = output_chunks st !! Z.to_nat c.
Proof.
  revert st. induction l as [|x l IH]; intros st Hl Hc Hn; [reflexivity|].
  simpl. inversion Hl; subst. rewrite IH; [|assumption|assumption|].
  - apply retry_step_other; [assumption|assumption|]. intros ->. apply Hn. left.
    reflexivity.
  - intros Hin. apply Hn. right. exact Hin.
Qed.

Lemma primary_step_inv (N : Z) (st : dl_state) (t : task) (rest : list task) :
  primary_inv N st (t :: rest) ->
  primary_inv N (primary_step exchange file_hash st t) rest.
Proof.
  intros (Hnd & Hf & Hrest & Hfailed).
  simpl in Hnd. inversion Hnd as [|? ? Ht Hnd']; subst.
  destruct (Hrest t (or_introl eq_refl)) as (Hrange & Hnf & Hslot).
  destruct t as [[ip0 port0] cid]. unfold task_chunk in *. simpl in *.
  unfold primary_step, download_chunk_wrapper.
  destruct (download_chunk exchange (net_state st) ip0 port0 file_hash cid)
    as [data net'].
  assert (forall u, In u rest -> snd u <> cid) as Hother.
  { intros u Hu E. apply Ht. rewrite <- E. apply (in_map snd). exact Hu. }
  destruct (truthy data && slot_is_None (output_chunks st) cid) eqn:Hok;
    unfold primary_inv; cbn [output_chunks failed_chunks].
  - split; [exact Hnd'|]. split; [exact Hf|]. split.
    + intros u Hu. destruct (Hrest u (or_intror Hu)) as (Hr & Hn & Hs).
      split; [exact Hr|]. split; [exact Hn|].
      rewrite list_lookup_insert_ne; [exact Hs|].
      specialize (Hother u Hu). unfold task_chunk in *. lia.
    + intros c Hc. destruct (Hfailed c Hc) as [Hc0 Hs]. split; [exact Hc0|].
      rewrite list_lookup_insert_ne; [exact Hs|].
      assert (c <> cid) by (intros ->; tauto). lia.
  - split; [exact Hnd'|]. split.
    + apply List.NoDup_app; [exact Hf|repeat constructor; intros []|].
      intros a Ha [<-|[]]. tauto.
    + split.
      * intros u Hu. destruct (Hrest u (or_intror Hu)) as (Hr & Hn & Hs).
        split; [exact Hr|]. split; [|exact Hs].
        rewrite in_app_iff. intros [?|[E|[]]]; [tauto|].
        apply (Hother u Hu). symmetry. exact E.
      * intros c Hc. apply in_app_iff in Hc. destruct Hc as [Hc|[<-|[]]].
        -- apply Hfailed. exact Hc.
        -- split; [lia|exact Hslot].
Qed.

Lemma primary_pass_inv (N : Z) (completed : list task) (st : dl_state) :
  primary_inv N st completed ->
  primary_inv N (primary_pass exchange file_hash completed st) [].
Proof.
  unfold primary_pass. revert st.
  induction completed as [|t rest IH]; intros st Hinv; [exact Hinv|].
  simpl. apply IH. apply primary_step_inv. exact Hinv.
Qed.

Lemma primary_inv_init (N : Z) (completed : list task) (net : Net) :
  List.NoDup (map task_chunk completed) ->
  Forall (fun t => 0 <= task_chunk t < N) completed ->
  primary_inv N (DlState (replicate (Z.to_nat N) None) 0 [] net) completed.
Proof.
  intros Hnd Hall. split; [exact Hnd|]. split; [constructor|]. split.
  - intros t Ht. rewrite List.Forall_forall in Hall. specialize (Hall t Ht).
    split; [exact Hall|]. split; [intros []|]. simpl.
    apply lookup_replicate_2. lia.
  - intros c [].
Qed.

(** The turn of a chunk id [c] of the failed list in the retry pass: the
    candidates of [c] are tried one after the other from the first one
    on, until one yields data. *)
Lemma retry_turn_of_failed_chunk (N : Z) (completed : list task)
    (net0 : Net) (before after : list Z) (c : Z) :
  List.NoDup (map task_chunk completed) ->
  Forall (fun t => 0 <= task_chunk t < N) completed ->
  let st :=
    primary_pass exchange file_hash completed
      (DlState (replicate (Z.to_nat N) None) 0 [] net0) in
  failed_chunks st = before ++ c :: after ->
  let st_c :=
    fold_left (retry_step exchange chunk_availability file_hash) before st in
  let st_c' := retry_step exchange chunk_availability file_hash st_c c in
  let final := retry_pass exchange chunk_availability file_hash st in
  let candidates := get_peers chunk_availability c in
  (exists l1 p l2 net1 data,
     candidates = l1 ++ p :: l2 /\
     attempts_fail exchange file_hash c (net_state st_c) l1 net1 /\
     download_chunk exchange net1 (pi_ip p) (pi_port p) file_hash c
       = (Some data, net_state st_c') /\
     data <> [] /\
     output_chunks final !! Z.to_nat c = Some (Some data)) \/
  (attempts_fail exchange file_hash c (net_state st_c) candidates
     (net_state st_c') /\
   output_chunks final !! Z.to_nat c = Some None).
Proof.
  intros Hnd Hall st Hfailed st_c st_c' final candidates.
  destruct (primary_pass_inv N completed _ (primary_inv_init N completed net0 Hnd Hall))
    as (_ & Hndf & _ & Hslots).
  fold st in Hndf, Hslots.
  assert (Forall (fun x => 0 <= x) (failed_chunks st)) as Hpos.
  { apply List.Forall_forall. intros x Hx. apply Hslots. exact Hx. }
  rewrite Hfailed in Hndf, Hpos.
  apply List.NoDup_remove_2 in Hndf.
  apply Forall_app in Hpos. destruct Hpos as [Hposb Hposc].
  inversion Hposc as [|? ? Hc0 Hposa]; subst.
  assert (~ In c before) as Hcb
    by (intros Hin; apply Hndf, in_app_iff; left; exact Hin).
  assert (~ In c after) as Hca'
    by (intros Hin; apply Hndf, in_app_iff; right; exact Hin).
  assert (output_chunks st_c !! Z.to_nat c = Some None) as Hslot.
  { unfold st_c. rewrite retry_fold_other by assumption.
    apply Hslots. rewrite Hfailed. apply in_app_iff. right. left. reflexivity. }
  assert (output_chunks final !! Z.to_nat c = output_chunks st_c' !! Z.to_nat c)
    as Hfinal.
  { unfold final, retry_pass. rewrite Hfailed, fold_left_app. simpl.
    fold st_c. fold st_c'. apply retry_fold_other; assumption. }
  rewrite Hfinal. unfold st_c', retry_step. fold candidates.
  pose proof (retry_peers_spec (net_state st_c) candidates c) as Hspec.
  destruct (retry_peers exchange (net_state st_c) candidates file_hash c)
    as [[data|] net2]; simpl.
  - left. destruct Hspec as (l1 & p & l2 & net1 & Hl & Hf & Hd & Hne).
    exists l1, p, l2, net1, data. repeat split; try assumption.
    apply list_lookup_insert_eq. apply lookup_lt_Some in Hslot. exact Hslot.
  - right. split; [exact Hspec|exact Hslot].
Qed.

(** The failed list only grows during the primary pass. *)
Lemma primary_step_failed_grows (st : dl_state) (t : task) :
  exists l,
    failed_chunks (primary_step exchange file_hash st t) = failed_chunks st ++ l.
Proof.
  destruct t as [[ip0 port0] cid]. unfold primary_step, download_chunk_wrapper.
  destruct (download_chunk exchange (net_state st) ip0 port0 file_hash cid)
    as [data net'].
  destruct (truthy data && slot_is_None (output_chunks st) cid);
    cbn [failed_chunks].
  - exists []. rewrite app_nil_r. reflexivity.
  - exists [cid]. reflexivity.
Qed.

Lemma primary_pass_failed_grows (completed : list task) (st : dl_state) :
  exists l,
    failed_chunks (primary_pass exchange file_hash completed st)
    = failed_chunks st ++ l.
Proof.
  unfold primary_pass. revert st.
  induction completed as [|t rest IH]; intros st.
  - exists []. rewrite app_nil_r. reflexivity.
  - cbn [fold_left].
    destruct (IH (primary_step exchange file_hash st t)) as [l2 ->].
    destruct (primary_step_failed_grows st t) as [l1 ->].
    exists (l1 ++ l2). rewrite app_assoc. reflexivity.
Qed.

(** A task whose download yields no data puts its chunk id at the end of
    the failed list. *)
Lemma primary_step_records_failure (st : dl_state) (t : task) :
  truthy (fst (download_chunk exchange (net_state st) (fst (fst t))
                 (snd (fst t)) file_hash (task_chunk t))) = false ->
  failed_chunks (primary_step exchange file_hash st t)
  = failed_chunks st ++ [task_chunk t].
Proof.
  destruct t as [[ip0 port0] cid]. unfold task_chunk. cbn [fst snd].
  unfold primary_step, download_chunk_wrapper.
  destruct (download_chunk exchange (net_state st) ip0 port0 file_hash cid)
    as [data net'].
  cbn [fst]. intros ->. reflexivity.
Qed.

(** C6 (as the code has it). The primary pass drains the results of
    tasks with distinct chunk ids in [0, chunkCount); the download of
    one of them, [t], yields no data when its result is drained.  Then
    the chunk id [c] of [t] is on the failed list after the primary
    pass, once.  When its turn comes in the retry pass, the candidates
    of [c] in the availability map are tried one after the other from
    the first one on (the peer of the primary pass is not left out),
    until one yields data: either some candidate [p] yields data after
    all candidates before it failed, the pass goes on from the state of
    the network after [p], and slot [c] ends up holding that data; or
    every candidate fails and slot [c] ends up empty. *)
Theorem retry_pass_tries_candidates_in_order (N : Z) (done rest : list task)
    (t : task) (net0 : Net) :
  let completed := done ++ t :: rest in
  let c := task_chunk t in
  let st0 := DlState (replicate (Z.to_nat N) None) 0 [] net0 in
  List.NoDup (map task_chunk completed) ->
  Forall (fun t => 0 <= task_chunk t < N) completed ->
  truthy (fst (download_chunk exchange
                 (net_state (primary_pass exchange file_hash done st0))
                 (fst (fst t)) (snd (fst t)) file_hash c)) = false ->
  let st := primary_pass exchange file_hash completed st0 in
  exists before after,
    failed_chunks st = before ++ c :: after /\
    ~ In c before /\ ~ In c after /\
    let st_c :=
      fold_left (retry_step exchange chunk_availability file_hash) before st in
    let st_c' := retry_step exchange chunk_availability file_hash st_c c in
    let final := retry_pass exchange chunk_availability file_hash st in
    let candidates := get_peers chunk_availability c in
    (exists l1 p l2 net1 data,
       candidates = l1 ++ p :: l2 /\
       attempts_fail exchange file_hash c (net_state st_c) l1 net1 /\
       download_chunk exchange net1 (pi_ip p) (pi_port p) file_hash c
         = (Some data, net_state st_c') /\
       data <> [] /\
       output_chunks final !! Z.to_nat c = Some (Some data)) \/
    (attempts_fail exchange file_hash c (net_state st_c) candidates
       (net_state st_c') /\
     output_chunks final !! Z.to_nat c = Some None).
Proof.
  intros completed c st0 Hnd Hall Hfail st.
  set (st_t := primary_pass exchange file_hash done st0) in *.
  assert (st = primary_pass exchange file_hash rest
                 (primary_step exchange file_hash st_t t)) as Hst.
  { unfold st, completed, st_t, primary_pass. rewrite fold_left_app.
    reflexivity. }
  destruct (primary_pass_failed_grows rest
              (primary_step exchange file_hash st_t t)) as [after Hafter].
  rewrite <- Hst, (primary_step_records_failure st_t t Hfail) in Hafter.
  fold c in Hafter. rewrite <- app_assoc in Hafter. cbn [app] in Hafter.
  exists (failed_chunks st_t), after.
  destruct (primary_pass_inv N completed _
              (primary_inv_init N completed net0 Hnd Hall))
    as (_ & Hndf & _ & _).
  fold st0 in Hndf. fold st in Hndf. rewrite Hafter in Hndf.
  apply List.NoDup_remove_2 in Hndf.
  split; [exact Hafter|].
  split; [intros Hin; apply Hndf, in_app_iff; left; exact Hin|].
  split; [intros Hin; apply Hndf, in_app_iff; right; exact Hin|].
  exact (retry_turn_of_failed_chunk N completed net0 (failed_chunks st_t)
           after c Hnd Hall Hafter).
Qed.

End RetryProofs.

(** The one-peer scenario: the only task fails on the refused connection,
    and chunk 0 is retried. *)
Lemma retry_pass_tries_candidates_in_order_witness :
  exists before after,
    failed_chunks demo_after_primary = before ++ 0 :: after /\
    ~ In 0 before /\ ~ In 0 after /\
    let st_c :=
      fold_left (retry_step demo_exchange demo_availability1 "abc") before
                demo_after_primary in
    let st_c' := retry_step demo_exchange demo_availability1 "abc" st_c 0 in
    let final :=
      retry_pass demo_exchange demo_availability1 "abc" demo_after_primary in
    let candidates := get_peers demo_availability1 0 in
    (exists l1 p l2 net1 data,
       candidates = l1 ++ p :: l2 /\
       attempts_fail demo_exchange "abc" 0 (net_state st_c) l1 net1 /\
       download_chunk demo_exchange net1 (pi_ip p) (pi_port p) "abc" 0
         = (Some data, net_state st_c') /\
       data <> [] /\
       output_chunks final !! Z.to_nat 0 = Some (Some data)) \/
    (attempts_fail demo_exchange "abc" 0 (net_state st_c) candidates
       (net_state st_c') /\
     output_chunks final !! Z.to_nat 0 = Some None).
Proof.
  apply (retry_pass_tries_candidates_in_order demo_exchange demo_availability1
           "abc" 1 [] [] ("10.0.0.1"%string, 6000, 0) O).
  - vm_compute. repeat constructor. intros [].
  - vm_compute. repeat constructor; discriminate.
  - vm_compute. reflexivity.
Defined.

(** In the one-peer scenario the peer of the failed primary task is the
    only candidate of chunk 0, so no candidate remains besides it; the
    retry pass connects to that same peer once more and fills the
    slot. *)
Lemma retry_pass_retries_the_primary_peer :
  demo_plan = [("10.0.0.1"%string, 6000, 0)] /\
  failed_chunks demo_after_primary = [0] /\
  output_chunks demo_after_primary = [None] /\
  remaining_candidates demo_availability1 0 demo_peer_info = [] /\
  output_chunks (retry_pass demo_exchange demo_availability1 "abc" demo_after_primary)
    = [Some demo_content] /\
  net_state (retry_pass demo_exchange demo_availability1 "abc" demo_after_primary)
    = 2%nat.
Proof. vm_compute. repeat split; reflexivity. Qed.

(** ** Assembly and verification *)

(** The streaming loop feeds the hasher the whole file, in order, within
    [1 + length] turns. *)
Lemma hash_loop_total (fuel : nat) (rest fed : bytes) :
  (length rest < fuel)%nat -> hash_loop fuel rest fed = Some (fed ++ rest).
Proof.
  assert (0 < Z.to_nat CHUNK_SIZE)%nat as Hpos by (rewrite CHUNK_SIZE_val; lia).
  revert rest fed. induction fuel as [|fuel IH]; intros rest fed Hf; [lia|].
  cbn [hash_loop]. remember (Z.to_nat CHUNK_SIZE) as n eqn:Hn. clear Hn.
  destruct (take n rest) as [|b chunk] eqn:Ht.
  - destruct rest as [|x rest]; [rewrite app_nil_r; reflexivity|].
    destruct n; [lia|discriminate].
  - rewrite IH.
    + rewrite <- Ht, <- app_assoc, take_drop. reflexivity.
    + rewrite length_drop.
      assert (length (take n rest) = S (length chunk)) as Hl
        by (rewrite Ht; reflexivity).
      rewrite length_take in Hl. lia.
Qed.

Section VerifyProofs.

Variable sha1_hex : bytes -> string.

(** The last stage on a full chunk buffer. *)
Lemma assemble_and_verify_full (file_hash : string)
    (output : list (option bytes)) (fs : filesystem) :
  existsb is_None output = false ->
  let output_file := os_path_join download_dir file_hash in
  let content := concat (omap id output) in
  exists r fs',
    assemble_and_verify sha1_hex file_hash output fs = Some (r, fs') /\
    (forall path, path <> output_file -> fs' !! path = fs !! path) /\
    (sha1_hex content <> file_hash ->
       r = HashMismatch file_hash (sha1_hex content) /\
       fs' !! output_file = None) /\
    (sha1_hex content = file_hash ->
       r = DownloadComplete output_file /\
       fs' !! output_file = Some content).
Proof.
  intros Hfull output_file content. unfold assemble_and_verify.
  rewrite Hfull. fold output_file. fold content.
  rewrite lookup_insert_eq. change (default [] (Some content)) with content.
  rewrite hash_loop_total by lia. rewrite app_nil_l.
  destruct (String.eqb_spec (sha1_hex content) file_hash) as [Heq|Hne]; cbn [negb].
  - eexists _, _. split; [reflexivity|]. split; [|split].
    + intros path Hp. rewrite lookup_insert_ne by congruence. reflexivity.
    + intros Hne. contradiction.
    + intros _. split; [reflexivity|]. apply lookup_insert_eq.
  - eexists _, _. split; [reflexivity|]. split; [|split].
    + intros path Hp. rewrite lookup_delete_ne by congruence.
      rewrite lookup_insert_ne by congruence. reflexivity.
    + intros _. split; [reflexivity|]. apply lookup_delete_eq.
    + intros Heq. contradiction.
Qed.

(** C7. With every slot of the chunk buffer filled, the chunks are
    written to the output file and the hash of what was written is
    compared with the expected one.  If they differ, the report is the
    hash mismatch and the output file does not exist afterwards; if they
    are equal, the report is the completed download and the output file
    holds the assembled bytes.  Nothing else in the file system
    changes. *)
Theorem assemble_and_verify_integrity (file_hash : string)
    (output : list (option bytes)) (fs : filesystem) :
  existsb is_None output = false ->
  let output_file := os_path_join download_dir file_hash in
  let content := concat (omap id output) in
  exists r fs',
    assemble_and_verify sha1_hex file_hash output fs = Some (r, fs') /\
    (forall path, path <> output_file -> fs' !! path = fs !! path) /\
    (sha1_hex content <> file_hash ->
       r = HashMismatch file_hash (sha1_hex content) /\
       fs' !! output_file = None) /\
    (sha1_hex content = file_hash ->
       r = DownloadComplete output_file /\
       fs' !! output_file = Some content).
Proof. exact (assemble_and_verify_full file_hash output fs). Qed.

(** The hashing loop never runs out of fuel. *)
Lemma assemble_and_verify_total (file_hash : string)
    (output : list (option bytes)) (fs : filesystem) :
  exists r fs', assemble_and_verify sha1_hex file_hash output fs = Some (r, fs').
Proof.
  destruct (existsb is_None output) eqn:Hfull.
  - unfold assemble_and_verify. rewrite Hfull. eauto.
  - destruct (assemble_and_verify_full file_hash output fs Hfull)
      as (r & fs' & H & _). eauto.
Qed.

End VerifyProofs.

(** Two chunks in the buffer, a digest that does not match: the report
    is the mismatch and the output file is gone. *)
Lemma assemble_and_verify_integrity_witness :
  let output := [Some demo_content; Some demo_content] in
  let output_file := os_path_join download_dir "abc" in
  let content := concat (omap id output) in
  exists r fs',
    assemble_and_verify demo_digest "abc" output ∅ = Some (r, fs') /\
    (forall path, path <> output_file -> fs' !! path = (∅ : filesystem) !! path) /\
    (demo_digest content <> "abc"%string ->
       r = HashMismatch "abc" (demo_digest content) /\
       fs' !! output_file = None) /\
    (demo_digest content = "abc"%string ->
       r = DownloadComplete output_file /\
       fs' !! output_file = Some content).
Proof.
  exact (assemble_and_verify_integrity demo_digest "abc"
           [Some demo_content; Some demo_content] ∅ ltac:(reflexivity)).
Defined.

(** ** Tracker registration *)

Lemma same_peer_iff (ip0 : string) (port0 : Z) (p : peer) :
  same_peer ip0 port0 p = true <-> ip p = ip0 /\ port p = port0.
Proof.
  unfold same_peer. rewrite andb_true_iff, String.eqb_eq, Z.eqb_eq. tauto.
Qed.

Lemma find_first {A} (f : A -> bool) (l : list A) (x : A) :
  In x l -> f x = true ->
  exists l1 q l2, l = l1 ++ q :: l2 /\ f q = true /\
                  Forall (fun y => f y = false) l1 /\ find f l = Some q.
Proof.
  induction l as [|y l IH]; intros Hin Hx; [destruct Hin|].
  destruct (f y) eqn:Hy.
  - exists [], y, l. simpl. rewrite Hy. repeat split; auto.
  - destruct Hin as [->|Hin]; [congruence|].
    destruct (IH Hin Hx) as (l1 & q & l2 & -> & Hq & Hl1 & Hf).
    exists (y :: l1), q, l2. simpl. rewrite Hy. repeat split; auto.
Qed.

Lemma find_at_first {A} (f : A -> bool) (l1 l2 : list A) (q : A) :
  Forall (fun y => f y = false) l1 -> f q = true ->
  find f (l1 ++ q :: l2) = Some q.
Proof.
  induction 1 as [|y l1 Hy _ IH]; intros Hq; simpl.
  - rewrite Hq. reflexivity.
  - rewrite Hy. apply IH, Hq.
Qed.

Lemma set_existing_chunks_at_first (ip0 : string) (port0 : Z) (cs : list Z)
    (l1 l2 : list peer) (q : peer) :
  Forall (fun y => same_peer ip0 port0 y = false) l1 ->
  same_peer ip0 port0 q = true ->
  set_existing_chunks ip0 port0 cs (l1 ++ q :: l2)
  = l1 ++ Peer (ip q) (port q) cs :: l2.
Proof.
  induction 1 as [|y l1 Hy _ IH]; intros Hq; simpl.
  - rewrite Hq. reflexivity.
  - rewrite Hy. f_equal. apply IH, Hq.
Qed.

(** Registration of a peer whose (ip, port) the file already lists. *)
Lemma register_found (files : gmap string file_entry) (name h : string)
    (size : Z) (cs : list Z) (ip0 : string) (port0 : Z) (e : file_entry)
    (l1 l2 : list peer) (q : peer) :
  files !! h = Some e ->
  peers e = l1 ++ q :: l2 ->
  Forall (fun y => same_peer ip0 port0 y = false) l1 ->
  same_peer ip0 port0 q = true ->
  register (RegisterData (Some name) (Some h) (Some size) (Some cs)
                         (Some ip0) (Some port0)) files
  = (Ok200 "Peer updated successfully" h (len (peers e)),
     <[h := FileEntry (file_name e) (file_size e)
                      (l1 ++ Peer ip0 port0 cs :: l2)]> files).
Proof.
  intros Hh Hp Hl1 Hq. unfold register. cbn [d_file_name d_file_hash
    d_file_size d_chunks d_ip d_port]. rewrite Hh, Hp.
  rewrite find_at_first by assumption.
  rewrite set_existing_chunks_at_first by assumption.
  apply same_peer_iff in Hq. destruct Hq as [-> ->].
  f_equal. f_equal. unfold len. rewrite !length_app. reflexivity.
Qed.

(** C9. When the file's entry already lists a peer with the ip and port
    of the request, registration answers with the unchanged peer count,
    and the registry differs only in that the first such entry of the
    file carries the chunk list of the request, at its old place in the
    peer list; no entry is added.  If that entry already had this chunk
    list, the registry is unchanged.  Registering once more with the
    same request gives the same answer and the same registry. *)
Theorem register_same_peer_updates_in_place (files : gmap string file_entry)
    (name h : string) (size : Z) (cs : list Z) (ip0 : string) (port0 : Z)
    (e : file_entry) (p : peer) :
  files !! h = Some e ->
  In p (peers e) -> ip p = ip0 -> port p = port0 ->
  let data := RegisterData (Some name) (Some h) (Some size) (Some cs)
                           (Some ip0) (Some port0) in
  let r := register data files in
  (exists l1 q l2,
     peers e = l1 ++ q :: l2 /\ ip q = ip0 /\ port q = port0 /\
     Forall (fun y => same_peer ip0 port0 y = false) l1 /\
     r = (Ok200 "Peer updated successfully" h (len (peers e)),
          <[h := FileEntry (file_name e) (file_size e)
                           (l1 ++ Peer ip0 port0 cs :: l2)]> files) /\
     length (l1 ++ Peer ip0 port0 cs :: l2) = length (peers e) /\
     (chunks q = cs -> snd r = files)) /\
  register data (snd r) = r.
Proof.
  intros Hh Hin Hip Hport data r.
  destruct (find_first (same_peer ip0 port0) (peers e) p Hin
              (proj2 (same_peer_iff ip0 port0 p) (conj Hip Hport)))
    as (l1 & q & l2 & Hp & Hq & Hl1 & _).
  pose proof (register_found files name h size cs ip0 port0 e l1 l2 q
                Hh Hp Hl1 Hq) as Hr.
  fold data in Hr. fold r in Hr.
  destruct (proj1 (same_peer_iff ip0 port0 q) Hq) as [Hqi Hqp].
  split.
  - exists l1, q, l2. repeat split; try assumption.
    + rewrite Hp, !length_app. reflexivity.
    + intros Hcs. rewrite Hr. cbn [snd]. apply insert_id. rewrite Hh.
      f_equal. destruct e as [n s ps]. cbn in *. subst ps.
      destruct q as [qi qp qc]. cbn in *. subst. reflexivity.
  - rewrite Hr. cbn [snd].
    rewrite (register_found _ name h size cs ip0 port0
               (FileEntry (file_name e) (file_size e)
                          (l1 ++ Peer ip0 port0 cs :: l2))
               l1 l2 (Peer ip0 port0 cs)).
    + cbn [peers file_name file_size]. rewrite insert_insert_eq.
      f_equal. f_equal. rewrite Hp. unfold len. rewrite !length_app. reflexivity.
    + apply lookup_insert_eq.
    + reflexivity.
    + exact Hl1.
    + apply same_peer_iff. split; reflexivity.
Qed.

(** Peer B registers again, now with all four chunks: still two peers. *)
Lemma register_same_peer_updates_in_place_witness :
  fst (register demo_register_data demo_registry)
    = Ok200 "Peer updated successfully" "abc" 2 /\
  register demo_register_data (snd (register demo_register_data demo_registry))
    = register demo_register_data demo_registry.
Proof.
  pose proof (register_same_peer_updates_in_place demo_registry "f.bin" "abc"
                3670016 [0; 1; 2; 3] "10.0.0.2" 6000
                (FileEntry "f.bin" 3670016 [peer_A; peer_B]) peer_B
                ltac:(reflexivity) ltac:(right; left; reflexivity)
                ltac:(reflexivity) ltac:(reflexivity)) as [H1 H2].
  split; [|exact H2].
  destruct H1 as (l1 & q & l2 & _ & _ & _ & _ & Hr & _).
  unfold demo_register_data. rewrite Hr. reflexivity.
Defined.

(** ** From the server's reply back to the chunk *)

(** When exactly the announced number of bytes is pending, the receive
    loop returns them all, however the transport cuts them up. *)
Lemma recv_loop_exact (fuel : nat) (data : bytes) (c : conn) :
  (length (pending c) < fuel)%nat ->
  recv_loop fuel (len (pending c)) data c = Some (data ++ pending c).
Proof.
  revert data c. induction fuel as [|fuel IH]; intros data c Hf; [lia|].
  cbn [recv_loop]. destruct (Z.gtb_spec (len (pending c)) 0) as [Hr|Hr].
  - destruct (recv_split (Z.min (len (pending c)) 65536) c)
      as (k & Hk & Hpos & ->).
    specialize (Hpos ltac:(lia)).
    destruct (take k (pending c)) as [|b chunk] eqn:Ht.
    + exfalso. assert (length (take k (pending c)) = 0%nat) as Hl
        by (rewrite Ht; reflexivity).
      rewrite length_take in Hl. unfold len in Hr. lia.
    + assert (length (take k (pending c)) = S (length chunk)) as Hl
        by (rewrite Ht; reflexivity).
      rewrite length_take in Hl.
      replace (len (pending c) - len (b :: chunk))
        with (len (pending (Conn (drop k (pending c)) (tail (frag c))))).
      * rewrite IH.
        -- cbn [pending]. rewrite <- Ht, <- app_assoc, take_drop. reflexivity.
        -- cbn [pending]. rewrite length_drop. lia.
      * cbn [pending]. unfold len. rewrite length_drop. cbn [length]. lia.
  - destruct (pending c); [rewrite app_nil_r; reflexivity|].
    unfold len in Hr. cbn [length] in Hr. lia.
Qed.

(** A framed reply whose first four bytes arrive together is decoded to
    its payload. *)
Lemma download_recv_framed (prefix payload : bytes) (fr : list nat) :
  length prefix = 4%nat ->
  from_bytes prefix = len payload ->
  (3 <= hd 3%nat fr)%nat ->
  download_recv (Conn (prefix ++ payload) fr) = Some (Some payload).
Proof.
  intros Hl Hn Hfr. unfold download_recv, recv. cbn [pending frag].
  assert (match fr with
          | [] => Z.to_nat 4
          | k :: _ => Nat.min (S k) (Z.to_nat 4)
          end = length prefix) as ->.
  { rewrite Hl. destruct fr as [|k fr]; [reflexivity|]. simpl in Hfr.
    change (Z.to_nat 4) with 4%nat. lia. }
  rewrite take_app_length, drop_app_length.
  destruct (Z.ltb_spec (len prefix) 4) as [Hlt|_];
    [unfold len in Hlt; lia|].
  cbn [pending]. rewrite Hn.
  change payload with (pending (Conn payload (tail fr))) at 2.
  rewrite recv_loop_exact by (cbn [pending]; lia).
  cbn [pending app]. rewrite Z.eqb_refl. reflexivity.
Qed.

Section EndToEnd.

Context {Net : Type}.
Variable exchange : Net -> string -> Z -> bytes -> exchange_result * Net.
Variable sha1_hex : bytes -> string.

Lemma get_file_info_spec (fs : filesystem) (file_path : string)
    (content : bytes) :
  fs !! file_path = Some content ->
  get_file_info sha1_hex fs file_path
  = Some (sha1_hex content, len content,
          get_file_info_num_chunks (len content)).
Proof.
  intros Hfs. unfold get_file_info. rewrite Hfs.
  rewrite hash_loop_total by lia. reflexivity.
Qed.

(** What the report of the last stage says about the file system. *)
Lemma assemble_and_verify_report (file_hash : string)
    (output : list (option bytes)) (fs fs' : filesystem) (r : report) :
  assemble_and_verify sha1_hex file_hash output fs = Some (r, fs') ->
  let output_file := os_path_join download_dir file_hash in
  match r with
  | DownloadIncomplete missing => fs' = fs /\ missing = missing_chunks output
  | HashMismatch expected got =>
      expected = file_hash /\ got <> file_hash /\ fs' !! output_file = None
  | DownloadComplete f =>
      f = output_file /\
      exists content, fs' !! output_file = Some content /\
                      sha1_hex content = file_hash
  | NoPeersFound | NoFileHash => False
  end.
Proof.
  intros Hres output_file.
  destruct (existsb is_None output) eqn:Hfull.
  - unfold assemble_and_verify in Hres. rewrite Hfull in Hres.
    injection Hres as <- <-. split; reflexivity.
  - destruct (assemble_and_verify_full sha1_hex file_hash output fs Hfull)
      as (r0 & fs0 & Hr0 & _ & Hne & Heq).
    rewrite Hr0 in Hres. injection Hres as <- <-.
    fold output_file in Hne, Heq.
    destruct (String.eqb_spec (sha1_hex (concat (omap id output))) file_hash)
      as [E|E].
    + destruct (Heq E) as [-> Hl]. split; [reflexivity|]. eauto.
    + destruct (Hne E) as [-> Hl]. repeat split; assumption.
Qed.

(** The download always ends with a report; after a hash mismatch the
    output file does not exist, after a completed download it holds
    bytes of the expected hash. *)
Lemma main_download_report (m : meta) (g : rng)
    (as_completed : list task -> list task) (net : Net) (fs : filesystem) :
  exists r fs' net',
    main_download exchange sha1_hex m g as_completed net fs
      = Some (r, fs', net') /\
    let output_file := os_path_join download_dir (m_file_hash m) in
    match r with
    | HashMismatch _ _ => fs' !! output_file = None
    | DownloadComplete _ =>
        exists content, fs' !! output_file = Some content /\
                        sha1_hex content = m_file_hash m
    | _ => fs' = fs
    end.
Proof.
  unfold main_download. destruct (m_peers m) as [|p ps].
  { exists NoPeersFound, fs, net. split; reflexivity. }
  destruct (m_file_hash m) as [|a h] eqn:Hh.
  { exists NoFileHash, fs, net. split; reflexivity. }
  destruct (create_download_plan
              (build_chunk_availability_map (p :: ps)
                 (main_num_chunks (m_file_size m)))
              (main_num_chunks (m_file_size m)) g) as [download_tasks g'].
  match goal with
  | |- context [assemble_and_verify _ ?h ?o ?f] =>
      destruct (assemble_and_verify_total sha1_hex h o f) as (r & fs' & Hr);
      pose proof (assemble_and_verify_report h o f fs' r Hr) as Hrep;
      rewrite Hr
  end.
  eexists r, fs', _. split; [reflexivity|].
  cbv zeta in Hrep |- *. destruct r; tauto.
Qed.

End EndToEnd.

(** * Further properties of the code *)
(** ** Request line *)

Lemma list_ascii_of_string_app (s1 s2 : string) :
  list_ascii_of_string (s1 +:+ s2)
  = list_ascii_of_string s1 ++ list_ascii_of_string s2.
Proof. induction s1 as [|c s1 IH]; simpl; [reflexivity|]. rewrite IH. reflexivity. Qed.

Lemma string_of_list_ascii_app (l1 l2 : list ascii) :
  string_of_list_ascii (l1 ++ l2)
  = string_of_list_ascii l1 +:+ string_of_list_ascii l2.
Proof. induction l1 as [|c l1 IH]; simpl; [reflexivity|]. rewrite IH. reflexivity. Qed.

Lemma rev_string_involutive (s : string) : rev_string (rev_string s) = s.
Proof.
  unfold rev_string. rewrite list_ascii_of_string_of_list_ascii, rev_involutive.
  apply string_of_list_ascii_of_string.
Qed.

Lemma lstrip_id (s : string) :
  (forall c, hd_error (list_ascii_of_string s) = Some c -> is_space c = false) ->
  lstrip s = s.
Proof.
  destruct s as [|c s]; [reflexivity|]. simpl. intros H.
  rewrite (H c eq_refl). reflexivity.
Qed.

Lemma py_strip_id (s : string) :
  (forall c, hd_error (list_ascii_of_string s) = Some c -> is_space c = false) ->
  (forall c, hd_error (rev (list_ascii_of_string s)) = Some c -> is_space c = false) ->
  py_strip s = s.
Proof.
  intros Hfirst Hlast. unfold py_strip. rewrite (lstrip_id s Hfirst).
  rewrite lstrip_id; [apply rev_string_involutive|].
  unfold rev_string. rewrite list_ascii_of_string_of_list_ascii. exact Hlast.
Qed.

Lemma split_go_word (w : string) (cur : list ascii) (s : string) :
  no_space w = true ->
  split_go cur (w +:+ s) = split_go (rev (list_ascii_of_string w) ++ cur) s.
Proof.
  unfold no_space. revert cur. induction w as [|c w IH]; intros cur Hw; [reflexivity|].
  simpl in Hw. apply andb_true_iff in Hw. destruct Hw as [Hc Hw].
  apply negb_true_iff in Hc. simpl. rewrite Hc, IH by exact Hw.
  rewrite <- app_assoc. reflexivity.
Qed.

Lemma flush_word (w : string) (rest : list string) :
  w <> EmptyString ->
  flush (rev (list_ascii_of_string w) ++ []) rest = w :: rest.
Proof.
  intros Hne. rewrite app_nil_r.
  destruct (rev (list_ascii_of_string w)) as [|c l] eqn:E.
  - exfalso. apply Hne. apply (f_equal (@rev ascii)) in E.
    rewrite rev_involutive in E. simpl in E.
    rewrite <- (string_of_list_ascii_of_string w), E. reflexivity.
  - unfold flush. rewrite <- E, rev_involutive, string_of_list_ascii_of_string.
    reflexivity.
Qed.

Lemma append_empty_r (s : string) : s +:+ EmptyString = s.
Proof.
  induction s as [|c s IH]; [reflexivity|].
  change (String c (s +:+ EmptyString) = String c s). f_equal. exact IH.
Qed.

Lemma py_split_three (w1 w2 w3 : string) :
  no_space w1 = true -> no_space w2 = true -> no_space w3 = true ->
  w1 <> EmptyString -> w2 <> EmptyString -> w3 <> EmptyString ->
  py_split (w1 +:+ " " +:+ w2 +:+ " " +:+ w3) = [w1; w2; w3].
Proof.
  intros H1 H2 H3 N1 N2 N3. unfold py_split.
  change (w1 +:+ " " +:+ w2 +:+ " " +:+ w3)
    with (w1 +:+ String " " (w2 +:+ String " " w3)).
  rewrite split_go_word by exact H1. cbn [split_go].
  change (is_space " "%char) with true. cbv iota.
  rewrite flush_word by exact N1. f_equal.
  rewrite split_go_word by exact H2. cbn [split_go].
  change (is_space " "%char) with true. cbv iota.
  rewrite flush_word by exact N2. f_equal.
  rewrite <- (append_empty_r w3) at 1.
  rewrite split_go_word by exact H3. cbn [split_go].
  apply flush_word. exact N3.
Qed.

(** ** Decimal numbers *)

Lemma pretty_N_char_digit (r : N) :
  (r < 10)%N ->
  is_digit (pretty_N_char r) = true /\ digit_val (pretty_N_char r) = Z.of_N r /\
  is_space (pretty_N_char r) = false /\
  pretty_N_char r <> "-"%char /\ pretty_N_char r <> "+"%char /\
  pretty_N_char r <> "_"%char.
Proof.
  intros Hr.
  assert (r = 0 \/ r = 1 \/ r = 2 \/ r = 3 \/ r = 4 \/ r = 5 \/ r = 6 \/ r = 7
          \/ r = 8 \/ r = 9)%N as H by lia.
  repeat (destruct H as [->|H]); [..|subst r]; repeat split; discriminate.
Qed.

Lemma pretty_N_go_digits (x : N) (s : string) :
  exists ds,
    list_ascii_of_string (pretty_N_go x s) = ds ++ list_ascii_of_string s /\
    Forall is_digit_char ds /\
    ((0 < x)%N -> ds <> [] /\
       forall acc af l,
         digits_go acc af (ds ++ l)
         = digits_go (acc * 10 ^ Z.of_nat (length ds) + Z.of_N x) true l).
Proof.
  revert s. induction (N.lt_wf_0 x) as [x _ IH]; intros s.
  destruct (N.eq_dec x 0%N) as [->|Hx].
  - exists []. rewrite pretty_N_go_0. repeat split; [constructor|lia|lia].
  - assert (0 < x)%N as Hpos by lia.
    rewrite pretty_N_go_step by exact Hpos.
    destruct (IH (x `div` 10)%N ltac:(apply N.div_lt; lia)
                (String (pretty_N_char (x `mod` 10)) s))
      as (ds & Hds & Hall & Hgo).
    pose proof (N.mod_lt x 10 ltac:(lia)) as Hr.
    destruct (pretty_N_char_digit _ Hr) as (Hd & Hv & _).
    exists (ds ++ [pretty_N_char (x `mod` 10)%N]). split; [|split].
    + rewrite Hds. simpl. rewrite <- app_assoc. reflexivity.
    + apply Forall_app. split; [exact Hall|]. constructor; [|constructor].
      exists (x `mod` 10)%N. split; [exact Hr|reflexivity].
    + intros _. split; [destruct ds; discriminate|].
      intros acc af l. rewrite <- app_assoc. cbn [app].
      pose proof (N.div_mod x 10 ltac:(lia)) as Hdm.
      destruct (N.eq_dec (x `div` 10)%N 0%N) as [Hq|Hq].
      * assert (ds = []) as ->.
        { rewrite Hq, pretty_N_go_0 in Hds. simpl in Hds.
          destruct ds; [reflexivity|].
          apply (f_equal (@length ascii)) in Hds. simpl in Hds.
          rewrite length_app in Hds. simpl in Hds. lia. }
        cbn [app digits_go length]. rewrite Hd, Hv. f_equal. lia.
      * destruct (Hgo ltac:(lia)) as [_ Hgo'].
        rewrite Hgo'. cbn [digits_go]. rewrite Hd, Hv. f_equal.
        rewrite length_app. cbn [length].
        rewrite Nat2Z.inj_add, Z.pow_add_r by lia.
        change (10 ^ Z.of_nat 1) with 10. lia.
Qed.

Lemma py_int_unfold (s : string) :
  py_int s = py_int_list (list_ascii_of_string (py_strip s)).
Proof.
  unfold py_int, py_int_list.
  destruct (list_ascii_of_string (py_strip s)) as [|c l]; [reflexivity|].
  destruct c as [[] [] [] [] [] [] [] []]; reflexivity.
Qed.

Lemma py_int_list_digit (d : ascii) (l : list ascii) :
  is_digit_char d -> py_int_list (d :: l) = digits_go 0 false (d :: l).
Proof.
  intros (r & Hr & ->).
  assert (r = 0 \/ r = 1 \/ r = 2 \/ r = 3 \/ r = 4 \/ r = 5 \/ r = 6 \/ r = 7
          \/ r = 8 \/ r = 9)%N as H by lia.
  repeat (destruct H as [->|H]); [..|subst r]; reflexivity.
Qed.

Lemma is_digit_char_no_space (c : ascii) : is_digit_char c -> is_space c = false.
Proof. intros (r & Hr & ->). apply pretty_N_char_digit. exact Hr. Qed.

Lemma pretty_Npos_digits (p : positive) :
  exists d ds,
    list_ascii_of_string (pretty (N.pos p)) = d :: ds /\
    Forall is_digit_char (d :: ds) /\
    digits_go 0 false (d :: ds) = Some (Z.pos p).
Proof.
  unfold pretty, pretty_N. destruct (decide (N.pos p = 0%N)) as [E|_]; [discriminate|].
  destruct (pretty_N_go_digits (N.pos p) EmptyString) as (ds & Hds & Hall & Hgo).
  destruct (Hgo ltac:(lia)) as [Hne Hgo'].
  simpl in Hds. rewrite app_nil_r in Hds.
  destruct ds as [|d ds]; [congruence|].
  exists d, ds. split; [exact Hds|]. split; [exact Hall|].
  specialize (Hgo' 0 false []). rewrite app_nil_r in Hgo'. rewrite Hgo'.
  reflexivity.
Qed.

Lemma Forall_no_space_forallb (l : list ascii) :
  Forall (fun c => is_space c = false) l ->
  forallb (fun c => negb (is_space c)) l = true.
Proof.
  induction 1 as [|c l Hc _ IH]; [reflexivity|]. simpl. rewrite Hc, IH. reflexivity.
Qed.

Lemma no_space_ends (s : string) :
  no_space s = true ->
  (forall c, hd_error (list_ascii_of_string s) = Some c -> is_space c = false) /\
  (forall c, hd_error (rev (list_ascii_of_string s)) = Some c -> is_space c = false).
Proof.
  unfold no_space. rewrite forallb_forall. intros H.
  split; intros c Hc; apply negb_true_iff, H.
  - destruct (list_ascii_of_string s); [discriminate|]. injection Hc as ->. left.
    reflexivity.
  - apply in_rev. destruct (rev (list_ascii_of_string s)); [discriminate|].
    injection Hc as ->. left. reflexivity.
Qed.

Lemma py_strip_no_space (s : string) : no_space s = true -> py_strip s = s.
Proof. intros H. destruct (no_space_ends s H). apply py_strip_id; assumption. Qed.

(** [str(chunk_id)] has no whitespace, is not empty, and [int] reads it
    back. *)
Lemma pretty_Z_spec (z : Z) :
  no_space (pretty z) = true /\ pretty z <> EmptyString /\
  py_int (pretty z) = Some z.
Proof.
  destruct z as [|p|p].
  - repeat split; discriminate.
  - destruct (pretty_Npos_digits p) as (d & ds & Hl & Hall & Hgo).
    change (pretty (Z.pos p)) with (pretty (N.pos p)).
    assert (no_space (pretty (N.pos p)) = true) as Hns.
    { unfold no_space. rewrite Hl. apply Forall_no_space_forallb.
      eapply Forall_impl; [exact Hall|]. apply is_digit_char_no_space. }
    split; [exact Hns|]. split.
    + intros E. rewrite E in Hl. discriminate.
    + rewrite py_int_unfold, py_strip_no_space by exact Hns. rewrite Hl.
      rewrite py_int_list_digit by (inversion Hall; assumption). exact Hgo.
  - destruct (pretty_Npos_digits p) as (d & ds & Hl & Hall & Hgo).
    change (pretty (Z.neg p)) with ("-" +:+ pretty (N.pos p)).
    assert (list_ascii_of_string ("-" +:+ pretty (N.pos p)) = "-"%char :: d :: ds)
      as Hl'.
    { change ("-" +:+ pretty (N.pos p)) with (String "-" (pretty (N.pos p))).
      simpl. rewrite Hl. reflexivity. }
    assert (no_space ("-" +:+ pretty (N.pos p)) = true) as Hns.
    { unfold no_space. rewrite Hl'. apply Forall_no_space_forallb.
      constructor; [reflexivity|].
      eapply Forall_impl; [exact Hall|]. apply is_digit_char_no_space. }
    split; [exact Hns|]. split.
    + intros E. rewrite E in Hl'. discriminate.
    + rewrite py_int_unfold, py_strip_no_space by exact Hns. rewrite Hl'.
      cbn [py_int_list]. rewrite Hgo. reflexivity.
Qed.

(** The words of the request line of [download_chunk], as
    [handle_peer_connection] reads them. *)
Lemma request_line_parses (file_hash : string) (chunk_id : Z) :
  no_space file_hash = true -> file_hash <> EmptyString ->
  py_split (py_strip (request_line file_hash chunk_id))
    = ["GET_CHUNK"%string; file_hash; pretty chunk_id] /\
  py_int (pretty chunk_id) = Some chunk_id.
Proof.
  intros Hns Hne. destruct (pretty_Z_spec chunk_id) as (Hp & Hpe & Hint).
  split; [|exact Hint].
  unfold request_line.
  change ("GET_CHUNK " +:+ file_hash +:+ " " +:+ pretty chunk_id)
    with ("GET_CHUNK" +:+ " " +:+ file_hash +:+ " " +:+ pretty chunk_id).
  rewrite py_strip_id.
  - apply py_split_three; try assumption; try reflexivity. discriminate.
  - intros c Hc. simpl in Hc. injection Hc as <-. reflexivity.
  - intros c Hc. rewrite !list_ascii_of_string_app, !rev_app_distr in Hc.
    destruct (no_space_ends _ Hp) as [_ Hlast].
    destruct (rev (list_ascii_of_string (pretty chunk_id))) as [|z l] eqn:E.
    + exfalso. apply Hpe. apply (f_equal (@rev ascii)) in E.
      rewrite rev_involutive in E. simpl in E.
      rewrite <- (string_of_list_ascii_of_string (pretty chunk_id)), E. reflexivity.
    + simpl in Hc. injection Hc as <-. apply Hlast. reflexivity.
Qed.

(** ** What the downloader makes of a byte stream *)






(** ** Chunks put back together *)

Lemma concat_blocks {A} (bs : nat) (l : list A) (n : nat) :
  concat (map (fun i => take bs (drop (i * bs) l)) (seq 0 n)) = take (n * bs) l.
Proof.
  induction n as [|n IH]; [reflexivity|].
  rewrite seq_S, map_app, concat_app, IH. cbn [map concat Nat.add].
  rewrite app_nil_r, take_take_drop. f_equal. lia.
Qed.

Lemma chunks_concat (content : bytes) :
  concat (map (fun chunk_id => read_at content (chunk_lo chunk_id))
              (py_range (server_num_chunks (len content))))
  = content.
Proof.
  unfold py_range. rewrite map_map.
  pose proof (num_chunks_bounds (len content)) as Hn. cbv zeta in Hn.
  fold (server_num_chunks (len content)) in Hn.
  pose proof (server_num_chunks_nonneg (len content) (len_nonneg content)) as H0.
  rewrite (map_ext _ (fun i => take (Z.to_nat CHUNK_SIZE)
                                 (drop (i * Z.to_nat CHUNK_SIZE) content))).
  - rewrite concat_blocks. apply take_ge.
    rewrite CHUNK_SIZE_val in *. unfold len in *. lia.
  - intros i. unfold read_at, chunk_lo. f_equal. f_equal.
    rewrite CHUNK_SIZE_val. lia.
Qed.

(** X5. The chunks the server reads for the ids [0 .. chunkCount-1] of a
    file, put one after the other, are the file. *)
Theorem chunks_concat_to_file (content : bytes) :
  concat (map (fun chunk_id => read_at content (chunk_lo chunk_id))
              (py_range (server_num_chunks (len content))))
  = content.
Proof. exact (chunks_concat content). Qed.

(** ** A download against a chunk server *)

Lemma length_list_byte_of_string (s : string) :
  length (list_byte_of_string s) = String.length s.
Proof.
  unfold list_byte_of_string. rewrite length_map.
  induction s as [|c s IH]; [reflexivity|]. cbn [list_ascii_of_string length String.length].
  rewrite IH. reflexivity.
Qed.

Lemma error_reply_discarded (reply : bytes) (fr : list nat) :
  In reply error_replies -> download_recv (Conn reply fr) = Some None.
Proof.
  intros Hin. apply download_recv_short. cbn [pending].
  simpl in Hin. destruct Hin as [<-|[<-|[<-|[]]]]; vm_compute; reflexivity.
Qed.

Lemma download_chunk_server_cases {Net : Type}
    (exchange : Net -> string -> Z -> bytes -> exchange_result * Net)
    (net net' : Net) (ip0 : string) (port0 : Z) (file_hash : string)
    (chunk_id : Z) (hosted_files : gmap string string) (fs : filesystem)
    (fr : list nat) :
  no_space file_hash = true -> file_hash <> EmptyString ->
  (String.length (request_line file_hash chunk_id) <= 1024)%nat ->
  (3 <= hd 3%nat fr)%nat ->
  exchange net ip0 port0 (b_lit (request_line file_hash chunk_id))
    = (Replied (Conn (chunk_server_reply hosted_files fs
                        (b_lit (request_line file_hash chunk_id))) fr), net') ->
  download_chunk exchange net ip0 port0 file_hash chunk_id
  = (match hosted_files !! file_hash with
     | Some file_path =>
         match fs !! file_path with
         | Some content =>
             if (0 <=? chunk_id) && (chunk_id <? server_num_chunks (len content))
             then Some (file_range content (chunk_lo chunk_id)
                                   (chunk_hi chunk_id (len content)))
             else None
         | None => None
         end
     | None => None
     end, net').
Proof.
  intros Hns Hne Hfit Hfr Hex. unfold download_chunk. rewrite Hex. f_equal.
  unfold chunk_server_reply, b_lit.
  rewrite take_ge by (rewrite length_list_byte_of_string; exact Hfit).
  rewrite string_of_list_byte_of_string, handle_peer_connection_cases.
  destruct (request_line_parses file_hash chunk_id Hns Hne) as [-> ->].
  simpl String.eqb. cbv iota.
  destruct (hosted_files !! file_hash) as [file_path|].
  2: { cbn [sent app]. rewrite app_nil_r, error_reply_discarded; [reflexivity|].
       left. reflexivity. }
  destruct (fs !! file_path) as [content|].
  2: { cbn [sent app]. rewrite app_nil_r, error_reply_discarded; [reflexivity|].
       right. right. left. reflexivity. }
  rewrite Z.geb_leb.
  destruct (Z.leb_spec (server_num_chunks (len content)) chunk_id) as [Hge|Hlt].
  { cbn [sent app]. rewrite app_nil_r, error_reply_discarded.
    - destruct (Z.ltb_spec chunk_id (server_num_chunks (len content))); [lia|].
      rewrite andb_false_r. reflexivity.
    - right. left. reflexivity. }
  destruct (Z.ltb_spec chunk_id 0) as [Hneg|Hpos].
  { cbn [sent app]. rewrite app_nil_r, error_reply_discarded.
    - destruct (Z.leb_spec 0 chunk_id); [lia|]. reflexivity.
    - right. right. left. reflexivity. }
  destruct (Z.leb_spec 0 chunk_id); [|lia].
  destruct (Z.ltb_spec chunk_id (server_num_chunks (len content))); [|lia].
  cbn [andb]. cbv zeta. fold (chunk_lo chunk_id).
  pose proof (len_read_at content (chunk_lo chunk_id)
                ltac:(unfold chunk_lo; rewrite CHUNK_SIZE_val; lia)) as Hlen.
  destruct (to_bytes4_is_Some (len (read_at content (chunk_lo chunk_id))))
    as [prefix Hp].
  { rewrite Hlen, CHUNK_SIZE_val. lia. }
  rewrite Hp. cbn [sent app]. rewrite app_nil_r.
  destruct (from_bytes_to_bytes4 _ _ Hp) as [Hl Hf].
  rewrite download_recv_framed by assumption.
  rewrite read_at_file_range by lia. reflexivity.
Qed.

(** X4. One download, for a hash that is a non-empty ASCII word, against
    a chunk server that receives the request line whole (the line is
    ASCII, so its 1024 characters at most are as many bytes) and whose
    reply starts with four bytes delivered together: the result is the
    chunk's bytes of the hosted file when the hash is hosted, the file
    is on disk and the chunk id is within [0, chunkCount), and [None]
    in every other case. *)
Theorem download_chunk_from_server {Net : Type}
    (exchange : Net -> string -> Z -> bytes -> exchange_result * Net)
    (net net' : Net) (ip0 : string) (port0 : Z) (file_hash : string)
    (chunk_id : Z) (hosted_files : gmap string string) (fs : filesystem)
    (fr : list nat) :
  is_ascii file_hash = true ->
  no_space file_hash = true -> file_hash <> EmptyString ->
  (String.length (request_line file_hash chunk_id) <= 1024)%nat ->
  (3 <= hd 3%nat fr)%nat ->
  exchange net ip0 port0 (b_lit (request_line file_hash chunk_id))
    = (Replied (Conn (chunk_server_reply hosted_files fs
                        (b_lit (request_line file_hash chunk_id))) fr), net') ->
  download_chunk exchange net ip0 port0 file_hash chunk_id
  = (match hosted_files !! file_hash with
     | Some file_path =>
         match fs !! file_path with
         | Some content =>
             if (0 <=? chunk_id) && (chunk_id <? server_num_chunks (len content))
             then Some (file_range content (chunk_lo chunk_id)
                                   (chunk_hi chunk_id (len content)))
             else None
         | None => None
         end
     | None => None
     end, net').
Proof. intros _. apply download_chunk_server_cases. Qed.

(** ** A whole download from peers that serve the file *)

Lemma in_advertisers (peers : list peer) (c : Z) (q : peer_info) :
  In q (advertisers peers c) <->
  exists p, In p peers /\ In c (chunks p) /\ q = PeerInfo (ip p) (port p).
Proof.
  unfold advertisers. rewrite in_flat_map. split.
  - intros (p & Hp & Hq). apply in_map_iff in Hq. destruct Hq as (x & <- & Hx).
    apply filter_In in Hx. destruct Hx as [Hx Heq]. apply Z.eqb_eq in Heq. subst x.
    exists p. auto.
  - intros (p & Hp & Hc & ->). exists p. split; [exact Hp|].
    apply in_map_iff. exists c. split; [reflexivity|].
    apply filter_In. split; [exact Hc|apply Z.eqb_refl].
Qed.

Lemma get_peers_build (peers : list peer) (n c : Z) :
  get_peers (build_chunk_availability_map peers n) c
  = if c <? n then advertisers peers c else [].
Proof. unfold build_chunk_availability_map. rewrite build_from. reflexivity. Qed.

Lemma filter_all {A} (f : A -> bool) (l : list A) :
  (forall x, In x l -> f x = true) -> List.filter f l = l.
Proof.
  induction l as [|x l IH]; intros H; [reflexivity|].
  simpl. rewrite (H x (or_introl eq_refl)). f_equal. apply IH.
  intros y Hy. apply H. right. exact Hy.
Qed.

Lemma omap_id_Some {A B} (f : A -> B) (l : list A) :
  omap id (map (fun i => Some (f i)) l) = map f l.
Proof. induction l as [|x l IH]; [reflexivity|]. simpl. f_equal. exact IH. Qed.

Lemma existsb_is_None_Some {A B} (f : A -> B) (l : list A) :
  existsb is_None (map (fun i => Some (f i)) l) = false.
Proof. induction l as [|x l IH]; [reflexivity|]. exact IH. Qed.

Section RoundTrip.

Context {Net : Type}.
Variable exchange : Net -> string -> Z -> bytes -> exchange_result * Net.
Variable sha1_hex : bytes -> string.
Variable file_hash : string.
Variable chunk_of : Z -> bytes.

Lemma primary_pass_all_succeed (completed : list task) (st : dl_state) :
  Forall (task_succeeds exchange file_hash chunk_of) completed ->
  List.NoDup (map task_chunk completed) ->
  failed_chunks st = [] ->
  (forall t, In t completed ->
     output_chunks st !! Z.to_nat (task_chunk t) = Some None) ->
  let st' := primary_pass exchange file_hash completed st in
  failed_chunks st' = [] /\
  length (output_chunks st') = length (output_chunks st) /\
  (forall t, In t completed ->
     output_chunks st' !! Z.to_nat (task_chunk t)
     = Some (Some (chunk_of (task_chunk t)))) /\
  (forall i, (forall t, In t completed -> Z.to_nat (task_chunk t) <> i) ->
     output_chunks st' !! i = output_chunks st !! i).
Proof.
  unfold primary_pass. revert st.
  induction completed as [|t rest IH]; intros st Hall Hnd Hf Hslots.
  - cbn [fold_left]. repeat split; [exact Hf|intros t []].
  - inversion Hall as [|? ? Ht Hrest]; subst.
    inversion Hnd as [|? ? Hnotin Hnd']; subst.
    destruct Ht as (Hc0 & Hne & Hdl).
    cbn [fold_left].
    destruct t as [[ip0 port0] cid]. unfold task_chunk in *. cbn [fst snd] in *.
    destruct (Hdl (net_state st)) as [net' Hd].
    assert (primary_step exchange file_hash st (ip0, port0, cid)
            = DlState (<[Z.to_nat cid := Some (chunk_of cid)]> (output_chunks st))
                      (successful_downloads st + 1) (failed_chunks st) net')
      as Hstep.
    { pose proof (Hslots _ (or_introl eq_refl)) as Hs0. cbn [snd] in Hs0.
      unfold primary_step, download_chunk_wrapper. rewrite Hd.
      unfold slot_is_None. rewrite Hs0.
      destruct (chunk_of cid); [congruence|reflexivity]. }
    rewrite Hstep.
    assert (forall u, In u rest -> Z.to_nat (snd u) <> Z.to_nat cid) as Hother.
    { intros u Hu E.
      rewrite List.Forall_forall in Hrest. destruct (Hrest u Hu) as [Hu0 _].
      unfold task_chunk in Hu0. apply Hnotin.
      replace cid with (snd u) by lia. apply (in_map snd). exact Hu. }
    set (st1 := DlState (<[Z.to_nat cid := Some (chunk_of cid)]> (output_chunks st))
                        (successful_downloads st + 1) (failed_chunks st) net').
    destruct (IH st1 Hrest Hnd' Hf) as (Hf' & Hlen & Hdone & Hkeep).
    { intros u Hu. subst st1. cbn [output_chunks].
      rewrite list_lookup_insert_ne by (intros E; apply (Hother u Hu); congruence).
      apply Hslots. right. exact Hu. }
    subst st1. cbn [output_chunks] in Hlen, Hkeep.
    split; [exact Hf'|]. split; [|split].
    + rewrite Hlen. apply length_insert.
    + intros u [<-|Hu]; [|apply Hdone; exact Hu].
      cbn [snd]. rewrite Hkeep by (intros u Hu; apply Hother; exact Hu).
      apply list_lookup_insert_eq.
      apply lookup_lt_Some with (x := None).
      apply (Hslots _ (or_introl eq_refl)).
    + intros i Hi. rewrite Hkeep by (intros u Hu; apply Hi; right; exact Hu).
      apply list_lookup_insert_ne. apply (Hi _ (or_introl eq_refl)).
Qed.

End RoundTrip.

Section WholeDownload.

Context {Net : Type}.
Variable exchange : Net -> string -> Z -> bytes -> exchange_result * Net.
Variable sha1_hex : bytes -> string.

Lemma served_task_succeeds (peers : list peer) (file_hash : string)
    (content : bytes) (t : task) :
  no_space file_hash = true -> file_hash <> EmptyString ->
  peers_serve exchange peers file_hash content ->
  (exists p, In p peers /\ fst (fst t) = ip p /\ snd (fst t) = port p) ->
  0 <= task_chunk t < server_num_chunks (len content) ->
  (String.length (request_line file_hash (task_chunk t)) <= 1024)%nat ->
  task_succeeds exchange file_hash
    (fun c => read_at content (chunk_lo c)) t.
Proof.
  intros Hns Hne Hserve (p & Hp & Hip & Hport) Hc Hfit.
  split; [lia|]. split.
  - intros E. apply (f_equal len) in E.
    rewrite len_read_at in E by (unfold chunk_lo; rewrite CHUNK_SIZE_val; lia).
    pose proof (num_chunks_bounds (len content)) as Hn. cbv zeta in Hn.
    fold (server_num_chunks (len content)) in Hn.
    unfold chunk_lo, len in *. rewrite CHUNK_SIZE_val in *. cbn [length] in E. lia.
  - intros net.
    destruct (Hserve net p (task_chunk t) Hp Hc)
      as (hosted & fs & path & fr & net' & Hh & Hfs & Hfr & Hex).
    exists net'. rewrite Hip, Hport.
    rewrite (download_chunk_server_cases exchange net net' (ip p) (port p)
               file_hash (task_chunk t) hosted fs fr Hns Hne Hfit Hfr Hex).
    rewrite Hh, Hfs.
    destruct (Z.leb_spec 0 (task_chunk t)); [|lia].
    destruct (Z.ltb_spec (task_chunk t) (server_num_chunks (len content))); [|lia].
    cbn [andb]. rewrite read_at_file_range by lia. reflexivity.
Qed.

Lemma download_from_serving_peers (m : meta) (g : rng)
    (as_completed : list task -> list task) (net : Net) (fs : filesystem)
    (content : bytes) :
  m_peers m <> [] ->
  m_file_size m = len content ->
  m_file_hash m = sha1_hex content ->
  no_space (m_file_hash m) = true -> m_file_hash m <> EmptyString ->
  (forall c, 0 <= c < main_num_chunks (m_file_size m) ->
     (String.length (request_line (m_file_hash m) c) <= 1024)%nat) ->
  (forall c, 0 <= c < main_num_chunks (m_file_size m) ->
     exists p, In p (m_peers m) /\ In c (chunks p)) ->
  (forall l, Permutation (as_completed l) l) ->
  peers_serve exchange (m_peers m) (m_file_hash m) content ->
  exists net',
    main_download exchange sha1_hex m g as_completed net fs
    = Some (DownloadComplete (os_path_join download_dir (m_file_hash m)),
            <[os_path_join download_dir (m_file_hash m) := content]> fs,
            net').
Proof.
  intros Hpeers Hsize Hhash Hns Hne Hfit Hcover Hperm Hserve.
  set (n := main_num_chunks (m_file_size m)) in *.
  set (h := m_file_hash m) in *.
  set (avail := build_chunk_availability_map (m_peers m) n).
  set (chunk_of := fun c => read_at content (chunk_lo c)).
  assert (n = server_num_chunks (len content)) as Hn
    by (unfold n; rewrite Hsize; reflexivity).
  assert (0 <= n) as Hn0
    by (rewrite Hn; apply server_num_chunks_nonneg, len_nonneg).
  (* the plan has one task for every chunk id *)
  destruct (create_download_plan_spec avail n g) as [Hmap Hin].
  destruct (create_download_plan avail n g) as [plan g'] eqn:Hplan.
  cbn [fst] in Hmap, Hin.
  assert (map task_chunk plan = py_range n) as Hids.
  { rewrite Hmap. apply filter_all. intros c Hc. apply in_py_range in Hc.
    unfold has_peers, avail. rewrite get_peers_build.
    destruct (Z.ltb_spec c n); [|lia].
    destruct (Hcover c Hc) as (p & Hp & Hcp).
    destruct (advertisers (m_peers m) c) eqn:E; [|reflexivity].
    assert (In (PeerInfo (ip p) (port p)) (advertisers (m_peers m) c)) as Hq
      by (apply in_advertisers; eauto).
    rewrite E in Hq. destruct Hq. }
  set (completed := as_completed plan).
  assert (Permutation completed plan) as Hp by apply Hperm.
  assert (Permutation (map task_chunk completed) (py_range n)) as Hpids
    by (rewrite <- Hids; apply Permutation_map; exact Hp).
  assert (List.NoDup (map task_chunk completed)) as Hnd.
  { apply (Permutation_NoDup (l := py_range n)); [symmetry; exact Hpids|].
    apply NoDup_py_range. }
  assert (Forall (task_succeeds exchange h chunk_of) completed) as Hall.
  { apply List.Forall_forall. intros t Ht.
    assert (In t plan) as Htp by (apply (Permutation_in _ Hp); exact Ht).
    assert (0 <= task_chunk t < n) as Hc.
    { apply in_py_range. rewrite <- Hids. apply in_map. exact Htp. }
    apply (served_task_succeeds (m_peers m) h content t Hns Hne Hserve).
    - rewrite List.Forall_forall in Hin. specialize (Hin t Htp).
      unfold avail in Hin. rewrite get_peers_build in Hin.
      destruct (Z.ltb_spec (task_chunk t) n); [|lia].
      apply in_advertisers in Hin. destruct Hin as (p & Hpin & _ & Hq).
      exists p. split; [exact Hpin|]. unfold task_peer in Hq.
      injection Hq as Hq1 Hq2. auto.
    - rewrite <- Hn. exact Hc.
    - apply Hfit. exact Hc. }
  (* the primary pass fills every slot *)
  set (st0 := DlState (replicate (Z.to_nat n) (None : option bytes)) 0 [] net).
  destruct (primary_pass_all_succeed exchange h chunk_of completed st0 Hall Hnd
              eq_refl) as (Hfailed & Hlen & Hdone & _).
  { intros t Ht. cbn [st0 output_chunks]. apply lookup_replicate_2.
    assert (In (task_chunk t) (py_range n)) as Hc
      by (apply (Permutation_in _ Hpids), in_map, Ht).
    apply in_py_range in Hc. lia. }
  set (st1 := primary_pass exchange h completed st0) in *.
  assert (output_chunks st1
          = map (fun c => Some (chunk_of c)) (py_range n)) as Hout.
  { apply list_eq. intros i. unfold py_range. rewrite map_map.
    destruct (Nat.lt_ge_cases i (Z.to_nat n)) as [Hi|Hi].
    - assert (In (Z.of_nat i) (map task_chunk completed)) as Hc.
      { apply (Permutation_in _ (Permutation_sym Hpids)), in_py_range. lia. }
      apply in_map_iff in Hc. destruct Hc as (t & Ht & Htin).
      specialize (Hdone t Htin). rewrite Ht, Nat2Z.id in Hdone. rewrite Hdone.
      change (map (fun x => Some (chunk_of (Z.of_nat x))) (seq 0 (Z.to_nat n)))
        with ((fun x => Some (chunk_of (Z.of_nat x))) <$> seq 0 (Z.to_nat n)).
      rewrite list_lookup_fmap, lookup_seq_lt by exact Hi. reflexivity.
    - rewrite !lookup_ge_None_2; [reflexivity| |].
      + rewrite length_map, length_seq. exact Hi.
      + rewrite Hlen. cbn [st0 output_chunks]. rewrite length_replicate. exact Hi. }
  (* nothing is left to retry; the file is assembled and its hash is right *)
  assert (retry_pass exchange avail h st1 = st1) as Hretry
    by (unfold retry_pass; rewrite Hfailed; reflexivity).
  assert (concat (omap id (output_chunks st1)) = content) as Hcat.
  { rewrite Hout, omap_id_Some, Hn. apply chunks_concat. }
  destruct (assemble_and_verify_full sha1_hex h (output_chunks st1) fs)
    as (r & fs' & Hres & Hothers & _ & Heq).
  { rewrite Hout. apply existsb_is_None_Some. }
  rewrite Hcat in Heq. destruct (Heq (eq_sym Hhash)) as [-> Hfile].
  assert (fs' = <[os_path_join download_dir h := content]> fs) as ->.
  { apply map_eq. intros path.
    destruct (decide (path = os_path_join download_dir h)) as [->|Hne'].
    - rewrite lookup_insert_eq. exact Hfile.
    - rewrite lookup_insert_ne by congruence. apply Hothers. exact Hne'. }
  exists (net_state st1). unfold main_download.
  destruct (m_peers m) as [|p0 ps] eqn:Hps; [congruence|].
  fold h. destruct h as [|a h'] eqn:Hh; [congruence|].
  fold n. fold avail. rewrite Hplan. fold completed. fold st0. fold st1.
  rewrite Hretry, Hres. reflexivity.
Qed.

(** X6. A download of a file from peers that serve it. The tracker's
    answer lists at least one peer, the size and the hash of the file;
    every chunk id is advertised by some listed peer; every listed peer
    serves the file; the pool delivers the results of the planned tasks
    in some order. Then, whatever the generator draws, the download ends
    with the completion report and the output file holds exactly the
    bytes of the file; no other file changes. *)
Theorem main_download_round_trip (m : meta) (g : rng)
    (as_completed : list task -> list task) (net : Net) (fs : filesystem)
    (content : bytes) :
  m_peers m <> [] ->
  m_file_size m = len content ->
  m_file_hash m = sha1_hex content ->
  no_space (m_file_hash m) = true -> m_file_hash m <> EmptyString ->
  (forall c, 0 <= c < main_num_chunks (m_file_size m) ->
     (String.length (request_line (m_file_hash m) c) <= 1024)%nat) ->
  (forall c, 0 <= c < main_num_chunks (m_file_size m) ->
     exists p, In p (m_peers m) /\ In c (chunks p)) ->
  (forall l, Permutation (as_completed l) l) ->
  peers_serve exchange (m_peers m) (m_file_hash m) content ->
  exists net',
    main_download exchange sha1_hex m g as_completed net fs
    = Some (DownloadComplete (os_path_join download_dir (m_file_hash m)),
            <[os_path_join download_dir (m_file_hash m) := content]> fs,
            net').
Proof. apply download_from_serving_peers. Qed.

End WholeDownload.

(** ** Chunks that nobody advertises *)

Lemma in_missing_chunks (output : list (option bytes)) (z : Z) :
  In z (missing_chunks output) <->
  exists i, z = Z.of_nat i /\ output !! i = Some None.
Proof.
  unfold missing_chunks. rewrite <- list_elem_of_In, list_elem_of_omap. split.
  - intros ([i c] & Hin & Hc). apply list_elem_of_lookup in Hin.
    destruct Hin as [j Hj]. rewrite list_lookup_imap in Hj.
    destruct (output !! j) as [c'|] eqn:E; [|discriminate].
    cbn in Hj. injection Hj as <- <-. destruct c'; [discriminate|].
    injection Hc as <-. eauto.
  - intros (i & -> & Hi). exists (i, None). split; [|reflexivity].
    apply list_elem_of_lookup. exists i. rewrite list_lookup_imap, Hi. reflexivity.
Qed.

Lemma existsb_is_None_lookup (output : list (option bytes)) (i : nat) :
  output !! i = Some None -> existsb is_None output = true.
Proof.
  intros Hi. apply existsb_exists. exists None. split; [|reflexivity].
  apply list_elem_of_In, list_elem_of_lookup. eauto.
Qed.

Section MissingChunk.

Context {Net : Type}.
Variable exchange : Net -> string -> Z -> bytes -> exchange_result * Net.
Variable sha1_hex : bytes -> string.

Lemma primary_step_untouched (file_hash : string) (st : dl_state) (t : task)
    (i : nat) :
  Z.to_nat (task_chunk t) <> i ->
  output_chunks (primary_step exchange file_hash st t) !! i
  = output_chunks st !! i.
Proof.
  intros Hi. destruct t as [[ip0 port0] cid]. unfold task_chunk in Hi. cbn in Hi.
  unfold primary_step, download_chunk_wrapper.
  destruct (download_chunk exchange (net_state st) ip0 port0 file_hash cid)
    as [data net'].
  destruct (truthy data && slot_is_None (output_chunks st) cid);
    cbn [output_chunks]; [|reflexivity].
  apply list_lookup_insert_ne. exact Hi.
Qed.

Lemma primary_step_failed (file_hash : string) (st : dl_state) (t : task)
    (x : Z) :
  In x (failed_chunks (primary_step exchange file_hash st t)) ->
  In x (failed_chunks st) \/ x = task_chunk t.
Proof.
  destruct t as [[ip0 port0] cid]. unfold task_chunk. cbn [snd].
  unfold primary_step, download_chunk_wrapper.
  destruct (download_chunk exchange (net_state st) ip0 port0 file_hash cid)
    as [data net'].
  destruct (truthy data && slot_is_None (output_chunks st) cid);
    cbn [failed_chunks]; [auto|].
  rewrite in_app_iff. intros [?|[<-|[]]]; auto.
Qed.

Lemma primary_pass_untouched (file_hash : string) (completed : list task)
    (st : dl_state) (i : nat) :
  (forall t, In t completed -> Z.to_nat (task_chunk t) <> i) ->
  output_chunks (primary_pass exchange file_hash completed st) !! i
  = output_chunks st !! i.
Proof.
  unfold primary_pass. revert st.
  induction completed as [|t rest IH]; intros st Hi; [reflexivity|].
  cbn [fold_left]. rewrite IH by (intros u Hu; apply Hi; right; exact Hu).
  apply primary_step_untouched. apply Hi. left. reflexivity.
Qed.

Lemma primary_pass_failed (file_hash : string) (completed : list task)
    (st : dl_state) (x : Z) :
  In x (failed_chunks (primary_pass exchange file_hash completed st)) ->
  In x (failed_chunks st) \/ In x (map task_chunk completed).
Proof.
  unfold primary_pass. revert st.
  induction completed as [|t rest IH]; intros st Hx; [left; exact Hx|].
  cbn [fold_left] in Hx. apply IH in Hx. destruct Hx as [Hx|Hx].
  - apply primary_step_failed in Hx. destruct Hx as [Hx| ->]; [left; exact Hx|].
    right. left. reflexivity.
  - right. right. exact Hx.
Qed.

(** A chunk id of the downloader's range that no listed peer advertises
    gets no task and no retry: its slot stays empty to the end. *)
Lemma unadvertised_chunk_missing (m : meta) (g : rng)
    (as_completed : list task -> list task) (net : Net) (fs : filesystem)
    (c : Z) :
  m_peers m <> [] -> m_file_hash m <> EmptyString ->
  0 <= c < main_num_chunks (m_file_size m) ->
  (forall p, In p (m_peers m) -> ~ In c (chunks p)) ->
  (forall l, Permutation (as_completed l) l) ->
  exists missing net',
    main_download exchange sha1_hex m g as_completed net fs
    = Some (DownloadIncomplete missing, fs, net') /\
    In c missing.
Proof.
  intros Hpeers Hne Hc Hnone Hperm.
  set (n := main_num_chunks (m_file_size m)) in *.
  set (h := m_file_hash m) in *.
  set (avail := build_chunk_availability_map (m_peers m) n).
  destruct (create_download_plan_spec avail n g) as [Hmap _].
  destruct (create_download_plan avail n g) as [plan g'] eqn:Hplan.
  cbn [fst] in Hmap.
  set (completed := as_completed plan).
  assert (Permutation completed plan) as Hp by apply Hperm.
  assert (forall x, In x (map task_chunk completed) -> 0 <= x < n /\ x <> c)
    as Hids.
  { intros x Hx.
    apply (Permutation_in _ (Permutation_map task_chunk Hp)) in Hx.
    rewrite Hmap in Hx. apply filter_In in Hx. destruct Hx as [Hr Hhas].
    apply in_py_range in Hr. split; [exact Hr|]. intros ->.
    unfold has_peers, avail in Hhas. rewrite get_peers_build in Hhas.
    destruct (Z.ltb_spec c n); [|lia].
    destruct (advertisers (m_peers m) c) as [|q l] eqn:E; [discriminate|].
    assert (In q (advertisers (m_peers m) c)) as Hq by (rewrite E; left; reflexivity).
    apply in_advertisers in Hq. destruct Hq as (p & Hpin & Hcp & _).
    exact (Hnone p Hpin Hcp). }
  set (st0 := DlState (replicate (Z.to_nat n) (None : option bytes)) 0 [] net).
  set (st1 := primary_pass exchange h completed st0).
  set (st2 := retry_pass exchange avail h st1).
  assert (output_chunks st1 !! Z.to_nat c = Some None) as H1.
  { unfold st1. rewrite primary_pass_untouched.
    - cbn [st0 output_chunks]. apply lookup_replicate_2. lia.
    - intros t Ht E. destruct (Hids (task_chunk t) (in_map _ _ _ Ht)). lia. }
  assert (forall x, In x (failed_chunks st1) -> 0 <= x /\ x <> c) as Hfailed.
  { intros x Hx. apply primary_pass_failed in Hx. destruct Hx as [[]|Hx].
    destruct (Hids x Hx). split; [lia|assumption]. }
  assert (output_chunks st2 !! Z.to_nat c = Some None) as H2.
  { unfold st2, retry_pass. rewrite retry_fold_other; [exact H1| |lia|].
    - apply List.Forall_forall. intros x Hx. apply Hfailed. exact Hx.
    - intros Hin. destruct (Hfailed c Hin). congruence. }
  exists (missing_chunks (output_chunks st2)), (net_state st2). split.
  - unfold main_download.
    destruct (m_peers m) as [|p0 ps] eqn:Hps; [congruence|].
    fold h. destruct h as [|a h'] eqn:Hh; [congruence|].
    fold n. fold avail. rewrite Hplan. fold completed. fold st0. fold st1.
    fold st2. unfold assemble_and_verify.
    rewrite (existsb_is_None_lookup _ _ H2). reflexivity.
  - apply in_missing_chunks. exists (Z.to_nat c). split; [lia|exact H2].
Qed.


(** *** The chunk count on the sharing side and on the downloading side *)

Lemma primary_step_length (file_hash : string) (st : dl_state) (t : task) :
  length (output_chunks (primary_step exchange file_hash st t))
  = length (output_chunks st).
Proof.
  destruct t as [[ip0 port0] cid]. unfold primary_step, download_chunk_wrapper.
  destruct (download_chunk exchange (net_state st) ip0 port0 file_hash cid)
    as [data net'].
  destruct (truthy data && slot_is_None (output_chunks st) cid);
    cbn [output_chunks]; [apply length_insert|reflexivity].
Qed.

Lemma primary_pass_length (file_hash : string) (completed : list task)
    (st : dl_state) :
  length (output_chunks (primary_pass exchange file_hash completed st))
  = length (output_chunks st).
Proof.
  unfold primary_pass. revert st.
  induction completed as [|t rest IH]; intros st; [reflexivity|].
  cbn [fold_left]. rewrite IH. apply primary_step_length.
Qed.

Lemma retry_fold_length (chunk_availability : gmap Z (list peer_info))
    (file_hash : string) (l : list Z) (st : dl_state) :
  length (output_chunks
            (fold_left (retry_step exchange chunk_availability file_hash) l st))
  = length (output_chunks st).
Proof.
  revert st. induction l as [|x l IH]; intros st; [reflexivity|].
  cbn [fold_left]. rewrite IH. unfold retry_step.
  destruct (retry_peers exchange (net_state st)
              (get_peers chunk_availability x) file_hash x) as [[d|] net2];
    cbn [output_chunks]; [apply length_insert|reflexivity].
Qed.

(** The downloader never reports a chunk id outside the range of its
    chunk count as missing. *)
Lemma main_download_missing_in_range (m : meta) (g : rng)
    (as_completed : list task -> list task) (net net' : Net)
    (fs fs' : filesystem) (missing : list Z) :
  main_download exchange sha1_hex m g as_completed net fs
    = Some (DownloadIncomplete missing, fs', net') ->
  forall c, In c missing -> 0 <= c < main_num_chunks (m_file_size m).
Proof.
  unfold main_download. destruct (m_peers m) as [|p ps]; [discriminate|].
  destruct (m_file_hash m) as [|a h]; [discriminate|].
  set (n := main_num_chunks (m_file_size m)).
  destruct (create_download_plan (build_chunk_availability_map (p :: ps) n) n g)
    as [download_tasks g'].
  set (st1 := primary_pass exchange (String a h) (as_completed download_tasks)
                (DlState (replicate (Z.to_nat n) None) 0 [] net)).
  set (st2 := retry_pass exchange (build_chunk_availability_map (p :: ps) n)
                (String a h) st1).
  assert (length (output_chunks st2) = Z.to_nat n) as Hlen.
  { unfold st2, retry_pass. rewrite retry_fold_length. unfold st1.
    rewrite primary_pass_length. cbn [output_chunks]. apply length_replicate. }
  destruct (assemble_and_verify sha1_hex (String a h) (output_chunks st2) fs)
    as [[r fs1]|] eqn:Hr; [|discriminate].
  intros E. injection E as -> _ _.
  pose proof (assemble_and_verify_report sha1_hex _ _ _ _ _ Hr) as Hrep.
  cbv zeta in Hrep. destruct Hrep as [_ ->].
  intros c Hc. apply in_missing_chunks in Hc. destruct Hc as (i & -> & Hi).
  apply lookup_lt_Some in Hi. rewrite Hlen in Hi. lia.
Qed.

(** C3. For a file of [S] bytes on the sharing side, [get_file_info]
    returns the size [S] and a chunk count [n] that is the ceiling of
    [S / CHUNK_SIZE] (the integer with [(n-1)*CHUNK_SIZE < S <=
    n*CHUNK_SIZE]); every byte offset of [0, S) lies in the range of
    exactly one chunk id of [0, n); every range is non-empty and inside
    [0, S); consecutive ranges meet, the first starts at 0 and the last
    ends at [S].  The downloading side, told the size [S], works with
    the same count: in every download a chunk id of [0, n) that no peer
    advertises is reported missing, and no chunk id outside [0, n) is
    ever reported missing. *)
Theorem chunk_count_ceil_and_partition (fs : filesystem) (file_path : string)
    (content : bytes) :
  fs !! file_path = Some content ->
  let S := len content in
  exists file_hash n,
    get_file_info sha1_hex fs file_path = Some (file_hash, S, n) /\
    ((n - 1) * CHUNK_SIZE < S <= n * CHUNK_SIZE) /\
    (forall b, 0 <= b < S ->
       exists id, (0 <= id < n /\ chunk_lo id <= b < chunk_hi id S) /\
         forall id', 0 <= id' < n -> chunk_lo id' <= b < chunk_hi id' S ->
                     id' = id) /\
    (forall id, 0 <= id < n ->
       0 <= chunk_lo id /\ chunk_lo id < chunk_hi id S <= S) /\
    (forall id, 0 <= id -> id + 1 < n -> chunk_hi id S = chunk_lo (id + 1)) /\
    (0 < n -> chunk_lo 0 = 0 /\ chunk_hi (n - 1) S = S) /\
    forall (m : meta) (g : rng) (as_completed : list task -> list task)
           (net : Net) (fs0 : filesystem),
      m_file_size m = S ->
      m_peers m <> [] -> m_file_hash m <> EmptyString ->
      (forall l, Permutation (as_completed l) l) ->
      exists r fs' net',
        main_download exchange sha1_hex m g as_completed net fs0
          = Some (r, fs', net') /\
        (forall c, 0 <= c < n ->
           (forall p, In p (m_peers m) -> ~ In c (chunks p)) ->
           exists missing, r = DownloadIncomplete missing /\ In c missing) /\
        (forall missing, r = DownloadIncomplete missing ->
           forall c, In c missing -> 0 <= c < n).
Proof.
  intros Hfs S.
  exists (sha1_hex content), (get_file_info_num_chunks S).
  split; [apply get_file_info_spec; exact Hfs|].
  destruct (num_chunks_ceil_and_partition S (len_nonneg content))
    as (Hceil & Hcover & Hrange & Hmeet & Hends).
  do 5 (split; [assumption|]).
  intros m g as_completed net fs0 Hsize Hpeers Hhash Hperm.
  destruct (main_download_report exchange sha1_hex m g as_completed net fs0)
    as (r & fs' & net' & Hmain & _).
  exists r, fs', net'. split; [exact Hmain|]. split.
  - intros c Hc Hnone.
    destruct (unadvertised_chunk_missing m g as_completed net fs0 c Hpeers
                Hhash ltac:(rewrite Hsize; exact Hc) Hnone Hperm)
      as (missing & net1 & Hmiss & Hin).
    rewrite Hmain in Hmiss. injection Hmiss as -> _ _.
    exists missing. split; [reflexivity|exact Hin].
  - intros missing -> c Hc.
    pose proof (main_download_missing_in_range m g as_completed net net' fs0 fs'
                  missing Hmain c Hc) as Hr.
    rewrite Hsize in Hr. exact Hr.
Qed.

End MissingChunk.

(** ** The tracker's registry *)

(** X13. A registration request that lacks a required field is answered
    with status 400 naming the first missing field in the order
    file_name, file_hash, file_size, chunks, ip, port, and the registry
    is left as it was; a request with all six fields is answered with
    status 200. *)
Theorem register_missing_field (data : register_data)
    (files : gmap string file_entry) :
  match first_missing data with
  | Some field =>
      register data files = (Error400 ("Missing field: " +:+ field), files)
  | None =>
      exists message file_hash peers_count,
        fst (register data files) = Ok200 message file_hash peers_count /\
        d_file_hash data = Some file_hash
  end.
Proof.
  unfold first_missing, register.
  destruct (d_file_name data) as [name|]; [|reflexivity].
  destruct (d_file_hash data) as [h|]; [|reflexivity].
  destruct (d_file_size data) as [size|]; [|reflexivity].
  destruct (d_chunks data) as [cs|]; [|reflexivity].
  destruct (d_ip data) as [ip0|]; [|reflexivity].
  destruct (d_port data) as [port0|]; [|reflexivity].
  destruct (find _ _); eauto.
Qed.

Lemma same_peer_false_iff (ip0 : string) (port0 : Z) (p : peer) :
  same_peer ip0 port0 p = false <-> peer_addr p <> (ip0, port0).
Proof.
  rewrite <- not_true_iff_false, same_peer_iff. unfold peer_addr. split.
  - intros H [= ? ?]. tauto.
  - intros H [? ?]. apply H. congruence.
Qed.

(** X14. Registration of a peer whose address the file does not list yet
    (the file may be new to the registry). The answer is status 200 with
    the peer count grown by one; the new entry is appended after the
    entries already there; for a file already in the registry the
    recorded name and size stay, whatever the request says; no other
    file of the registry changes. *)
Theorem register_new_peer (files : gmap string file_entry) (name h : string)
    (size : Z) (cs : list Z) (ip0 : string) (port0 : Z) :
  (forall e p, files !! h = Some e -> In p (peers e) ->
               peer_addr p <> (ip0, port0)) ->
  let old :=
    match files !! h with
    | Some e => e
    | None => FileEntry name size []
    end in
  register (RegisterData (Some name) (Some h) (Some size) (Some cs)
                         (Some ip0) (Some port0)) files
  = (Ok200 "Peer registered successfully" h (len (peers old) + 1),
     <[h := FileEntry (file_name old) (file_size old)
                      (peers old ++ [Peer ip0 port0 cs])]> files).
Proof.
  intros Hnew old. unfold register.
  cbn [d_file_name d_file_hash d_file_size d_chunks d_ip d_port]. fold old.
  assert (find (same_peer ip0 port0) (peers old) = None) as ->.
  { destruct (find (same_peer ip0 port0) (peers old)) as [q|] eqn:E; [|reflexivity].
    apply find_some in E. destruct E as [Hin Hq]. exfalso.
    apply same_peer_iff in Hq. unfold old in Hin.
    destruct (files !! h) as [e|] eqn:Hh; [|destruct Hin].
    apply (Hnew e q eq_refl Hin). unfold peer_addr. destruct Hq. congruence. }
  f_equal. f_equal. unfold len. rewrite length_app. cbn [length]. lia.
Qed.

Lemma map_addr_set_existing (ip0 : string) (port0 : Z) (cs : list Z)
    (ps : list peer) :
  map peer_addr (set_existing_chunks ip0 port0 cs ps) = map peer_addr ps.
Proof.
  induction ps as [|p ps IH]; [reflexivity|]. cbn [set_existing_chunks].
  destruct (same_peer ip0 port0 p); cbn [map]; [reflexivity|].
  rewrite IH. reflexivity.
Qed.

Lemma register_unique_step (data : register_data)
    (files : gmap string file_entry) :
  unique_peers files -> unique_peers (snd (register data files)).
Proof.
  intros Hu. unfold register.
  destruct (d_file_name data) as [name|]; [|exact Hu].
  destruct (d_file_hash data) as [h|]; [|exact Hu].
  destruct (d_file_size data) as [size|]; [|exact Hu].
  destruct (d_chunks data) as [cs|]; [|exact Hu].
  destruct (d_ip data) as [ip0|]; [|exact Hu].
  destruct (d_port data) as [port0|]; [|exact Hu].
  set (entry := match files !! h with Some e => e | None => FileEntry name size [] end).
  assert (List.NoDup (map peer_addr (peers entry))) as Hentry.
  { unfold entry. destruct (files !! h) as [e|] eqn:Hh; [|constructor].
    exact (Hu h e Hh). }
  destruct (find (same_peer ip0 port0) (peers entry)) as [q|] eqn:Hfind;
    cbn [snd]; intros h' e' He'.
  - destruct (decide (h = h')) as [<-|Hne].
    + rewrite lookup_insert_eq in He'. injection He' as <-. cbn [peers].
      rewrite map_addr_set_existing. exact Hentry.
    + rewrite lookup_insert_ne in He' by exact Hne. exact (Hu h' e' He').
  - destruct (decide (h = h')) as [<-|Hne].
    + rewrite lookup_insert_eq in He'. injection He' as <-. cbn [peers].
      rewrite map_app. apply List.NoDup_app; [exact Hentry|repeat constructor; intros []|].
      intros a Ha [<-|[]]. apply in_map_iff in Ha. destruct Ha as (p & Hp & Hin).
      pose proof (find_none _ _ Hfind p Hin) as Hf.
      apply same_peer_false_iff in Hf. apply Hf. exact Hp.
    + rewrite lookup_insert_ne in He' by exact Hne. exact (Hu h' e' He').
Qed.

(** X15. Whatever registration requests the tracker receives, starting
    from the empty registry, no file of the registry ever lists two
    entries with the same ip and port. *)
Theorem register_all_unique_peers (requests : list register_data) :
  unique_peers (register_all requests ∅).
Proof.
  unfold register_all.
  assert (unique_peers (∅ : gmap string file_entry)) as H0.
  { intros h e He. rewrite lookup_empty in He. discriminate. }
  revert H0. generalize (∅ : gmap string file_entry).
  induction requests as [|d ds IH]; intros files Hu; [exact Hu|].
  cbn [fold_left]. apply IH, register_unique_step, Hu.
Qed.

(** ** The registry in insertion order *)

Lemma dict_get_list_to_map (files : registry) (k : string) :
  dict_get files k = (list_to_map files : gmap string file_entry) !! k.
Proof.
  unfold dict_get. induction files as [|[k' v'] files IH]; [reflexivity|].
  cbn [find fst list_to_map foldr]. destruct (String.eqb_spec k' k) as [->|Hne].
  - cbn. rewrite lookup_insert_eq. reflexivity.
  - rewrite IH. cbn. rewrite lookup_insert_ne by exact Hne. reflexivity.
Qed.

Lemma list_to_map_dict_set (files : registry) (k : string) (v : file_entry) :
  (list_to_map (dict_set files k v) : gmap string file_entry)
  = <[k := v]> (list_to_map files).
Proof.
  induction files as [|[k' v'] files IH]; [reflexivity|].
  cbn [dict_set]. destruct (String.eqb_spec k' k) as [->|Hne].
  - cbn. rewrite insert_insert_eq. reflexivity.
  - cbn. cbn in IH. rewrite IH. apply insert_insert_ne. congruence.
Qed.

Lemma dict_set_absent (files : registry) (k : string) (v : file_entry) :
  dict_get files k = None -> dict_set files k v = files ++ [(k, v)].
Proof.
  unfold dict_get. induction files as [|[k' v'] files IH]; [reflexivity|].
  cbn [find fst dict_set]. destruct (String.eqb k' k); [discriminate|].
  intros H. cbn [app]. f_equal. apply IH. exact H.
Qed.

Lemma dict_set_present (files : registry) (k : string) (v e : file_entry) :
  dict_get files k = Some e ->
  exists l1 l2, files = l1 ++ (k, e) :: l2 /\
                dict_set files k v = l1 ++ (k, v) :: l2 /\
                ~ In k (map fst l1).
Proof.
  unfold dict_get. induction files as [|[k' v'] files IH]; [discriminate|].
  cbn [find fst dict_set]. destruct (String.eqb_spec k' k) as [->|Hne].
  - cbn. intros [= ->]. exists [], files. repeat split. intros [].
  - intros H. destruct (IH H) as (l1 & l2 & -> & Hset & Hk).
    exists ((k', v') :: l1), l2. rewrite Hset. repeat split.
    cbn. intros [?|?]; [congruence|tauto].
Qed.

Lemma dict_get_not_in (files : registry) (k : string) :
  dict_get files k = None <-> ~ In k (map fst files).
Proof.
  unfold dict_get. induction files as [|[k' v'] files IH]; [cbn; tauto|].
  cbn [find fst map]. destruct (String.eqb_spec k' k) as [->|Hne].
  - cbn. split; [discriminate|]. intros H. exfalso. apply H. left. reflexivity.
  - rewrite IH. cbn. split; [intros H [?|?]; [congruence|tauto]|tauto].
Qed.

Lemma keys_dict_set (files : registry) (k : string) (v : file_entry) :
  List.NoDup (map fst files) -> List.NoDup (map fst (dict_set files k v)).
Proof.
  intros Hnd. destruct (dict_get files k) as [e|] eqn:E.
  - destruct (dict_set_present files k v e E) as (l1 & l2 & Hl & -> & _).
    rewrite Hl in Hnd. rewrite map_app in *. exact Hnd.
  - rewrite dict_set_absent by exact E. rewrite map_app.
    apply List.NoDup_app; [exact Hnd|repeat constructor; intros []|].
    intros a Ha [<-|[]]. apply dict_get_not_in in E. exact (E Ha).
Qed.

(** The two forms of the registry answer a registration alike and stay
    in step. *)
Lemma register_ordered_refines (data : register_data) (files : registry) :
  fst (register_ordered data files) = fst (register data (list_to_map files)) /\
  (list_to_map (snd (register_ordered data files)) : gmap string file_entry)
  = snd (register data (list_to_map files)).
Proof.
  unfold register_ordered, register.
  destruct (d_file_name data) as [name|]; [|split; reflexivity].
  destruct (d_file_hash data) as [h|]; [|split; reflexivity].
  destruct (d_file_size data) as [size|]; [|split; reflexivity].
  destruct (d_chunks data) as [cs|]; [|split; reflexivity].
  destruct (d_ip data) as [ip0|]; [|split; reflexivity].
  destruct (d_port data) as [port0|]; [|split; reflexivity].
  rewrite dict_get_list_to_map.
  destruct (find _ _); cbn [fst snd]; rewrite list_to_map_dict_set;
    split; reflexivity.
Qed.

Lemma register_ordered_keys (data : register_data) (files : registry) :
  List.NoDup (map fst files) ->
  List.NoDup (map fst (snd (register_ordered data files))).
Proof.
  intros Hnd. unfold register_ordered.
  destruct (d_file_name data) as [name|]; [|exact Hnd].
  destruct (d_file_hash data) as [h|]; [|exact Hnd].
  destruct (d_file_size data) as [size|]; [|exact Hnd].
  destruct (d_chunks data) as [cs|]; [|exact Hnd].
  destruct (d_ip data) as [ip0|]; [|exact Hnd].
  destruct (d_port data) as [port0|]; [|exact Hnd].
  destruct (find _ _); cbn [snd]; apply keys_dict_set, Hnd.
Qed.

Lemma find_Some_split {A} (f : A -> bool) (l : list A) (q : A) :
  find f l = Some q ->
  exists l1 l2, l = l1 ++ q :: l2 /\ f q = true /\
                Forall (fun y => f y = false) l1.
Proof.
  induction l as [|y l IH]; [discriminate|]. cbn [find].
  destruct (f y) eqn:Hy.
  - intros [= ->]. exists [], l. repeat split; [exact Hy|constructor].
  - intros H. destruct (IH H) as (l1 & l2 & -> & Hq & Hl1).
    exists (y :: l1), l2. repeat split; [exact Hq|]. constructor; assumption.
Qed.

Lemma find_None_Forall {A} (f : A -> bool) (l : list A) :
  find f l = None -> Forall (fun y => f y = false) l.
Proof.
  intros H. apply List.Forall_forall. intros x Hx. exact (find_none f l H x Hx).
Qed.

Lemma find_skip {A} (f : A -> bool) (l1 l2 : list A) :
  Forall (fun y => f y = false) l1 -> find f (l1 ++ l2) = find f l2.
Proof.
  induction 1 as [|y l1 Hy _ IH]; [reflexivity|]. cbn. rewrite Hy. exact IH.
Qed.

(** X16. [lookup] by name. Without a name, or with the empty name, the
    answer is status 400. Otherwise it is status 404 exactly when no
    file of the registry has that name, and else status 200 with the
    hash, size and peers of the first file registered under that name:
    no file before it in the registry has the name. *)
Theorem lookup_first_by_name (filename : string) (files : registry) :
  lookup None files = Lookup400 /\
  lookup (Some EmptyString) files = Lookup400 /\
  (filename <> EmptyString ->
   match lookup (Some filename) files with
   | Lookup400 => False
   | Lookup404 => Forall (fun kv => file_name (snd kv) <> filename) files
   | Lookup200 h n s ps =>
       n = filename /\
       exists l1 l2,
         files = l1 ++ (h, FileEntry n s ps) :: l2 /\
         Forall (fun kv => file_name (snd kv) <> filename) l1
   end).
Proof.
  split; [reflexivity|]. split; [reflexivity|]. intros Hne.
  destruct filename as [|a f]; [congruence|].
  cbn [lookup]. unfold find_by_name.
  destruct (find _ files) as [[h info]|] eqn:E.
  - destruct (find_Some_split _ _ _ E) as (l1 & l2 & -> & Hq & Hl1).
    cbn [snd] in Hq. apply String.eqb_eq in Hq. split; [exact Hq|].
    exists l1, l2. split; [destruct info; reflexivity|].
    eapply Forall_impl; [exact Hl1|]. intros kv Hkv. cbn beta in Hkv.
    apply String.eqb_neq. exact Hkv.
  - apply find_None_Forall in E. eapply Forall_impl; [exact E|].
    intros kv Hkv. cbn beta in Hkv. apply String.eqb_neq. exact Hkv.
Qed.






Lemma lookup_fresh_registration (files : registry) (name h : string)
    (size : Z) (cs : list Z) (ip0 : string) (port0 : Z) :
  dict_get files h = None -> name <> EmptyString ->
  lookup (Some name) files = Lookup404 ->
  lookup (Some name)
    (snd (register_ordered
            (RegisterData (Some name) (Some h) (Some size) (Some cs)
                          (Some ip0) (Some port0)) files))
  = Lookup200 h name size [Peer ip0 port0 cs].
Proof.
  intros Hfresh Hne H404. unfold register_ordered.
  cbn [d_file_name d_file_hash d_file_size d_chunks d_ip d_port].
  rewrite Hfresh. cbn [peers find snd file_name file_size app].
  rewrite dict_set_absent by exact Hfresh.
  destruct name as [|a name']; [congruence|]. cbn [lookup] in *.
  unfold find_by_name in *.
  destruct (find _ files) as [[h0 i0]|] eqn:E; [discriminate|].
  rewrite find_skip by (apply find_None_Forall; exact E).
  cbn [find snd file_name]. rewrite String.eqb_refl. reflexivity.
Qed.


Lemma in_dict_set (files : registry) (k : string) (v : file_entry) :
  In (k, v) (dict_set files k v).
Proof.
  induction files as [|[k' v'] files IH]; [left; reflexivity|].
  cbn [dict_set]. destruct (String.eqb k' k); [left; reflexivity|].
  right. exact IH.
Qed.

(** X18. [list_files] after [register], in a registry whose keys are
    distinct: the file of the request is listed, with the peer count the
    registration answered, and no hash is listed twice. *)
Theorem list_files_after_register (data : register_data) (files files' : registry)
    (message h : string) (n : Z) :
  List.NoDup (map fst files) ->
  register_ordered data files = (Ok200 message h n, files') ->
  (exists name size, In (h, name, size, n) (list_files files')) /\
  List.NoDup (map (fun x => fst (fst (fst x))) (list_files files')) /\
  length (list_files files') = length files'.
Proof.
  intros Hnd Hreg.
  pose proof (register_ordered_keys data files Hnd) as Hkeys.
  rewrite Hreg in Hkeys. cbn [snd] in Hkeys.
  split; [|split].
  - unfold register_ordered in Hreg.
    destruct (d_file_name data) as [name|]; [|discriminate].
    destruct (d_file_hash data) as [h0|]; [|discriminate].
    destruct (d_file_size data) as [size|]; [|discriminate].
    destruct (d_chunks data) as [cs|]; [|discriminate].
    destruct (d_ip data) as [ip0|]; [|discriminate].
    destruct (d_port data) as [port0|]; [|discriminate].
    destruct (find _ _); injection Hreg as <- <- <- <-;
      eexists _, _; unfold list_files;
      apply in_map_iff; eexists (_, _); (split; [|apply in_dict_set]);
      reflexivity.
  - unfold list_files. rewrite map_map. cbn [fst]. exact Hkeys.
  - unfold list_files. apply length_map.
Qed.

(** ** Share mode *)

Lemma save_copy_spec (fs : filesystem) (src file_hash : string) (content : bytes) :
  fs !! src = Some content ->
  exists fs',
    save_copy fs src file_hash = Some fs' /\
    fs' !! os_path_join download_dir file_hash
      = Some (default content (fs !! os_path_join download_dir file_hash)) /\
    (forall p, p <> os_path_join download_dir file_hash -> fs' !! p = fs !! p) /\
    (forall p, fs !! p = Some content -> fs' !! p = Some content).
Proof.
  intros Hsrc. unfold save_copy. rewrite Hsrc.
  destruct (fs !! os_path_join download_dir file_hash) as [old|] eqn:E.
  - exists fs. rewrite E. auto.
  - eexists. split; [reflexivity|]. split; [apply lookup_insert_eq|]. split.
    + intros p Hp. apply lookup_insert_ne. congruence.
    + intros p Hp. destruct (decide (os_path_join download_dir file_hash = p))
        as [<-|Hne]; [congruence|]. rewrite lookup_insert_ne by exact Hne. exact Hp.
Qed.

Lemma tracker_post_link : link_to_tracker tracker_post.
Proof.
  intros files data r files'. unfold tracker_post.
  destruct (register_ordered data files) as [r0 files0].
  intros E. injection E as <- <-. reflexivity.
Qed.

(** The tracker of [server.py] answers the registration of share mode,
    which has all six fields, with status 200 for its hash. *)
Lemma register_payload_ok (name h : string) (size port0 n : Z)
    (ip0 : string) (files : registry) :
  exists message count,
    fst (register_ordered (register_payload name h size port0 n ip0) files)
    = Ok200 message h count.
Proof.
  unfold register_ordered, register_payload.
  cbn [d_file_name d_file_hash d_file_size d_chunks d_ip d_port].
  destruct (find _ _); cbn [fst]; eauto.
Qed.

Section ShareMode.

Variable sha1_hex : bytes -> string.
Variable abspath : string -> string.
Context {Tracker : Type}.
Variable post_register :
  Tracker -> register_data -> http_result response * Tracker.

(** Share mode on a file, by what comes back from the tracker. *)
Lemma main_share_cases (share : string) (port0 : Z) (local_ip : string)
    (fs : filesystem) (tr : Tracker) (content : bytes) :
  fs !! share = Some content ->
  let file_hash := sha1_hex content in
  let num_chunks := get_file_info_num_chunks (len content) in
  main_share sha1_hex abspath post_register share port0 local_ip fs tr
  = match post_register tr
            (register_payload (os_path_basename share) file_hash (len content)
                              port0 num_chunks local_ip) with
    | (Response (Ok200 message h count), tr') =>
        match save_copy fs share file_hash with
        | Some fs' =>
            Some (ShareOnline file_hash (len content) num_chunks
                              (Ok200 message h count),
                  {[ file_hash := abspath share ]}, fs', tr')
        | None => None
        end
    | (_, tr') => Some (ShareRegistrationFailed, ∅, fs, tr')
    end.
Proof.
  intros Hfs file_hash num_chunks. unfold main_share. rewrite Hfs.
  rewrite (get_file_info_spec sha1_hex fs share content Hfs).
  fold file_hash. fold num_chunks. unfold register_with_tracker.
  destruct (post_register tr _) as [[[e|message h count]|] tr'];
    reflexivity.
Qed.

(** X19. Share mode. For a path that is not a file, nothing is hosted,
    posted or written.  For a file, the peer posts to the tracker the
    registration of all chunk ids [0 .. chunkCount-1] under the base
    name of the path, with the hash of the file's bytes, its size, its
    address and port.  If the answer has status 200, the peer comes
    online: the report carries the hash, the size and the ceiling chunk
    count; the table of hosted files maps that hash, and nothing else,
    to the absolute path; the copy under [downloads/p2p_share/<hash>]
    holds the file's bytes if no file was there, and what was there
    otherwise; every other file is as it was.  If the answer has
    another status, or the request fails, share mode reports the failed
    registration: nothing is hosted and the file system is as it was. *)
Theorem main_share_effects (share : string) (port0 : Z) (local_ip : string)
    (fs : filesystem) (tr : Tracker) :
  match fs !! share with
  | None =>
      main_share sha1_hex abspath post_register share port0 local_ip fs tr
      = Some (ShareFileNotFound, ∅, fs, tr)
  | Some content =>
      let file_hash := sha1_hex content in
      let num_chunks := get_file_info_num_chunks (len content) in
      let copy_path := os_path_join download_dir file_hash in
      let payload :=
        RegisterData (Some (os_path_basename share)) (Some file_hash)
                     (Some (len content)) (Some (py_range num_chunks))
                     (Some local_ip) (Some port0) in
      match post_register tr payload with
      | (Response (Ok200 message h count), tr') =>
          exists fs',
            main_share sha1_hex abspath post_register share port0 local_ip
                       fs tr
            = Some (ShareOnline file_hash (len content) num_chunks
                                (Ok200 message h count),
                    {[ file_hash := abspath share ]}, fs', tr') /\
            fs' !! copy_path = Some (default content (fs !! copy_path)) /\
            (forall p, p <> copy_path -> fs' !! p = fs !! p)
      | (Response (Error400 _), tr') | (RequestException, tr') =>
          main_share sha1_hex abspath post_register share port0 local_ip fs tr
          = Some (ShareRegistrationFailed, ∅, fs, tr')
      end
  end.
Proof.
  destruct (fs !! share) as [content|] eqn:Hfs.
  - cbv zeta.
    pose proof (main_share_cases share port0 local_ip fs tr content Hfs)
      as Hmain.
    cbv zeta in Hmain. unfold register_payload in Hmain.
    destruct (post_register tr _) as [[[e|message h count]|] tr'];
      try exact Hmain.
    destruct (save_copy_spec fs share (sha1_hex content) content Hfs)
      as (fs' & Hcopy & Hat & Hothers & _).
    rewrite Hcopy in Hmain. exists fs'. split; [exact Hmain|].
    split; assumption.
  - unfold main_share. rewrite Hfs. reflexivity.
Qed.

End ShareMode.

(** ** From sharing a file to downloading it *)

Section ShareThenDownload.

Context {Net : Type}.
Variable exchange : Net -> string -> Z -> bytes -> exchange_result * Net.
Variable sha1_hex : bytes -> string.
Variable abspath : string -> string.
Variable post_register :
  registry -> register_data -> http_result response * registry.

(** X20. A peer shares a file and another peer downloads it by name. The
    sharing peer's path and its absolute path hold the file's bytes; the
    hash of the bytes is a non-empty word; the tracker of [server.py],
    behind a link that may fail, knows neither the hash nor the base
    name of the path; share mode came online, so its registration was
    answered with status 200; requests for the file's chunks sent to
    the address the peer registered are answered by a chunk server over
    the peer's table of hosted files and file system.  Then a lookup by
    the base name that reaches the tracker is answered with the sharing
    peer, all chunk ids, the size and the hash, and the download from
    that answer ends with the completion report, the downloader's
    output file holding exactly the shared bytes. *)
Theorem share_then_download (share : string) (port0 : Z) (local_ip : string)
    (fs_peer fs_peer' : filesystem) (files files' : registry)
    (hosted_files : gmap string string) (res : response)
    (content : bytes) (g : rng) (as_completed : list task -> list task)
    (net : Net) (fs : filesystem) :
  let file_hash := sha1_hex content in
  let num_chunks := get_file_info_num_chunks (len content) in
  link_to_tracker post_register ->
  fs_peer !! share = Some content ->
  fs_peer !! abspath share = Some content ->
  no_space file_hash = true -> file_hash <> EmptyString ->
  os_path_basename share <> EmptyString ->
  dict_get files file_hash = None ->
  lookup (Some (os_path_basename share)) files = Lookup404 ->
  main_share sha1_hex abspath post_register share port0 local_ip fs_peer files
    = Some (ShareOnline file_hash (len content) num_chunks res,
            hosted_files, fs_peer', files') ->
  (forall c, 0 <= c < num_chunks ->
     (String.length (request_line file_hash c) <= 1024)%nat) ->
  (forall net c, 0 <= c < num_chunks ->
     exists fr net',
       (3 <= hd 3%nat fr)%nat /\
       exchange net local_ip port0 (b_lit (request_line file_hash c))
       = (Replied (Conn (chunk_server_reply hosted_files fs_peer'
                           (b_lit (request_line file_hash c))) fr), net')) ->
  (forall l, Permutation (as_completed l) l) ->
  exists m net',
    lookup_peers tracker_get (os_path_basename share) files' = (Some m, files') /\
    m = Meta [Peer local_ip port0 (py_range num_chunks)] (len content) file_hash /\
    main_download exchange sha1_hex m g as_completed net fs
    = Some (DownloadComplete (os_path_join download_dir file_hash),
            <[os_path_join download_dir file_hash := content]> fs, net').
Proof.
  intros file_hash num_chunks Hlink Hfile Habs Hns Hne Hname Hfresh H404 Hshare
    Hfit Hnet Hperm.
  rewrite (main_share_cases sha1_hex abspath post_register share port0 local_ip
             fs_peer files content Hfile) in Hshare.
  cbv zeta in Hshare. fold file_hash in Hshare. fold num_chunks in Hshare.
  destruct (post_register files _) as [[[e|message h count]|] files1] eqn:Hpost;
    try discriminate.
  apply Hlink in Hpost.
  destruct (save_copy_spec fs_peer share file_hash content Hfile)
    as (fs1 & Hcopy & _ & _ & Hkeep).
  rewrite Hcopy in Hshare. injection Hshare as <- <- <- <-.
  assert (files1
          = snd (register_ordered
                   (register_payload (os_path_basename share) file_hash
                      (len content) port0 num_chunks local_ip) files)) as ->
    by (rewrite Hpost; reflexivity).
  set (m := Meta [Peer local_ip port0 (py_range num_chunks)] (len content)
                 file_hash).
  assert (lookup_peers tracker_get (os_path_basename share)
            (snd (register_ordered
                    (register_payload (os_path_basename share) file_hash
                       (len content) port0 num_chunks local_ip) files))
          = (Some m,
             snd (register_ordered
                    (register_payload (os_path_basename share) file_hash
                       (len content) port0 num_chunks local_ip) files)))
    as Hlookup.
  { unfold lookup_peers, tracker_get, register_payload.
    rewrite lookup_fresh_registration by assumption. reflexivity. }
  destruct (download_from_serving_peers exchange sha1_hex m g as_completed net
              fs content) as [net' Hdl]; try assumption.
  - discriminate.
  - reflexivity.
  - reflexivity.
  - intros c Hc. exists (Peer local_ip port0 (py_range num_chunks)).
    split; [left; reflexivity|]. apply in_py_range. exact Hc.
  - intros net0 p c [<-|[]] Hc. cbn [m m_file_hash ip port].
    destruct (Hnet net0 c Hc) as (fr & net1 & Hfr & Hex).
    exists {[ file_hash := abspath share ]}, fs1, (abspath share), fr, net1.
    split; [apply lookup_singleton_eq|]. split; [apply Hkeep, Habs|].
    split; [exact Hfr|exact Hex].
  - exists m, net'. split; [exact Hlookup|]. split; [reflexivity|exact Hdl].
Qed.

End ShareThenDownload.

(** ** More on the wire protocol *)

(** X1. The request line of [download_chunk] read back by the chunk
    server: for a hash that is a non-empty word, stripping and
    splitting the line gives the three words [GET_CHUNK], the hash and
    the decimal chunk id, and [int] of the third word is the chunk id
    that was sent, negative ids included. *)
Theorem request_line_round_trip (file_hash : string) (chunk_id : Z) :
  no_space file_hash = true -> file_hash <> EmptyString ->
  exists chunk_str,
    py_split (py_strip (request_line file_hash chunk_id))
      = ["GET_CHUNK"%string; file_hash; chunk_str] /\
    py_int chunk_str = Some chunk_id.
Proof.
  intros Hns Hne. exists (pretty chunk_id).
  apply request_line_parses; assumption.
Qed.

(** X2. The length prefix. [to_bytes(4, 'big')] succeeds exactly on
    [0 <= n < 2^32]; it then gives four bytes that [from_bytes] reads
    back as [n]. *)
Theorem length_prefix_round_trip (n : Z) :
  match to_bytes4 n with
  | Some prefix =>
      0 <= n < 2 ^ 32 /\ length prefix = 4%nat /\ from_bytes prefix = n
  | None => n < 0 \/ 2 ^ 32 <= n
  end.
Proof.
  destruct (to_bytes4 n) as [prefix|] eqn:E.
  - destruct (from_bytes_to_bytes4 n prefix E) as [Hl Hf].
    split; [|split; assumption].
    unfold to_bytes4 in E.
    destruct (Z.leb_spec 0 n); [|discriminate].
    destruct (Z.ltb_spec n (2 ^ 32)); [|discriminate]. lia.
  - destruct (Z_lt_le_dec n 0) as [?|H0]; [left; assumption|].
    destruct (Z_lt_le_dec n (2 ^ 32)) as [H1|?]; [|right; assumption].
    destruct (to_bytes4_is_Some n (conj H0 H1)) as [p Hp]. congruence.
Qed.

(** ** The plan for a single peer *)

Lemma tasks_of_one_peer (q : peer_info) (plan : list task) :
  Forall (fun t => task_peer t = q) plan ->
  plan = map (fun c => (pi_ip q, pi_port q, c)) (map task_chunk plan).
Proof.
  induction 1 as [|t plan Ht _ IH]; [reflexivity|].
  cbn [map]. rewrite <- IH. f_equal.
  destruct t as [[i p] c]. unfold task_peer in Ht. cbn in Ht. subst q. reflexivity.
Qed.

Lemma filter_ext_in_list {A} (f g : A -> bool) (l : list A) :
  (forall x, In x l -> f x = g x) -> List.filter f l = List.filter g l.
Proof.
  induction l as [|x l IH]; intros H; [reflexivity|]. cbn [List.filter].
  rewrite (H x (or_introl eq_refl)), IH; [reflexivity|].
  intros y Hy. apply H. right. exact Hy.
Qed.

(** X11. With a single peer in the tracker's answer the plan does not
    depend on the random generator: it asks that peer for exactly the
    chunk ids of [0, chunkCount) that it advertises, each once, in
    increasing order. *)
Theorem plan_for_single_peer (p : peer) (num_chunks : Z) (g : rng) :
  fst (create_download_plan (build_chunk_availability_map [p] num_chunks)
                            num_chunks g)
  = map (fun c => (ip p, port p, c))
        (List.filter (fun c => existsb (Z.eqb c) (chunks p)) (py_range num_chunks)).
Proof.
  destruct (create_download_plan_spec
              (build_chunk_availability_map [p] num_chunks) num_chunks g)
    as [Hmap Hall]. cbv zeta in Hmap, Hall.
  rewrite (tasks_of_one_peer (PeerInfo (ip p) (port p)) _).
  - cbn [pi_ip pi_port]. f_equal. rewrite Hmap.
    apply filter_ext_in_list. intros c Hc. apply in_py_range in Hc.
    unfold has_peers. rewrite get_peers_build.
    destruct (Z.ltb_spec c num_chunks); [|lia].
    unfold advertisers. cbn [flat_map]. rewrite app_nil_r.
    induction (chunks p) as [|x cs IH]; [reflexivity|].
    cbn [List.filter existsb]. destruct (c =? x); [reflexivity|exact IH].
  - eapply Forall_impl; [exact Hall|]. intros t Ht. cbn beta in Ht.
    rewrite get_peers_build in Ht.
    destruct (task_chunk t <? num_chunks); [|destruct Ht].
    apply in_advertisers in Ht. destruct Ht as (p' & [<-|[]] & _ & Hq). exact Hq.
Qed.

(** ** The chunk buffer *)

Section Buffer.

Context {Net : Type}.
Variable exchange : Net -> string -> Z -> bytes -> exchange_result * Net.
Variable sha1_hex : bytes -> string.


(** X10. A chunk buffer with an empty slot: nothing is written, the file
    system is as it was, and the report lists exactly the indices of
    the empty slots. *)
Theorem assemble_and_verify_incomplete (file_hash : string)
    (output : list (option bytes)) (fs : filesystem) (i : nat) :
  output !! i = Some None ->
  assemble_and_verify sha1_hex file_hash output fs
    = Some (DownloadIncomplete (missing_chunks output), fs) /\
  forall z, In z (missing_chunks output) <->
            exists j, z = Z.of_nat j /\ output !! j = Some None.
Proof.
  intros Hi. split; [|intros z; apply in_missing_chunks].
  unfold assemble_and_verify. rewrite (existsb_is_None_lookup _ _ Hi).
  reflexivity.
Qed.



(** X12. [get_file_info]. For a file on disk: the hash of all its bytes
    in order, gathered by reads of [CHUNK_SIZE] bytes, its size, and the
    ceiling of size over [CHUNK_SIZE].  For a missing file: the
    exception. *)
Theorem get_file_info_cases (fs : filesystem) (file_path : string) :
  get_file_info sha1_hex fs file_path
  = match fs !! file_path with
    | Some content =>
        Some (sha1_hex content, len content,
              (len content + CHUNK_SIZE - 1) / CHUNK_SIZE)
    | None => None
    end.
Proof.
  destruct (fs !! file_path) as [content|] eqn:Hfs.
  - apply get_file_info_spec. exact Hfs.
  - unfold get_file_info. rewrite Hfs. reflexivity.
Qed.

End Buffer.

(** ** The scenarios, checked *)

Lemma request_line_round_trip_witness :
  exists chunk_str,
    py_split (py_strip (request_line "abc" (-7)))
      = ["GET_CHUNK"%string; "abc"%string; chunk_str] /\
    py_int chunk_str = Some (-7).
Proof.
  exact (request_line_round_trip "abc" (-7) ltac:(reflexivity)
           ltac:(discriminate)).
Defined.

Lemma download_chunk_from_server_witness :
  download_chunk (serving_exchange demo_hosted demo_fs) O "10.0.0.1" 6000 "abc" 0
  = (match demo_hosted !! "abc"%string with
     | Some file_path =>
         match demo_fs !! file_path with
         | Some content =>
             if (0 <=? 0) && (0 <? server_num_chunks (len content))
             then Some (file_range content (chunk_lo 0)
                                   (chunk_hi 0 (len content)))
             else None
         | None => None
         end
     | None => None
     end, 1%nat).
Proof.
  apply (download_chunk_from_server (serving_exchange demo_hosted demo_fs)
           O 1%nat "10.0.0.1" 6000 "abc" 0 demo_hosted demo_fs []).
  - reflexivity.
  - reflexivity.
  - discriminate.
  - apply Nat.leb_le. reflexivity.
  - apply Nat.leb_le. reflexivity.
  - reflexivity.
Defined.

Lemma demo_range (c : Z) : 0 <= c < main_num_chunks 5 -> c = 0.
Proof. change (main_num_chunks 5) with 1. lia. Qed.

Lemma main_download_round_trip_witness :
  exists net',
    main_download (serving_exchange demo_hosted5 demo_fs) demo_digest demo_meta
      (fun _ => O) (fun l => l) O ∅
    = Some (DownloadComplete (os_path_join download_dir (m_file_hash demo_meta)),
            <[os_path_join download_dir (m_file_hash demo_meta) := demo_content]> ∅,
            net').
Proof.
  apply (main_download_round_trip (serving_exchange demo_hosted5 demo_fs)
           demo_digest demo_meta (fun _ => O) (fun l => l) O ∅ demo_content).
  - discriminate.
  - reflexivity.
  - reflexivity.
  - reflexivity.
  - discriminate.
  - intros c Hc. apply demo_range in Hc. subst c. apply Nat.leb_le. reflexivity.
  - intros c Hc. apply demo_range in Hc. subst c. exists demo_peer.
    split; left; reflexivity.
  - intros l. reflexivity.
  - intros net p c [<-|[]] Hc.
    exists demo_hosted5, demo_fs, "/srv/f"%string, [], (S net).
    repeat split. apply Nat.leb_le. reflexivity.
Defined.


Lemma register_new_peer_witness :
  register (RegisterData (Some "g.bin"%string) (Some "abc"%string) (Some 9)
                         (Some [0]) (Some "10.0.0.3"%string) (Some 6000))
           demo_registry
  = (Ok200 "Peer registered successfully" "abc" (2 + 1),
     <["abc"%string := FileEntry "f.bin" 3670016
                         ([peer_A; peer_B] ++ [Peer "10.0.0.3" 6000 [0]])]>
       demo_registry).
Proof.
  apply (register_new_peer demo_registry "g.bin" "abc" 9 [0] "10.0.0.3" 6000).
  intros e p He Hp. change (demo_registry !! "abc"%string)
    with (Some (FileEntry "f.bin" 3670016 [peer_A; peer_B])) in He.
  injection He as <-. destruct Hp as [<-|[<-|[]]]; discriminate.
Defined.


Lemma list_files_after_register_witness :
  (exists name size,
     In ("abc"%string, name, size, 2)
        (list_files (snd (register_ordered
                            (RegisterData (Some "g.bin"%string)
                               (Some "abc"%string) (Some 9) (Some [0; 1])
                               (Some "10.0.0.3"%string) (Some 6000))
                            demo_files)))) /\
  List.NoDup
    (map (fun x => fst (fst (fst x)))
         (list_files (snd (register_ordered
                             (RegisterData (Some "g.bin"%string)
                                (Some "abc"%string) (Some 9) (Some [0; 1])
                                (Some "10.0.0.3"%string) (Some 6000))
                             demo_files)))) /\
  length (list_files (snd (register_ordered
                             (RegisterData (Some "g.bin"%string)
                                (Some "abc"%string) (Some 9) (Some [0; 1])
                                (Some "10.0.0.3"%string) (Some 6000))
                             demo_files)))
  = length (snd (register_ordered
                   (RegisterData (Some "g.bin"%string)
                      (Some "abc"%string) (Some 9) (Some [0; 1])
                      (Some "10.0.0.3"%string) (Some 6000))
                   demo_files)).
Proof.
  apply (list_files_after_register
           (RegisterData (Some "g.bin"%string) (Some "abc"%string) (Some 9)
              (Some [0; 1]) (Some "10.0.0.3"%string) (Some 6000))
           demo_files _ "Peer registered successfully" "abc" 2).
  - repeat constructor. intros [].
  - reflexivity.
Defined.

Lemma assemble_and_verify_incomplete_witness :
  assemble_and_verify demo_digest "abc" [Some demo_content; None] ∅
    = Some (DownloadIncomplete (missing_chunks [Some demo_content; None]), ∅) /\
  forall z, In z (missing_chunks [Some demo_content; None]) <->
            exists j, z = Z.of_nat j /\
                      [Some demo_content; None] !! j = Some None.
Proof.
  exact (assemble_and_verify_incomplete demo_digest "abc"
           [Some demo_content; None] ∅ 1 eq_refl).
Defined.

(** The five-byte file of the scenario: one chunk, the range [0, 5). *)
Lemma chunk_count_ceil_and_partition_witness :
  exists file_hash n,
    get_file_info demo_digest demo_fs "/srv/f"
      = Some (file_hash, len demo_content, n) /\
    (n - 1) * CHUNK_SIZE < len demo_content <= n * CHUNK_SIZE.
Proof.
  destruct (chunk_count_ceil_and_partition demo_exchange demo_digest demo_fs
              "/srv/f" demo_content eq_refl)
    as (file_hash & n & Hinfo & Hceil & _).
  exists file_hash, n. split; [exact Hinfo|exact Hceil].
Defined.


Lemma share_then_download_witness :
  exists m net',
    lookup_peers tracker_get (os_path_basename "/srv/f") demo_share_files
      = (Some m, demo_share_files) /\
    m = Meta [Peer "10.0.0.1" 6000
                (py_range (get_file_info_num_chunks (len demo_content)))]
             (len demo_content) (demo_digest demo_content) /\
    main_download (serving_exchange demo_hosted5 demo_share_fs) demo_digest m
      (fun _ => O) (fun l => l) O ∅
    = Some (DownloadComplete
              (os_path_join download_dir (demo_digest demo_content)),
            <[os_path_join download_dir (demo_digest demo_content)
              := demo_content]> ∅, net').
Proof.
  apply (share_then_download (serving_exchange demo_hosted5 demo_share_fs)
           demo_digest (fun p => p) tracker_post "/srv/f" 6000 "10.0.0.1"
           demo_fs demo_share_fs [] demo_share_files demo_hosted5
           (Ok200 "Peer registered successfully" "5" 1)
           demo_content (fun _ => O) (fun l => l) O ∅).
  - exact tracker_post_link.
  - reflexivity.
  - reflexivity.
  - reflexivity.
  - discriminate.
  - discriminate.
  - reflexivity.
  - reflexivity.
  - vm_compute. reflexivity.
  - intros c Hc. apply demo_range in Hc. subst c. apply Nat.leb_le. reflexivity.
  - intros net c Hc. exists [], (S net). split; [|reflexivity].
    apply Nat.leb_le. reflexivity.
  - intros l. reflexivity.
Defined.
